(** * tg_annotation: a shallow embedding of [annotation_utils.py]

    Time stamps are Python numbers.  They are embedded as rationals [Q]:
    every finite float and every int is a rational, and the comparisons
    the program performs ([<], [<=], [==]), [min] and [max] are exact on
    them.  The difference of two floats is rounded: the subtraction of
    [-], [-=] and [extract_selected] is a parameter [fsub], of which a
    property assumes only what it states.  The sums of [+] and [+=] and
    the difference of [duration] are taken exact.  NaN and the
    infinities are outside the embedding.

    Objects are embedded by value.  A method that mutates [self] is a
    function from the state of [self] to an [outcome]: either it returns,
    or it raises, and in both cases the state reached is part of the
    outcome.

    A file is embedded as its text, read as Python reads a text file:
    a line ends at a line feed, at a carriage return, or at the two in
    a row.  The characters are those below U+0100.  [readline],
    [split], [strip] and [int] are modelled on that text.  How a number is printed ([format(x, '')]) is a parameter of
    the writers, and [float], which rounds what it reads, is a parameter
    of the readers. *)

From Stdlib Require Import QArith Qminmax Qpower Lqa Lia.
From Stdlib Require Import List String Ascii Bool Arith NArith ZArith.
From Stdlib Require Import Permutation Sorted SetoidList.
Import ListNotations.

Open Scope Q_scope.

(* ================================================================== *)
(** ** Python values, exceptions and the state-and-exception monad     *)
(* ================================================================== *)

(** The exception classes the program raises.  The spec's [InvalidRange],
    [NotFound] and [MalformedFormat] are all [ValueError] in the code. *)
Inductive exn : Type :=
  | ValueError
  | TypeError
  | IndexError.

(** The result of an expression that may raise and touches no state. *)
Inductive result (A : Type) : Type :=
  | Ok (a : A)
  | Err (e : exn).
Arguments Ok {A} a.
Arguments Err {A} e.

(** The result of running a method on a mutable object of state [S]. *)
Inductive outcome (S A : Type) : Type :=
  | Return (s : S) (a : A)
  | Raise (s : S) (e : exn).
Arguments Return {S A} s a.
Arguments Raise {S A} s e.

Definition M (S A : Type) : Type := S -> outcome S A.

Definition ret {S A} (a : A) : M S A := fun s => Return s a.
Definition raise {S A} (e : exn) : M S A := fun s => Raise s e.
Definition bind {S A B} (m : M S A) (k : A -> M S B) : M S B :=
  fun s => match m s with
           | Return s' a => k a s'
           | Raise s' e => Raise s' e
           end.
Definition get {S} : M S S := fun s => Return s s.
Definition put {S} (s : S) : M S unit := fun _ => Return s tt.
Definition lift {S A} (r : result A) : M S A :=
  fun s => match r with Ok a => Return s a | Err e => Raise s e end.

Declare Scope py_scope.
Delimit Scope py_scope with py.
Notation "x <- m ;; k" := (bind m (fun x => k))
  (at level 61, m at next level, right associativity) : py_scope.
Notation "m ;;; k" := (bind m (fun _ => k))
  (at level 61, right associativity) : py_scope.
Open Scope py_scope.

(** [for x in l: body x] on the state of [self]. *)
Fixpoint for_each {S A} (l : list A) (body : A -> M S unit) : M S unit :=
  match l with
  | [] => ret tt
  | x :: r => body x ;;; for_each r body
  end.

(** Comparisons of numbers as booleans. *)
Definition Qltb (a b : Q) : bool := negb (Qle_bool b a).

(** [min(a, b)] and [max(a, b)]: the first argument is kept on a tie. *)
Definition py_min (a b : Q) : Q := if Qltb b a then b else a.
Definition py_max (a b : Q) : Q := if Qltb a b then b else a.

(** [l.insert(i, x)] for [0 <= i]; an index past the end appends. *)
Definition list_insert {A} (i : nat) (x : A) (l : list A) : list A :=
  firstn i l ++ x :: skipn i l.

(** [l[i] = f(l[i])] for an index inside the list. *)
Fixpoint list_update {A} (i : nat) (f : A -> A) (l : list A) : list A :=
  match l, i with
  | [], _ => []
  | x :: r, O => f x :: r
  | x :: r, S j => x :: list_update j f r
  end.

(* ================================================================== *)
(** ** Temporal primitives: [Interval] and its subclass [Point]        *)
(* ================================================================== *)

(** The runtime class of a ranged object. *)
Inductive class : Type := Interval_cls | Point_cls.

Module Interval.

Record t : Type := mk {
  cls : class;
  _start_time : Q;
  _end_time : Q;
  _text : string
}.

(** What an operator or [__contains__] receives on its right: an object
    with [start_time]/[end_time] attributes, or a bare number. *)
Inductive operand : Type :=
  | Ranged (o : t)
  | Scalar (x : Q).

(** [Interval.__init__], run on a fresh object of class [c]. *)
Definition __init__ (c : class) (start_time end_time : Q) (text : string)
  : result t :=
  if Qltb start_time 0 then Err ValueError
  else if Qltb end_time 0 then Err ValueError
  else if Qltb end_time start_time
       then Ok (mk c end_time start_time text)
       else Ok (mk c start_time end_time text).

(** [Interval(start_time, end_time, text)]. *)
Definition new (start_time end_time : Q) (text : string) : result t :=
  __init__ Interval_cls start_time end_time text.

Definition start_time (self : t) : Q := _start_time self.
Definition end_time (self : t) : Q := _end_time self.
Definition text (self : t) : string := _text self.

Definition start_time_setter (other : Q) : M t unit :=
  fun self =>
    if Qltb other 0 then Raise self ValueError
    else if Qltb (_end_time self) other then Raise self ValueError
    else Return (mk (cls self) other (_end_time self) (_text self)) tt.

Definition end_time_setter (other : Q) : M t unit :=
  fun self =>
    if Qltb other 0 then Raise self ValueError
    else if Qltb other (_start_time self) then Raise self ValueError
    else Return (mk (cls self) (_start_time self) other (_text self)) tt.

Definition text_setter (other : string) : M t unit :=
  fun self =>
    Return (mk (cls self) (_start_time self) (_end_time self) other) tt.

Definition __contains__ (self : t) (other : operand) : bool :=
  match other with
  | Ranged o => Qle_bool (start_time self) (start_time o)
                && Qle_bool (end_time o) (end_time self)
  | Scalar x => Qle_bool (start_time self) x && Qle_bool x (end_time self)
  end.

Definition __lt__ (self : t) (other : operand) : bool :=
  match other with
  | Ranged o => Qle_bool (end_time self) (start_time o)
  | Scalar x => Qltb (end_time self) x
  end.

Definition __gt__ (self : t) (other : operand) : bool :=
  match other with
  | Ranged o => Qle_bool (end_time o) (start_time self)
  | Scalar x => Qltb x (start_time self)
  end.

Definition __le__ (self : t) (other : operand) : bool :=
  match other with
  | Ranged o => Qle_bool (end_time self) (end_time o)
  | Scalar x => Qle_bool (end_time self) x
  end.

Definition __ge__ (self : t) (other : operand) : bool :=
  match other with
  | Ranged o => Qle_bool (start_time o) (start_time self)
  | Scalar x => Qle_bool x (start_time self)
  end.

Definition __eq__ (self : t) (other : operand) : bool :=
  match other with
  | Ranged o => Qeq_bool (start_time self) (start_time o)
                && Qeq_bool (end_time self) (end_time o)
  | Scalar _ => false
  end.


Definition overlaps (self other : t) : bool :=
  Qltb (start_time self) (end_time other)
  && Qltb (start_time other) (end_time self).

Definition bounds (self : t) : Q * Q := (start_time self, end_time self).

(** [self + other]: a new object, always of class [Interval]; two ranged
    values give the hull of their bounds and the two texts joined, a
    number shifts both bounds. *)
Definition __add__ (self : t) (other : operand) : result t :=
  match other with
  | Ranged o =>
      new (py_min (start_time self) (start_time o))
          (py_max (end_time self) (end_time o))
          (text self ++ text o)
  | Scalar x => new (start_time self + x) (end_time self + x) (text self)
  end.

Definition __radd__ (self : t) (other : operand) : result t :=
  __add__ self other.


(** [self - other] for a number; a ranged [other] cannot be subtracted
    from a number and Python raises [TypeError].  The difference of two
    floats is rounded, so two different times can have the same
    difference to a third: the subtraction of the language is the
    parameter [fsub], of which a property assumes only what it states. *)
Definition __sub__ (fsub : Q -> Q -> Q) (self : t) (other : operand)
  : result t :=
  match other with
  | Scalar x =>
      new (fsub (start_time self) x) (fsub (end_time self) x) (text self)
  | Ranged _ => Err TypeError
  end.

(** [self -= other] goes through the two bound setters, in this order. *)
Definition __isub__ (fsub : Q -> Q -> Q) (other : operand) : M t unit :=
  match other with
  | Scalar x =>
      self <- get ;;
      start_time_setter (fsub (start_time self) x) ;;;
      self <- get ;;
      end_time_setter (fsub (end_time self) x)
  | Ranged _ => raise TypeError
  end.

Definition concatenate (other : operand) (delimiter : string) : M t unit :=
  fun self =>
    match other with
    | Ranged o =>
        Return (mk (cls self)
                   (py_min (start_time self) (start_time o))
                   (py_max (end_time self) (end_time o))
                   (text self ++ delimiter ++ text o)) tt
    | Scalar _ => Return self tt
    end.

(** [get_overlap]: [None] when the two do not overlap, else the clipped
    interval, without text. *)
Definition get_overlap (self other : t) : result (option t) :=
  if negb (overlaps self other) then Ok None
  else match new (py_max (start_time other) (start_time self))
                 (py_min (end_time other) (end_time self)) "" with
       | Ok i => Ok (Some i)
       | Err e => Err e
       end.

End Interval.

Module Point.

(** [Point(time, text)]: [super().__init__(time, time, text)]. *)
Definition new (time : Q) (text : string) : result Interval.t :=
  Interval.__init__ Point_cls time time text.

Definition time (self : Interval.t) : Q := Interval.start_time self.

(** The [time] setter writes both private bounds and checks nothing. *)
Definition time_setter (other : Q) : M Interval.t unit :=
  fun self =>
    Return (Interval.mk (Interval.cls self) other other
                        (Interval._text self)) tt.

Definition __lt__ (self : Interval.t) (other : Interval.operand) : bool :=
  match other with
  | Interval.Ranged o => Qltb (time self) (Interval.start_time o)
  | Interval.Scalar x => Qltb (time self) x
  end.

Definition __gt__ (self : Interval.t) (other : Interval.operand) : bool :=
  match other with
  | Interval.Ranged o => Qltb (Interval.end_time o) (time self)
  | Interval.Scalar x => Qltb x (time self)
  end.

End Point.

(* ================================================================== *)
(** ** The comparison operators, as Python dispatches them             *)
(* ================================================================== *)

(** The method a class provides.  [Point] overrides [__lt__] and [__gt__]
    and inherits the rest. *)
Definition method_lt (self : Interval.t) : Interval.operand -> bool :=
  match Interval.cls self with
  | Interval_cls => Interval.__lt__ self
  | Point_cls => Point.__lt__ self
  end.

Definition method_gt (self : Interval.t) : Interval.operand -> bool :=
  match Interval.cls self with
  | Interval_cls => Interval.__gt__ self
  | Point_cls => Point.__gt__ self
  end.

(** For [a OP b], the reflected method of [b] runs first when the type of
    [b] is a proper subclass of the type of [a]: here, an [Interval] on
    the left and a [Point] on the right.  No method of these classes
    returns [NotImplemented], so the first one tried decides. *)
Definition reflected_first (a b : Interval.t) : bool :=
  match Interval.cls a, Interval.cls b with
  | Interval_cls, Point_cls => true
  | _, _ => false
  end.

Definition op_lt (a b : Interval.t) : bool :=
  if reflected_first a b then method_gt b (Interval.Ranged a)
  else method_lt a (Interval.Ranged b).

Definition op_gt (a b : Interval.t) : bool :=
  if reflected_first a b then method_lt b (Interval.Ranged a)
  else method_gt a (Interval.Ranged b).

Definition op_le (a b : Interval.t) : bool :=
  if reflected_first a b then Interval.__ge__ b (Interval.Ranged a)
  else Interval.__le__ a (Interval.Ranged b).

Definition op_ge (a b : Interval.t) : bool :=
  if reflected_first a b then Interval.__le__ b (Interval.Ranged a)
  else Interval.__ge__ a (Interval.Ranged b).

Definition op_eq (a b : Interval.t) : bool :=
  if reflected_first a b then Interval.__eq__ b (Interval.Ranged a)
  else Interval.__eq__ a (Interval.Ranged b).

(* ================================================================== *)
(** ** [bisect.bisect_right] and [list.remove]                         *)
(* ================================================================== *)

(** The loop of [bisect_right(a, x)]:
    [while lo < hi: mid = (lo + hi) // 2;
       if x < a[mid]: hi = mid  else: lo = mid + 1].
    Each round shrinks [hi - lo], so [hi - lo] rounds of [fuel] are enough
    (lemma [bisect_loop_fuel]). *)
Fixpoint bisect_loop (fuel : nat) (a : list Interval.t) (x : Interval.t)
  (lo hi : nat) : nat :=
  match fuel with
  | O => lo
  | S fuel' =>
      if (lo <? hi)%nat then
        let mid := ((lo + hi) / 2)%nat in
        match nth_error a mid with
        | Some am =>
            if op_lt x am then bisect_loop fuel' a x lo mid
            else bisect_loop fuel' a x (mid + 1)%nat hi
        | None => lo
        end
      else lo
  end.

Definition bisect_right (a : list Interval.t) (x : Interval.t) : nat :=
  bisect_loop (length a) a x 0%nat (length a).

(** [l.remove(x)]: drops the first item with [item == x]; [None] when
    there is none (Python raises [ValueError]). *)
Fixpoint list_remove (x : Interval.t) (l : list Interval.t)
  : option (list Interval.t) :=
  match l with
  | [] => None
  | item :: rest =>
      if op_eq item x then Some rest
      else match list_remove x rest with
           | Some rest' => Some (item :: rest')
           | None => None
           end
  end.

(* ================================================================== *)
(** ** Tiers                                                           *)
(* ================================================================== *)

(** The base class [_Tier], over the type [E] of what it holds. *)
Module Tier.

Record t (E : Type) : Type := mk {
  _name : string;
  _start_time : Q;
  _end_time : Q;
  _objects : list E
}.
Arguments mk {E} _ _ _ _.
Arguments _name {E} _.
Arguments _start_time {E} _.
Arguments _end_time {E} _.
Arguments _objects {E} _.

Section Methods.
Context {E : Type}.

Definition __init__ (name : string) (start_time end_time : Q)
  : result (t E) :=
  if Qltb start_time 0 then Err ValueError
  else if Qltb end_time 0 then Err ValueError
  else Ok (mk name start_time end_time []).

Definition start_time (self : t E) : Q := _start_time self.
Definition end_time (self : t E) : Q := _end_time self.
Definition name (self : t E) : string := _name self.

Definition start_time_setter (other : Q) : M (t E) unit :=
  fun self =>
    if Qltb other 0 then Raise self ValueError
    else if Qltb (_end_time self) other then Raise self ValueError
    else Return (mk (_name self) other (_end_time self) (_objects self)) tt.

Definition end_time_setter (other : Q) : M (t E) unit :=
  fun self =>
    if Qltb other 0 then Raise self ValueError
    else if Qltb other (_start_time self) then Raise self ValueError
    else Return (mk (_name self) (_start_time self) other (_objects self)) tt.

Definition name_setter (other : string) : M (t E) unit :=
  fun self =>
    Return (mk other (_start_time self) (_end_time self) (_objects self)) tt.

Definition set_objects (objs : list E) : M (t E) unit :=
  fun self =>
    Return (mk (_name self) (_start_time self) (_end_time self) objs) tt.

Definition __len__ (self : t E) : nat := length (_objects self).

Definition bounds (self : t E) : Q * Q := (start_time self, end_time self).

End Methods.

End Tier.

(** [self[i].text = text]: the stored object is mutated in place. *)
Definition set_item_text (i : nat) (text : string)
  : M (Tier.t Interval.t) unit :=
  fun self =>
    Tier.set_objects
      (list_update i
         (fun o => Interval.mk (Interval.cls o) (Interval._start_time o)
                               (Interval._end_time o) text)
         (Tier._objects self)) self.

(** [a[-1]] of a list known to be non-empty, [None] otherwise. *)
Definition last_item (a : list Interval.t) : option Interval.t :=
  nth_error a (length a - 1).

Module PointTier.

Definition t : Type := Tier.t Interval.t.

(** [PointTier(name, start_time, end_time)]. *)
Definition new (name : string) (start_time end_time : Q) : result t :=
  Tier.__init__ name start_time end_time.

Definition add_point (point : Interval.t) (overwrite : bool) : M t unit :=
  self <- get ;;
  Tier.start_time_setter (py_min (Tier.start_time self) (Point.time point)) ;;;
  self <- get ;;
  Tier.end_time_setter (py_max (Tier.end_time self) (Point.time point)) ;;;
  self <- get ;;
  let objs := Tier._objects self in
  let i := bisect_right objs point in
  if (i <? length objs)%nat
     && match nth_error objs i with
        | Some o => Qeq_bool (Point.time o) (Point.time point)
        | None => false
        end
  then
    if overwrite then set_item_text i (Interval.text point) else ret tt
  else if (0 <? i)%nat && (i =? length objs)%nat
          && match last_item objs with
             | Some o => Qeq_bool (Point.time o) (Point.time point)
             | None => false
             end
  then
    if overwrite
    then set_item_text (length objs - 1) (Interval.text point)
    else ret tt
  else Tier.set_objects (list_insert i point objs).

Definition add (time : Q) (text : string) (overwrite : bool) : M t unit :=
  point <- lift (Point.new time text) ;;
  add_point point overwrite.

Definition remove_point (point : Interval.t) : M t unit :=
  self <- get ;;
  match list_remove point (Tier._objects self) with
  | Some objs => Tier.set_objects objs
  | None => raise ValueError
  end.

Definition remove (time : Q) (text : string) : M t unit :=
  point <- lift (Point.new time text) ;;
  remove_point point.

(** [PointTier.from_interval_tier(tier, name)]: a point at the start of
    each interval, with its text, and a point without text at its end,
    both added with [overwrite=True]. *)
Definition from_interval_tier (tier : Tier.t Interval.t) (name : string)
  : result t :=
  match new name 0 0 with
  | Err e => Err e
  | Ok pt =>
      match ((self <- get ;;
              if String.eqb (Tier.name self) ""
              then Tier.name_setter (Tier.name tier) else ret tt) ;;;
             for_each (Tier._objects tier) (fun interval =>
               add (Interval.start_time interval) (Interval.text interval)
                   true ;;;
               add (Interval.end_time interval) "" true)) pt with
      | Return pt' _ => Ok pt'
      | Raise _ e => Err e
      end
  end.

End PointTier.

Module IntervalTier.

Definition t : Type := Tier.t Interval.t.

(** [IntervalTier(name, start_time, end_time)]. *)
Definition new (name : string) (start_time end_time : Q) : result t :=
  Tier.__init__ name start_time end_time.

Definition add_interval (interval : Interval.t) (overwrite : bool)
  : M t unit :=
  self <- get ;;
  Tier.start_time_setter
    (py_min (Tier.start_time self) (Interval.start_time interval)) ;;;
  self <- get ;;
  Tier.end_time_setter
    (py_max (Tier.end_time self) (Interval.end_time interval)) ;;;
  self <- get ;;
  let objs := Tier._objects self in
  let i := bisect_right objs interval in
  if (i <? length objs)%nat
     && match nth_error objs i with
        | Some o => op_eq o interval
        | None => false
        end
  then
    if overwrite then set_item_text i (Interval.text interval) else ret tt
  else if (0 <? i)%nat && (i =? length objs)%nat
          && match last_item objs with
             | Some o => op_eq o interval
             | None => false
             end
  then
    if overwrite
    then set_item_text (length objs - 1) (Interval.text interval)
    else ret tt
  else Tier.set_objects (list_insert i interval objs).

Definition add (start_time end_time : Q) (text : string) (overwrite : bool)
  : M t unit :=
  interval <- lift (Interval.new start_time end_time text) ;;
  add_interval interval overwrite.

Definition remove_interval (interval : Interval.t) : M t unit :=
  self <- get ;;
  match list_remove interval (Tier._objects self) with
  | Some objs => Tier.set_objects objs
  | None => raise ValueError
  end.

Definition remove (start_time end_time : Q) (text : string) : M t unit :=
  interval <- lift (Interval.new start_time end_time text) ;;
  remove_interval interval.

(** The [for] loop of [_fill_in_the_gaps], carrying [prev_t] and
    [output]. *)
Fixpoint fill_loop (objs : list Interval.t) (prev_t : Q)
  (output : list Interval.t) : result (list Interval.t) :=
  match objs with
  | [] => Ok output
  | interval :: rest =>
      if Qltb prev_t (Interval.start_time interval) then
        match Interval.new prev_t (Interval.start_time interval) "" with
        | Ok gap =>
            fill_loop rest (Interval.end_time interval)
                      ((output ++ [gap]) ++ [interval])
        | Err e => Err e
        end
      else
        fill_loop rest (Interval.end_time interval) (output ++ [interval])
  end.

(** [_fill_in_the_gaps]: reads [self], returns a new list. *)
Definition _fill_in_the_gaps : M t (list Interval.t) :=
  self <- get ;;
  output <- lift (fill_loop (Tier._objects self) (Tier.start_time self) []) ;;
  match last_item output with
  | Some l =>
      if negb (length output =? 0)%nat
         && Qltb (Interval.end_time l) (Tier.end_time self)
      then
        trailing <- lift (Interval.new (Interval.end_time l)
                                       (Tier.end_time self) "") ;;
        ret (output ++ [trailing])
      else ret output
  | None => ret output
  end.

(** The loop shared by [from_points] and [from_point_tier]:
    [for i in range(1, len(points)):
       it.add(points[i - 1].time, points[i].time, points[i - 1].text)]. *)
Definition add_consecutive (points : list Interval.t) : M t unit :=
  for_each (seq 1 (length points - 1)) (fun i =>
    match nth_error points (i - 1), nth_error points i with
    | Some p, Some q =>
        add (Point.time p) (Point.time q) (Interval.text p) false
    | _, _ => raise IndexError
    end).

(** [IntervalTier.from_points(points, name)]. *)
Definition from_points (points : list Interval.t) (name : string)
  : result t :=
  match new name 0 0 with
  | Err e => Err e
  | Ok it =>
      match add_consecutive points it with
      | Return it' _ => Ok it'
      | Raise _ e => Err e
      end
  end.

(** [IntervalTier.from_point_tier(tier, name)]. *)
Definition from_point_tier (tier : Tier.t Interval.t) (name : string)
  : result t :=
  match new name 0 0 with
  | Err e => Err e
  | Ok it =>
      match ((self <- get ;;
              if String.eqb (Tier.name self) ""
              then Tier.name_setter (Tier.name tier) else ret tt) ;;;
             add_consecutive (Tier._objects tier)) it with
      | Return it' _ => Ok it'
      | Raise _ e => Err e
      end
  end.

End IntervalTier.

(* ================================================================== *)
(** ** The document container [TextGrid]                               *)
(* ================================================================== *)

(** What a [TextGrid] holds: an object of class [PointTier] or of class
    [IntervalTier]. *)
Inductive tier : Type :=
  | PointTier_obj (t : PointTier.t)
  | IntervalTier_obj (t : IntervalTier.t).

Definition tier_state (x : tier) : Tier.t Interval.t :=
  match x with PointTier_obj t => t | IntervalTier_obj t => t end.

Definition tier_with_state (x : tier) (s : Tier.t Interval.t) : tier :=
  match x with
  | PointTier_obj _ => PointTier_obj s
  | IntervalTier_obj _ => IntervalTier_obj s
  end.

(** [l[i]] for a Python int [i]: negative indices count from the end. *)
Definition py_getitem {A} (l : list A) (i : Z) : result A :=
  let n := Z.of_nat (length l) in
  let j := if (i <? 0)%Z then (i + n)%Z else i in
  if (j <? 0)%Z || (n <=? j)%Z then Err IndexError
  else match nth_error l (Z.to_nat j) with
       | Some x => Ok x
       | None => Err IndexError
       end.

(** Running a method on a local object and keeping the object. *)
Definition exec {S} (m : M S unit) (s : S) : result S :=
  match m s with
  | Return s' _ => Ok s'
  | Raise _ e => Err e
  end.

Definition rbind {A B} (r : result A) (k : A -> result B) : result B :=
  match r with Ok a => k a | Err e => Err e end.

Module TextGrid.

Definition t : Type := Tier.t tier.

(** [TextGrid(name, start_time, end_time)]. *)
Definition new (name : string) (start_time end_time : Q) : result t :=
  Tier.__init__ name start_time end_time.

(** The argument of [tg[i]]: a [str], an [int], or anything else. *)
Inductive key : Type :=
  | KStr (s : string)
  | KInt (i : Z)
  | KOther.

(** The [for] loop of [__getitem__] on a [str]: the first tier of that
    name; falling off the loop returns [result], which is [None]. *)
Fixpoint find_by_name (objs : list tier) (i : string) : option tier :=
  match objs with
  | [] => None
  | x :: rest =>
      if String.eqb (Tier.name (tier_state x)) i then Some x
      else find_by_name rest i
  end.

Definition __getitem__ (self : t) (i : key) : result (option tier) :=
  match i with
  | KStr s => Ok (find_by_name (Tier._objects self) s)
  | KInt z => rbind (py_getitem (Tier._objects self) z)
                    (fun x => Ok (Some x))
  | KOther => Err TypeError
  end.

(** The [for] loop of [index], counting from [i]. *)
Fixpoint index_from (i : nat) (objs : list tier) (name : string)
  : option nat :=
  match objs with
  | [] => None
  | x :: rest =>
      if String.eqb (Tier.name (tier_state x)) name then Some i
      else index_from (S i) rest name
  end.

Definition index (self : t) (name : string) : option nat :=
  index_from 0 (Tier._objects self) name.

(** [append(tier, name=None)]; with a [name] the tier is copied and the
    copy renamed. *)
Definition append (x : tier) (name : option string) : M t unit :=
  self <- get ;;
  Tier.start_time_setter
    (py_min (Tier.start_time self) (Tier.start_time (tier_state x))) ;;;
  self <- get ;;
  Tier.end_time_setter
    (py_max (Tier.end_time self) (Tier.end_time (tier_state x))) ;;;
  self <- get ;;
  let x' :=
    match name with
    | Some n =>
        let s := tier_state x in
        tier_with_state x
          (Tier.mk n (Tier._start_time s) (Tier._end_time s)
                   (Tier._objects s))
    | None => x
    end in
  Tier.set_objects (Tier._objects self ++ [x']).

(** The body of the loop of [extract_selected] for one tier: the tier
    that is appended to the extracted document.  The times are shifted
    by the subtraction of the language, [fsub], which rounds. *)
Definition extract_tier (fsub : Q -> Q -> Q) (target_interval : Interval.t)
  (start_time : Q) (x : tier) : result tier :=
  let items_to_add :=
    filter (fun i => Interval.__contains__ target_interval
                                           (Interval.Ranged i))
           (Tier._objects (tier_state x)) in
  match x with
  | PointTier_obj s =>
      rbind (PointTier.new (Tier.name s) 0 0) (fun extracted_tier =>
      rbind (exec (for_each items_to_add (fun item =>
                     PointTier.add (fsub (Point.time item) start_time)
                                   (Interval.text item) false))
                  extracted_tier)
            (fun extracted_tier => Ok (PointTier_obj extracted_tier)))
  | IntervalTier_obj s =>
      rbind (IntervalTier.new (Tier.name s) 0 0) (fun extracted_tier =>
      rbind (exec (for_each items_to_add (fun item =>
                     IntervalTier.add
                       (fsub (Interval.start_time item) start_time)
                       (fsub (Interval.end_time item) start_time)
                       (Interval.text item) false))
                  extracted_tier)
            (fun extracted_tier => Ok (IntervalTier_obj extracted_tier)))
  end.

(** [extract_selected(file, start_time, end_time, name)], from the
    document [tg] that [from_file(file)] has read. *)
Definition extract_selected (fsub : Q -> Q -> Q) (tg : t)
  (start_time end_time : Q) (name : string) : result t :=
  rbind (Interval.new start_time end_time "") (fun target_interval =>
  rbind (new name start_time (fsub end_time start_time))
        (fun extracted_tg =>
  exec (for_each (Tier._objects tg) (fun x =>
          extracted_tier <-
            lift (extract_tier fsub target_interval start_time x) ;;
          append extracted_tier None))
       extracted_tg)).

(** [value in tg]: some tier bears the name. *)
Definition __contains__ (self : t) (value : string) : bool :=
  existsb (fun x => String.eqb (Tier.name (tier_state x)) value)
          (Tier._objects self).

Definition get_tier_names (self : t) : list string :=
  map (fun x => Tier.name (tier_state x)) (Tier._objects self).

(** [del l[t]] for an index inside the list. *)
Definition del_at {A} (t : nat) (l : list A) : list A :=
  firstn t l ++ skipn (S t) l.

(** The indices [__delitem__] collects for a name, from the last tier
    down to the first. *)
Definition to_remove (objs : list tier) (i : string) : list nat :=
  filter (fun t => match nth_error objs t with
                   | Some x => String.eqb (Tier.name (tier_state x)) i
                   | None => false
                   end)
         (rev (seq 0 (length objs))).

(** [del tg[i]]: every tier of that name for a [str], the tier at that
    position for an [int]. *)
Definition __delitem__ (i : key) : M t unit :=
  fun self =>
    let objs := Tier._objects self in
    match i with
    | KStr s =>
        Tier.set_objects
          (fold_left (fun l t => del_at t l) (to_remove objs s) objs) self
    | KInt z =>
        let n := Z.of_nat (length objs) in
        let j := if (z <? 0)%Z then (z + n)%Z else z in
        if (j <? 0)%Z || (n <=? j)%Z then Raise self IndexError
        else Tier.set_objects (del_at (Z.to_nat j) objs) self
    | KOther => Raise self TypeError
    end.

(** [extend(tiers)]: [append] of each, in order. *)
Definition extend (tiers : list tier) : M t unit :=
  for_each tiers (fun x => append x None).

(** [insert(index, tier)] for a tier and an [int]: the two type tests of
    the method pass. *)
Definition insert (index : Z) (x : tier) : M t unit :=
  fun self =>
    if (index <? 0)%Z || (Z.of_nat (length (Tier._objects self)) <? index)%Z
    then Raise self IndexError
    else Tier.set_objects
           (list_insert (Z.to_nat index) x (Tier._objects self)) self.

End TextGrid.

(* ================================================================== *)
(** ** Text: the [str] methods the codecs use                          *)
(* ================================================================== *)

Module Str.

Open Scope string_scope.

Definition nl : string := String "010"%char "".
Definition tab : string := String "009"%char "".
Definition dquote : string := String "034"%char "".

(** [file.readline()] on a file opened in text mode, which reads with
    universal newlines: a line ends at a line feed, at a carriage return
    followed by a line feed, or at a lone carriage return, and each of
    the three is read as one line feed.  The result is the line with
    its line feed and what is left of the file; the empty string at end
    of file. *)
Fixpoint readline (source : string) : string * string :=
  match source with
  | "" => ("", "")
  | String c rest =>
      if Ascii.eqb c "010"%char then (nl, rest)
      else if Ascii.eqb c "013"%char then
        match rest with
        | String d rest' =>
            if Ascii.eqb d "010"%char then (nl, rest') else (nl, rest)
        | "" => (nl, rest)
        end
      else let '(line, rest') := readline rest in (String c line, rest')
  end.

(** The text holds no line break: no line feed and no carriage
    return. *)
Fixpoint no_newline (s : string) : bool :=
  match s with
  | "" => true
  | String c r =>
      negb (Ascii.eqb c "010"%char) && negb (Ascii.eqb c "013"%char)
      && no_newline r
  end.

Fixpoint drop (n : nat) (s : string) : string :=
  match n, s with
  | S n', String _ r => drop n' r
  | _, _ => s
  end.

(** [s.split(sep)[-1]]: separators are found from the left and do not
    overlap; [skip] counts the characters of a separator still to pass,
    [piece] is the text after the last separator found so far. *)
Fixpoint split_last_from (sep s : string) (skip : nat) (piece : string)
  : string :=
  match s with
  | "" => piece
  | String _ r =>
      match skip with
      | S k => split_last_from sep r k piece
      | O =>
          if prefix sep s
          then split_last_from sep r (String.length sep - 1)
                               (drop (String.length sep) s)
          else split_last_from sep r 0 piece
      end
  end.

Definition split_last (sep s : string) : string :=
  split_last_from sep s 0 s.

(** The characters [str.strip()] and [str.split()] take for white
    space, among those below U+0100: the ASCII ones, U+0085 and
    U+00A0. *)
Definition is_space (c : ascii) : bool :=
  let n := nat_of_ascii c in
  ((9 <=? n) && (n <=? 13) || (28 <=? n) && (n <=? 32)
   || (n =? 133) || (n =? 160))%nat.

Fixpoint lstrip_by (p : ascii -> bool) (s : string) : string :=
  match s with
  | "" => ""
  | String c r => if p c then lstrip_by p r else s
  end.

Fixpoint rstrip_by (p : ascii -> bool) (s : string) : string :=
  match s with
  | "" => ""
  | String c r =>
      match rstrip_by p r with
      | "" => if p c then "" else String c ""
      | r' => String c r'
      end
  end.

Definition strip (s : string) : string :=
  rstrip_by is_space (lstrip_by is_space s).

(** [s.strip(chars)] for a one-character [chars]. *)
Definition strip_char (c : ascii) (s : string) : string :=
  rstrip_by (Ascii.eqb c) (lstrip_by (Ascii.eqb c) s).

Definition digit_of (c : ascii) : option N :=
  let n := N_of_ascii c in
  if ((48 <=? n) && (n <=? 57))%N then Some (n - 48)%N else None.

(** A run of decimal digits: its value and its length. *)
Fixpoint digits (s : string) (acc : N) (len : nat) : option (N * nat) :=
  match s with
  | "" => Some (acc, len)
  | String c r =>
      match digit_of c with
      | Some d => digits r (acc * 10 + d)%N (S len)
      | None => None
      end
  end.

Fixpoint split_at_dot (s : string) : string * option string :=
  match s with
  | "" => ("", None)
  | String c r =>
      if Ascii.eqb c "."%char then ("", Some r)
      else let '(a, b) := split_at_dot r in (String c a, b)
  end.

Definition unsigned_decimal (s : string) : result Q :=
  let '(ip, fp) := split_at_dot s in
  match digits ip 0%N 0, fp with
  | Some (i, li), None =>
      if (li =? 0)%nat then Err ValueError else Ok (inject_Z (Z.of_N i))
  | Some (i, li), Some f =>
      match digits f 0%N 0 with
      | Some (fv, lf) =>
          if ((li =? 0) && (lf =? 0))%nat then Err ValueError
          else Ok (inject_Z (Z.of_N i)
                   + (Z.of_N fv # Pos.pow 10 (Pos.of_nat lf)))%Q
      | None => Err ValueError
      end
  | None, _ => Err ValueError
  end.

(** A reader of the decimal literals [[+-]digits[.digits]] with their
    exact value; any other text raises [ValueError].  This is not
    Python's [float], which the readers take as a parameter: it rounds
    to the nearest float and accepts more spellings.  On a literal whose
    value is a float, such as a small whole number or a multiple of 0.5,
    the two agree, and [decimal] stands for [float] in the examples. *)
Definition decimal (s : string) : result Q :=
  match strip s with
  | String "-"%char r => rbind (unsigned_decimal r) (fun q => Ok (- q)%Q)
  | String "+"%char r => unsigned_decimal r
  | r => unsigned_decimal r
  end.

(** [int(s)] on [[+-]digits]. *)
Definition int (s : string) : result Z :=
  let body (r : string) : result Z :=
    match digits r 0%N 0 with
    | Some (v, l) => if (l =? 0)%nat then Err ValueError else Ok (Z.of_N v)
    | None => Err ValueError
    end in
  match strip s with
  | String "-"%char r => rbind (body r) (fun z => Ok (- z)%Z)
  | String "+"%char r => body r
  | r => body r
  end.

(** How an f-string prints a Python [int] that is not negative. *)
Fixpoint decimal_digits (fuel : nat) (n : N) (acc : string) : string :=
  match fuel with
  | O => acc
  | S fuel' =>
      let acc' := String (ascii_of_N (48 + N.modulo n 10)) acc in
      if (n <? 10)%N then acc' else decimal_digits fuel' (n / 10)%N acc'
  end.

Definition str_of_nat (n : nat) : string :=
  decimal_digits (S n) (N.of_nat n) "".

(** [s.split()]: the runs of characters that are not white space, in
    their order; [cur] is the run being read. *)
Fixpoint words_from (s cur : string) : list string :=
  match s with
  | "" => match cur with "" => [] | _ => [cur] end
  | String c r =>
      if is_space c
      then match cur with
           | "" => words_from r ""
           | _ => cur :: words_from r ""
           end
      else words_from r (cur ++ String c "")
  end.

Definition split_ws (s : string) : list string := words_from s "".

(** [l[-1]]: [IndexError] on an empty list. *)
Definition last_of {A} (l : list A) : result A :=
  match nth_error l (length l - 1) with
  | Some x => Ok x
  | None => Err IndexError
  end.

End Str.

(* ================================================================== *)
(** ** [seg_name2id]                                                   *)
(* ================================================================== *)

(** [c.lower()] on ASCII. *)
Definition lower_char (c : ascii) : ascii :=
  let n := nat_of_ascii c in
  if ((65 <=? n) && (n <=? 90))%nat then ascii_of_nat (n + 32) else c.

Fixpoint lower (s : string) : string :=
  match s with
  | EmptyString => EmptyString
  | String c r => String (lower_char c) (lower r)
  end.

(** [s.find(c)] for one character, counting from [i]; [None] is [-1]. *)
Fixpoint find_char (c : ascii) (s : string) (i : nat) : option nat :=
  match s with
  | EmptyString => None
  | String d r => if Ascii.eqb d c then Some i else find_char c r (S i)
  end.

(** [seg_name2id(name)].  [name[0]] and [name[1]] raise [IndexError] on a
    name that is too short, [int] raises [ValueError]; [2 ** k] is a
    float for a negative [k], so the result is a number. *)
Definition seg_name2id (name : string) : result Q :=
  match lower name with
  | EmptyString => Err IndexError
  | String c0 rest =>
      match find_char c0 "gbry" 0 with
      | None => Ok 1
      | Some idx_a =>
          match rest with
          | EmptyString => Err IndexError
          | String c1 _ =>
              match Str.int (String c1 EmptyString) with
              | Err e => Err e
              | Ok pos =>
                  Ok (Qpower 2 ((Z.of_nat idx_a + 1) + (pos - 1) * 4 - 1))
              end
          end
      end
  end.

(* ================================================================== *)
(** ** The Praat tier codec of [PointTier]                             *)
(* ================================================================== *)

Module PointTierCodec.

Import Str.
Open Scope string_scope.

(** [source.readline().split(' = ')[-1].strip()]. *)
Definition field (line : string) : string := strip (split_last " = " line).

Section Codec.

(** How an f-string prints a time, [format(x, '')] of Python: the
    program inherits it from the language, so it is a parameter. *)
Variable float_str : Q -> string.

(** [float(s)] of Python, the number that a text spells or
    [ValueError]: inherited from the language too, and a parameter.  It
    rounds to the nearest float, so nothing is assumed of it but what a
    property states. *)
Variable float : string -> result Q.

(** The blocks [write] emits for the points, numbered from [i]. *)
Fixpoint write_points (i : nat) (objs : list Interval.t) : string :=
  match objs with
  | [] => ""
  | point :: rest =>
      "points [" ++ str_of_nat i ++ "]:" ++ nl
      ++ tab ++ "time = " ++ float_str (Point.time point) ++ nl
      ++ tab ++ "text = " ++ Interval.text point ++ nl
      ++ write_points (S i) rest
  end.

(** [PointTier.write(file, object_class)]: the text put in the file. *)
Definition write (self : PointTier.t) (object_class : string) : string :=
  "File type = " ++ dquote ++ "ooTextFile" ++ dquote ++ nl
  ++ "Object class = " ++ dquote ++ object_class ++ dquote ++ nl ++ nl
  ++ "Object class = " ++ dquote ++ "TextTier" ++ dquote ++ nl ++ nl
  ++ "xmin = " ++ float_str (Tier.start_time self) ++ nl
  ++ "xmax = " ++ float_str (Tier.end_time self) ++ nl
  ++ "points: size = " ++ str_of_nat (Tier.__len__ self) ++ nl
  ++ write_points 1 (Tier._objects self).

(** The second loop of [read]: [tier_size] blocks of three lines. *)
Fixpoint read_points (tier_size : nat) (source : string)
  : M PointTier.t unit :=
  match tier_size with
  | O => ret tt
  | S n =>
      let '(_, source) := readline source in
      let '(l_time, source) := readline source in
      time <- lift (float (field l_time)) ;;
      let '(l_text, source) := readline source in
      let text := strip_char "034"%char (field l_text) in
      PointTier.add time text false ;;;
      read_points n source
  end.

(** [PointTier.read(file)] on a file whose text is [source]. *)
Definition read (source : string) : M PointTier.t unit :=
  let '(_, source) := readline source in
  let '(_, source) := readline source in
  let '(_, source) := readline source in
  let '(l_xmin, source) := readline source in
  xmin <- lift (float (field l_xmin)) ;;
  Tier.start_time_setter xmin ;;;
  let '(l_xmax, source) := readline source in
  xmax <- lift (float (field l_xmax)) ;;
  Tier.end_time_setter xmax ;;;
  let '(l_size, source) := readline source in
  tier_size <- lift (int (field l_size)) ;;
  read_points (Z.to_nat tier_size) source.

(** [PointTier.from_file(file, name)]: a new tier with the default
    bounds [0 .. 0] reads the file. *)
Definition from_file (source : string) (name : string) : result PointTier.t :=
  match PointTier.new name 0 0 with
  | Err e => Err e
  | Ok pt =>
      match read source pt with
      | Return pt' _ => Ok pt'
      | Raise _ e => Err e
      end
  end.

End Codec.

End PointTierCodec.

(* ================================================================== *)
(** ** The Praat tier codec of [IntervalTier]                          *)
(* ================================================================== *)

Module IntervalTierCodec.

Import Str.
Open Scope string_scope.

Section Codec.

Variable float_str : Q -> string.
Variable float : string -> result Q.

(** The blocks [write] emits for the intervals, numbered from [i]. *)
Fixpoint write_intervals (i : nat) (output : list Interval.t) : string :=
  match output with
  | [] => ""
  | interval :: rest =>
      "intervals [" ++ str_of_nat i ++ "]:" ++ nl
      ++ tab ++ "xmin = " ++ float_str (Interval.start_time interval) ++ nl
      ++ tab ++ "xmax = " ++ float_str (Interval.end_time interval) ++ nl
      ++ tab ++ "text = " ++ Interval.text interval ++ nl
      ++ write_intervals (S i) rest
  end.

(** What [write] has put in the file before it calls
    [_fill_in_the_gaps]. *)
Definition header (self : IntervalTier.t) : string :=
  "File type = " ++ dquote ++ "ooTextFile" ++ dquote ++ nl
  ++ "Object class = " ++ dquote ++ "IntervalTier" ++ dquote ++ nl ++ nl
  ++ "xmin = " ++ float_str (Tier.start_time self) ++ nl
  ++ "xmax = " ++ float_str (Tier.end_time self) ++ nl.

(** [IntervalTier.write(file)]: the state is the text of the file, which
    [open(file, 'w')] empties; when [_fill_in_the_gaps] raises, the
    file is left with the header. *)
Definition write (self : IntervalTier.t) : outcome string unit :=
  match IntervalTier._fill_in_the_gaps self with
  | Return _ output =>
      Return (header self
              ++ "intervals: size = " ++ str_of_nat (length output) ++ nl
              ++ write_intervals 1 output) tt
  | Raise _ e => Raise (header self) e
  end.

(** The second loop of [read]: [tier_size] blocks of four lines. *)
Fixpoint read_intervals (tier_size : nat) (source : string)
  : M IntervalTier.t unit :=
  match tier_size with
  | O => ret tt
  | S n =>
      let '(_, source) := readline source in
      let '(l_start, source) := readline source in
      start_time <- lift (float (PointTierCodec.field l_start)) ;;
      let '(l_end, source) := readline source in
      end_time <- lift (float (PointTierCodec.field l_end)) ;;
      let '(l_text, source) := readline source in
      let text := strip_char "034"%char (PointTierCodec.field l_text) in
      IntervalTier.add start_time end_time text false ;;;
      read_intervals n source
  end.

(** [IntervalTier.read(file)] on a file whose text is [source]. *)
Definition read (source : string) : M IntervalTier.t unit :=
  let '(_, source) := readline source in
  let '(_, source) := readline source in
  let '(_, source) := readline source in
  let '(l_xmin, source) := readline source in
  xmin <- lift (float (PointTierCodec.field l_xmin)) ;;
  Tier.start_time_setter xmin ;;;
  let '(l_xmax, source) := readline source in
  xmax <- lift (float (PointTierCodec.field l_xmax)) ;;
  Tier.end_time_setter xmax ;;;
  let '(l_size, source) := readline source in
  tier_size <- lift (int (PointTierCodec.field l_size)) ;;
  read_intervals (Z.to_nat tier_size) source.

(** [IntervalTier.from_file(file, name)]. *)
Definition from_file (source : string) (name : string)
  : result IntervalTier.t :=
  match IntervalTier.new name 0 0 with
  | Err e => Err e
  | Ok it =>
      match read source it with
      | Return it' _ => Ok it'
      | Raise _ e => Err e
      end
  end.

End Codec.

End IntervalTierCodec.

(* ================================================================== *)
(** ** The Praat codec of [TextGrid]                                   *)
(* ================================================================== *)

Module TextGridCodec.

Import Str.
Open Scope string_scope.

Section Codec.

Variable float_str : Q -> string.
Variable float : string -> result Q.

(** The blocks [write] emits for the intervals of a tier, numbered from
    [j]; the text is put between double quotes. *)
Fixpoint write_intervals (j : nat) (output : list Interval.t) : string :=
  match output with
  | [] => ""
  | interval :: rest =>
      tab ++ tab ++ tab ++ "intervals [" ++ str_of_nat j ++ "]:" ++ nl
      ++ tab ++ tab ++ tab ++ tab ++ "xmin = "
      ++ float_str (Interval.start_time interval) ++ nl
      ++ tab ++ tab ++ tab ++ tab ++ "xmax = "
      ++ float_str (Interval.end_time interval) ++ nl
      ++ tab ++ tab ++ tab ++ tab ++ "text = "
      ++ dquote ++ Interval.text interval ++ dquote ++ nl
      ++ write_intervals (S j) rest
  end.

(** The blocks [write] emits for the points of a tier. *)
Fixpoint write_points (j : nat) (objs : list Interval.t) : string :=
  match objs with
  | [] => ""
  | point :: rest =>
      tab ++ tab ++ tab ++ "points [" ++ str_of_nat j ++ "]:" ++ nl
      ++ tab ++ tab ++ tab ++ tab ++ "time = "
      ++ float_str (Point.time point) ++ nl
      ++ tab ++ tab ++ tab ++ tab ++ "text = "
      ++ dquote ++ Interval.text point ++ dquote ++ nl
      ++ write_points (S j) rest
  end.

(** What the body of the loop of [write] puts in the file for the tier
    [x], the [i]th: all of it, or, when [_fill_in_the_gaps] raises, what
    was written before. *)
Definition write_tier (i : nat) (x : tier) : outcome string unit :=
  match x with
  | IntervalTier_obj tier =>
      let head :=
        tab ++ "item [" ++ str_of_nat i ++ "]:" ++ nl
        ++ tab ++ tab ++ "class = " ++ dquote ++ "IntervalTier" ++ dquote ++ nl
        ++ tab ++ tab ++ "name = " ++ dquote ++ Tier.name tier ++ dquote ++ nl
        ++ tab ++ tab ++ "xmin = " ++ float_str (Tier.start_time tier) ++ nl
        ++ tab ++ tab ++ "xmax = " ++ float_str (Tier.end_time tier) ++ nl in
      match IntervalTier._fill_in_the_gaps tier with
      | Return _ output =>
          Return (head
                  ++ tab ++ tab ++ "intervals: size = "
                  ++ str_of_nat (length output) ++ nl
                  ++ write_intervals 1 output) tt
      | Raise _ e => Raise head e
      end
  | PointTier_obj tier =>
      Return (tab ++ "item [" ++ str_of_nat i ++ "]:" ++ nl
              ++ tab ++ tab ++ "class = " ++ dquote ++ "TextTier" ++ dquote ++ nl
              ++ tab ++ tab ++ "name = " ++ dquote ++ Tier.name tier ++ dquote
              ++ nl
              ++ tab ++ tab ++ "xmin = " ++ float_str (Tier.start_time tier)
              ++ nl
              ++ tab ++ tab ++ "xmax = " ++ float_str (Tier.end_time tier)
              ++ nl
              ++ tab ++ tab ++ "points: size = "
              ++ str_of_nat (Tier.__len__ tier) ++ nl
              ++ write_points 1 (Tier._objects tier)) tt
  end.

(** The loop of [write] over the tiers, numbered from [i]. *)
Fixpoint write_tiers (i : nat) (tiers : list tier) : outcome string unit :=
  match tiers with
  | [] => Return "" tt
  | x :: rest =>
      match write_tier i x with
      | Return a _ =>
          match write_tiers (S i) rest with
          | Return b _ => Return (a ++ b) tt
          | Raise b e => Raise (a ++ b) e
          end
      | Raise a e => Raise a e
      end
  end.

(** What [write] puts in the file before the tiers. *)
Definition header (self : TextGrid.t) : string :=
  "File type = " ++ dquote ++ "ooTextFile" ++ dquote ++ nl
  ++ "Object class = " ++ dquote ++ "TextGrid" ++ dquote ++ nl ++ nl
  ++ "xmin = " ++ float_str (Tier.start_time self) ++ nl
  ++ "xmax = " ++ float_str (Tier.end_time self) ++ nl
  ++ "tiers? <exists>" ++ nl
  ++ "size = " ++ str_of_nat (Tier.__len__ self) ++ nl
  ++ "item []:" ++ nl.

(** [TextGrid.write(file)]: the state is the text of the file. *)
Definition write (self : TextGrid.t) : outcome string unit :=
  match write_tiers 1 (Tier._objects self) with
  | Return b _ => Return (header self ++ b) tt
  | Raise b e => Raise (header self ++ b) e
  end.

(** The loop of [read] over the intervals of a tier; it returns what is
    left of the file. *)
Fixpoint read_intervals (tier_size : nat) (source : string)
  : M IntervalTier.t string :=
  match tier_size with
  | O => ret source
  | S n =>
      let '(_, source) := readline source in
      let '(l_start, source) := readline source in
      start_time <- lift (float (PointTierCodec.field l_start)) ;;
      let '(l_end, source) := readline source in
      end_time <- lift (float (PointTierCodec.field l_end)) ;;
      let '(l_text, source) := readline source in
      let text := strip_char "034"%char (PointTierCodec.field l_text) in
      IntervalTier.add start_time end_time text false ;;;
      read_intervals n source
  end.

(** The loop of [read] over the points of a tier. *)
Fixpoint read_points (tier_size : nat) (source : string)
  : M PointTier.t string :=
  match tier_size with
  | O => ret source
  | S n =>
      let '(_, source) := readline source in
      let '(l_time, source) := readline source in
      time <- lift (float (PointTierCodec.field l_time)) ;;
      let '(l_text, source) := readline source in
      let text := strip_char "034"%char (PointTierCodec.field l_text) in
      PointTier.add time text false ;;;
      read_points n source
  end.

(** The body of the loop of [read] up to [self.append(tier)]: the tier
    that is read and what is left of the file. *)
Definition read_tier (source : string) : result (tier * string) :=
  let '(_, source) := readline source in
  let '(l_class, source) := readline source in
  if String.eqb (strip_char "034"%char (PointTierCodec.field l_class))
                "IntervalTier"
  then
    let '(l_name, source) := readline source in
    let tier_name := strip_char "034"%char (PointTierCodec.field l_name) in
    let '(l_xmin, source) := readline source in
    rbind (float (PointTierCodec.field l_xmin)) (fun start_time =>
    let '(l_xmax, source) := readline source in
    rbind (float (PointTierCodec.field l_xmax)) (fun end_time =>
    rbind (IntervalTier.new tier_name start_time end_time) (fun tier =>
    let '(l_size, source) := readline source in
    rbind (int (PointTierCodec.field l_size)) (fun tier_size =>
    match read_intervals (Z.to_nat tier_size) source tier with
    | Return tier source => Ok (IntervalTier_obj tier, source)
    | Raise _ e => Err e
    end))))
  else
    let '(l_name, source) := readline source in
    let tier_name := strip_char "034"%char (PointTierCodec.field l_name) in
    let '(l_xmin, source) := readline source in
    rbind (float (PointTierCodec.field l_xmin)) (fun start_time =>
    let '(l_xmax, source) := readline source in
    rbind (float (PointTierCodec.field l_xmax)) (fun end_time =>
    rbind (PointTier.new tier_name start_time end_time) (fun tier =>
    let '(l_size, source) := readline source in
    rbind (int (PointTierCodec.field l_size)) (fun tier_size =>
    match read_points (Z.to_nat tier_size) source tier with
    | Return tier source => Ok (PointTier_obj tier, source)
    | Raise _ e => Err e
    end)))).

(** The loop of [read] over the tiers. *)
Fixpoint read_tiers (n_tiers : nat) (source : string) : M TextGrid.t unit :=
  match n_tiers with
  | O => ret tt
  | S n =>
      match read_tier source with
      | Err e => raise e
      | Ok (tier, source) =>
          TextGrid.append tier None ;;;
          read_tiers n source
      end
  end.

(** [TextGrid.read(file)] on a file whose text is [source] and whose
    name without directory and suffix is [stem]. *)
Definition read (source stem : string) : M TextGrid.t unit :=
  (self <- get ;;
   if String.eqb (Tier.name self) "" then Tier.name_setter stem
   else ret tt) ;;;
  let '(_, source) := readline source in
  let '(_, source) := readline source in
  let '(_, source) := readline source in
  let '(l_xmin, source) := readline source in
  xmin <- lift (float (PointTierCodec.field l_xmin)) ;;
  Tier.start_time_setter xmin ;;;
  let '(l_xmax, source) := readline source in
  xmax <- lift (float (PointTierCodec.field l_xmax)) ;;
  Tier.end_time_setter xmax ;;;
  let '(_, source) := readline source in
  let '(l_size, source) := readline source in
  n_tiers <- lift (rbind (last_of (split_ws (strip l_size))) int) ;;
  let '(_, source) := readline source in
  read_tiers (Z.to_nat n_tiers) source.

(** [TextGrid.from_file(file, name)]. *)
Definition from_file (source stem name : string) : result TextGrid.t :=
  match TextGrid.new name 0 0 with
  | Err e => Err e
  | Ok tg =>
      match read source stem tg with
      | Return tg' _ => Ok tg'
      | Raise _ e => Err e
      end
  end.

End Codec.

End TextGridCodec.

(* ================================================================== *)
(** ** The vocabulary of the properties                                *)
(* ================================================================== *)

Close Scope string_scope.
Open Scope Q_scope.

(** Two ranged values have the same bounds. *)
Definition same_bounds (a b : Interval.t) : Prop :=
  Interval.start_time a == Interval.start_time b
  /\ Interval.end_time a == Interval.end_time b.

(** The bounds of a tier are in order and not negative. *)
Definition tier_wf {E} (self : Tier.t E) : Prop :=
  0 <= Tier.start_time self /\ Tier.start_time self <= Tier.end_time self.

(** The tier with its bounds widened to cover [lo .. hi]. *)
Definition widened {E} (self : Tier.t E) (lo hi : Q) : Tier.t E :=
  Tier.mk (Tier._name self) (py_min (Tier.start_time self) lo)
          (py_max (Tier.end_time self) hi) (Tier._objects self).

(** What [add_point] and [add_interval] do once the bounds are widened,
    over the test [same] each of them uses to recognise a stored element:
    the equality of times for points, [==] for intervals. *)
Definition place (same : Interval.t -> Interval.t -> bool) (x : Interval.t)
  (overwrite : bool) : M (Tier.t Interval.t) unit :=
  fun self =>
    let objs := Tier._objects self in
    let i := bisect_right objs x in
    if (i <? length objs)%nat
       && match nth_error objs i with
          | Some o => same o x
          | None => false
          end
    then
      if overwrite then set_item_text i (Interval.text x) self
      else Return self tt
    else if (0 <? i)%nat && (i =? length objs)%nat
            && match last_item objs with
               | Some o => same o x
               | None => false
               end
    then
      if overwrite
      then set_item_text (length objs - 1) (Interval.text x) self
      else Return self tt
    else Tier.set_objects (list_insert i x objs) self.

(** The test of [add_point]: [o.time == x.time]. *)
Definition same_time (o x : Interval.t) : bool :=
  Qeq_bool (Point.time o) (Point.time x).

(** [l] tiles [lo .. hi]: its first element starts at [lo], each element
    starts where the one before ends, and the last ends at [hi]. *)
Fixpoint tiles (lo hi : Q) (l : list Interval.t) : Prop :=
  match l with
  | [] => lo == hi
  | i :: r =>
      Interval.start_time i == lo
      /\ Interval.start_time i <= Interval.end_time i
      /\ tiles (Interval.end_time i) hi r
  end.

(** The stored intervals follow one another from [prev] on without
    overlap: each starts no earlier than the one before ends. *)
Fixpoint in_order (prev : Q) (objs : list Interval.t) : Prop :=
  match objs with
  | [] => True
  | i :: r =>
      prev <= Interval.start_time i
      /\ Interval.start_time i <= Interval.end_time i
      /\ in_order (Interval.end_time i) r
  end.

(** Where the cursor [prev_t] stands after the loop. *)
Fixpoint cursor (prev : Q) (objs : list Interval.t) : Q :=
  match objs with
  | [] => prev
  | i :: r => cursor (Interval.end_time i) r
  end.

(** [s] is [l] with some elements left out. *)
Fixpoint subseq (s l : list Interval.t) : Prop :=
  match s, l with
  | [], _ => True
  | _ :: _, [] => False
  | x :: s', y :: l' => (x = y /\ subseq s' l') \/ subseq s l'
  end.

(** An interval made by [_fill_in_the_gaps]: no text, a real extent. *)
Definition synthetic (o : Interval.t) : Prop :=
  Interval.text o = ""%string
  /\ Interval.cls o = Interval_cls
  /\ Interval.start_time o < Interval.end_time o.

(** [a] comes before [b] in time. *)
Definition time_lt (a b : Interval.t) : Prop := Point.time a < Point.time b.

(** The object [Point(time, text)] for a time that is not negative. *)
Definition mkpoint (p : Q * string) : Interval.t :=
  Interval.mk Point_cls (fst p) (fst p) (snd p).

(** [for (time, text) in pts: tier.add(time, text)]. *)
Definition add_all (pts : list (Q * string)) : M PointTier.t unit :=
  for_each pts (fun p => PointTier.add (fst p) (snd p) false).

(** The points are pairwise different and no two of them share a time. *)
Definition distinct_times (pts : list (Q * string)) : Prop :=
  NoDup pts
  /\ forall p q, In p pts -> In q pts -> fst p == fst q -> p = q.

(** A tier made by [extract_selected]: it starts at 0 and ends no later
    than [B]. *)
Definition within (B : Q) (self : Tier.t Interval.t) : Prop :=
  Tier.start_time self = 0
  /\ 0 <= Tier.end_time self /\ Tier.end_time self <= B.

(** The point that [extract_selected] makes of a stored point. *)
Definition shift_point (fsub : Q -> Q -> Q) (start_time : Q) (o : Interval.t)
  : Interval.t :=
  Interval.mk Point_cls (fsub (Point.time o) start_time)
              (fsub (Point.time o) start_time) (Interval.text o).

(** The interval that [extract_selected] makes of a stored interval. *)
Definition shift_interval (fsub : Q -> Q -> Q) (start_time : Q)
  (o : Interval.t) : Interval.t :=
  Interval.mk Interval_cls (fsub (Interval.start_time o) start_time)
              (fsub (Interval.end_time o) start_time) (Interval.text o).

(** [o] lies inside [start_time .. end_time], bounds included. *)
Definition contained (start_time end_time : Q) (o : Interval.t) : bool :=
  Qle_bool start_time (Interval.start_time o)
  && Qle_bool (Interval.end_time o) end_time.

(** [a] is stored before [b] in an interval tier: [a] starts before [b]
    ends, and the two differ in a bound. *)
Definition interval_before (a b : Interval.t) : Prop :=
  Interval.start_time a < Interval.end_time b /\ ~ same_bounds a b.

(** The elements of a tier are well formed and stored in order: points
    at strictly increasing times, intervals each before the later ones. *)
Definition tier_in_order (x : tier) : Prop :=
  Forall (fun o => Interval.start_time o <= Interval.end_time o)
         (Tier._objects (tier_state x))
  /\ match x with
     | PointTier_obj s => StronglySorted time_lt (Tier._objects s)
     | IntervalTier_obj s => StronglySorted interval_before (Tier._objects s)
     end.

(** [y] is the tier [extract_selected] makes of [x]: same class, same
    name, and the contained elements of [x], shifted, in their order. *)
Definition extracted (fsub : Q -> Q -> Q) (start_time end_time : Q)
  (x y : tier) : Prop :=
  match x, y with
  | PointTier_obj s, PointTier_obj s' =>
      Tier.name s' = Tier.name s
      /\ Tier._objects s'
         = map (shift_point fsub start_time)
               (filter (contained start_time end_time) (Tier._objects s))
  | IntervalTier_obj s, IntervalTier_obj s' =>
      Tier.name s' = Tier.name s
      /\ Tier._objects s'
         = map (shift_interval fsub start_time)
               (filter (contained start_time end_time) (Tier._objects s))
  | _, _ => False
  end.

(** The elements of the tier [x] that lie inside [start_time ..
    end_time] are well formed and, once shifted, still in order: points
    at strictly increasing times, intervals each before the later ones.
    A subtraction that is monotone keeps the order of the times except
    where it rounds two of them to the same value. *)
Definition kept_in_order (fsub : Q -> Q -> Q) (start_time end_time : Q)
  (x : tier) : Prop :=
  Forall (fun o => Interval.start_time o <= Interval.end_time o)
         (filter (contained start_time end_time)
                 (Tier._objects (tier_state x)))
  /\ match x with
     | PointTier_obj s =>
         StronglySorted time_lt
           (map (shift_point fsub start_time)
                (filter (contained start_time end_time) (Tier._objects s)))
     | IntervalTier_obj s =>
         StronglySorted interval_before
           (map (shift_interval fsub start_time)
                (filter (contained start_time end_time) (Tier._objects s)))
     end.


(** The stored object with its text replaced, as [self[i].text = text]
    leaves it. *)
Definition with_text (text : string) (o : Interval.t) : Interval.t :=
  Interval.mk (Interval.cls o) (Interval._start_time o)
              (Interval._end_time o) text.

(** The tier with other contents. *)
Definition with_objects {E} (self : Tier.t E) (objs : list E) : Tier.t E :=
  Tier.mk (Tier._name self) (Tier._start_time self) (Tier._end_time self)
          objs.

(** The intervals between consecutive points: each from a point to the
    next, with the text of the first of the two. *)
Fixpoint consecutive (points : list Interval.t) : list Interval.t :=
  match points with
  | [] => []
  | p :: rest =>
      match rest with
      | [] => []
      | q :: _ =>
          Interval.mk Interval_cls (Point.time p) (Point.time q)
                      (Interval.text p) :: consecutive rest
      end
  end.

(** The time of the last point, [d] when there is none. *)
Definition last_time (d : Q) (points : list Interval.t) : Q :=
  match last_item points with
  | Some p => Point.time p
  | None => d
  end.

(** The stored intervals follow one another from [prev] on without a
    gap: each is of class [Interval], has a positive duration and starts
    where the one before ends. *)
Fixpoint contiguous (prev : Q) (objs : list Interval.t) : Prop :=
  match objs with
  | [] => True
  | i :: r =>
      Interval.start_time i = prev
      /\ Interval.start_time i < Interval.end_time i
      /\ Interval.cls i = Interval_cls
      /\ contiguous (Interval.end_time i) r
  end.

(** The points at the ends of the intervals [i :: r], each with the text
    of the interval that starts there, the last without text. *)
Fixpoint ends_with_next (i : Interval.t) (r : list Interval.t)
  : list Interval.t :=
  match r with
  | [] => [Interval.mk Point_cls (Interval.end_time i) (Interval.end_time i) ""]
  | j :: r' =>
      Interval.mk Point_cls (Interval.end_time i) (Interval.end_time i)
                  (Interval.text j)
      :: ends_with_next j r'
  end.

(** The boundary points of a run of intervals without gaps. *)
Definition boundary_points (objs : list Interval.t) : list Interval.t :=
  match objs with
  | [] => []
  | i :: r =>
      Interval.mk Point_cls (Interval.start_time i) (Interval.start_time i)
                  (Interval.text i)
      :: ends_with_next i r
  end.

(** The name a tier made by [from_interval_tier] or [from_point_tier]
    gets: the one asked for, or the source's when none is asked for. *)
Definition derived_name (name source : string) : string :=
  if String.eqb name "" then source else name.

(** A run of intervals without gaps that starts at a time that is not
    negative. *)
Definition gapless (objs : list Interval.t) : Prop :=
  match objs with
  | [] => True
  | i :: _ =>
      0 <= Interval.start_time i /\ contiguous (Interval.start_time i) objs
  end.

(** The tier does not bear the name. *)
Definition other_name (name : string) (x : tier) : bool :=
  negb (String.eqb (Tier.name (tier_state x)) name).

(** The tier under another name, as [append(tier, name)] stores it. *)
Definition renamed (n : string) (x : tier) : tier :=
  tier_with_state x
    (Tier.mk n (Tier._start_time (tier_state x)) (Tier._end_time (tier_state x))
             (Tier._objects (tier_state x))).

(** [sep in s] for a separator that is not empty. *)
Fixpoint occurs (sep s : string) : bool :=
  match s with
  | EmptyString => false
  | String _ r => prefix sep s || occurs sep r
  end.

(** The text holds ASCII characters only. *)
Fixpoint seven_bit (s : string) : bool :=
  match s with
  | EmptyString => true
  | String c r => (nat_of_ascii c <? 128)%nat && seven_bit r
  end.

(** A text that a line [key = text] gives back when it is read: it is
    ASCII, holds no newline and no [" = "], and has no white space at
    either end. *)
Definition plain (w : string) : Prop :=
  seven_bit w = true
  /\ Str.no_newline w = true
  /\ occurs " = "%string w = false
  /\ Str.strip w = w.

(** The time [q] is printed as a plain text that [float] reads back as
    [q], as Python's [float] does of what it prints for a float. *)
Definition printable (float : string -> result Q) (float_str : Q -> string)
  (q : Q) : Prop :=
  plain (float_str q) /\ float (float_str q) = Ok q.

(** What the reader makes of a written interval: an object of class
    [Interval] with the same bounds and text. *)
Definition as_interval (o : Interval.t) : Interval.t :=
  Interval.mk Interval_cls (Interval.start_time o) (Interval.end_time o)
              (Interval.text o).

(** An interval that a tier file can hold: a positive duration, bounds
    that are printable, and a plain text without double quotes at its
    ends. *)
Definition writable (float : string -> result Q)
  (float_str : Q -> string) (o : Interval.t) : Prop :=
  Interval.start_time o < Interval.end_time o
  /\ printable float float_str (Interval.start_time o)
  /\ printable float float_str (Interval.end_time o)
  /\ plain (Interval.text o)
  /\ Str.strip_char "034"%char (Interval.text o) = Interval.text o.

(** A text that a line [key = "text"] gives back when it is read: it is
    ASCII, holds no newline and no [" = "], and has no double quote at
    either end. *)
Definition quotable (w : string) : Prop :=
  seven_bit w = true
  /\ Str.no_newline w = true
  /\ occurs " = "%string w = false
  /\ Str.strip_char "034"%char w = w.

(** What the reader makes of a written point. *)
Definition as_point (o : Interval.t) : Interval.t :=
  Interval.mk Point_cls (Point.time o) (Point.time o) (Interval.text o).

(** An interval that a tier of a document file can hold. *)
Definition grid_interval (float : string -> result Q)
  (float_str : Q -> string) (o : Interval.t) : Prop :=
  Interval.start_time o < Interval.end_time o
  /\ printable float float_str (Interval.start_time o)
  /\ printable float float_str (Interval.end_time o)
  /\ quotable (Interval.text o).

(** A point that a tier with the bounds [lo .. hi] of a document file
    can hold. *)
Definition grid_point (float : string -> result Q)
  (float_str : Q -> string) (lo hi : Q) (o : Interval.t)
  : Prop :=
  lo <= Point.time o /\ Point.time o <= hi
  /\ printable float float_str (Point.time o)
  /\ quotable (Interval.text o).

(** A tier that a document with the bounds [lo .. hi] can write and read
    back: its name can be quoted, its bounds are in order, printable and
    inside those of the document, and it holds intervals in order
    without overlap inside its bounds, or points at strictly increasing
    times inside its bounds. *)
Definition grid_tier (float : string -> result Q)
  (float_str : Q -> string) (lo hi : Q) (x : tier) : Prop :=
  quotable (Tier.name (tier_state x))
  /\ 0 <= Tier.start_time (tier_state x)
  /\ Tier.start_time (tier_state x) <= Tier.end_time (tier_state x)
  /\ lo <= Tier.start_time (tier_state x)
  /\ Tier.end_time (tier_state x) <= hi
  /\ printable float float_str (Tier.start_time (tier_state x))
  /\ printable float float_str (Tier.end_time (tier_state x))
  /\ match x with
     | IntervalTier_obj t =>
         in_order (Tier.start_time t) (Tier._objects t)
         /\ cursor (Tier.start_time t) (Tier._objects t) <= Tier.end_time t
         /\ Forall (grid_interval float float_str) (Tier._objects t)
     | PointTier_obj t =>
         StronglySorted time_lt (Tier._objects t)
         /\ Forall (grid_point float float_str (Tier.start_time t)
                               (Tier.end_time t))
                   (Tier._objects t)
     end.

(** The tier [y] is what is read back of the written tier [x]: the same
    class, name and bounds; the points as they were; the intervals with
    the gaps filled. *)
Definition reread (x y : tier) : Prop :=
  match x, y with
  | IntervalTier_obj t, IntervalTier_obj t' =>
      exists output : list Interval.t,
        IntervalTier._fill_in_the_gaps t = Return t output
        /\ t' = with_objects t (map as_interval output)
  | PointTier_obj t, PointTier_obj t' =>
      t' = with_objects t (map as_point (Tier._objects t))
  | _, _ => False
  end.

(** A point that the file of a point tier with the bounds [lo .. hi]
    can hold: its text is written without quotes. *)
Definition tier_point (float : string -> result Q)
  (float_str : Q -> string) (lo hi : Q) (o : Interval.t)
  : Prop :=
  lo <= Point.time o /\ Point.time o <= hi
  /\ printable float float_str (Point.time o)
  /\ plain (Interval.text o)
  /\ Str.strip_char "034"%char (Interval.text o) = Interval.text o.

(** [a] ends before [b] starts, or just when it starts. *)
Definition precedes (a b : Interval.t) : Prop :=
  Interval.end_time a <= Interval.start_time b.

(** The text is made of decimal digits only. *)
Fixpoint all_digits (s : string) : bool :=
  match s with
  | EmptyString => true
  | String c r =>
      match Str.digit_of c with
      | Some _ => all_digits r
      | None => false
      end
  end.

(* ================================================================== *)
(** * Properties                                                       *)
(* ================================================================== *)

(** ** Boolean comparisons on numbers *)

Lemma Qltb_true (a b : Q) : Qltb a b = true <-> a < b.
Proof.
  unfold Qltb. rewrite negb_true_iff.
  split; intro H.
  - apply Qnot_le_lt. intro L. apply Qle_bool_iff in L. congruence.
  - destruct (Qle_bool b a) eqn:E; [|reflexivity].
    apply Qle_bool_iff in E. exfalso. apply (Qlt_not_le _ _ H E).
Qed.

Lemma Qltb_false (a b : Q) : Qltb a b = false <-> b <= a.
Proof.
  unfold Qltb. rewrite negb_false_iff. apply Qle_bool_iff.
Qed.

Lemma Qle_bool_false (a b : Q) : Qle_bool a b = false <-> b < a.
Proof.
  rewrite <- Qltb_true. unfold Qltb. rewrite negb_true_iff. reflexivity.
Qed.

Lemma Qeq_bool_false (a b : Q) : Qeq_bool a b = false <-> ~ a == b.
Proof.
  split; intro H.
  - intro E. apply Qeq_bool_iff in E. congruence.
  - destruct (Qeq_bool a b) eqn:E; [|reflexivity].
    apply Qeq_bool_iff in E. contradiction.
Qed.

(** Turns every boolean comparison among the hypotheses and in the goal
    into the order statement it decides. *)
Ltac qprop :=
  repeat match goal with
  | H : Qltb _ _ = true |- _ => apply Qltb_true in H
  | H : Qltb _ _ = false |- _ => apply Qltb_false in H
  | H : Qle_bool _ _ = true |- _ => apply Qle_bool_iff in H
  | H : Qle_bool _ _ = false |- _ => apply Qle_bool_false in H
  | H : Qeq_bool _ _ = true |- _ => apply Qeq_bool_iff in H
  | H : Qeq_bool _ _ = false |- _ => apply Qeq_bool_false in H
  | |- Qltb _ _ = true => apply Qltb_true
  | |- Qltb _ _ = false => apply Qltb_false
  | |- Qle_bool _ _ = true => apply Qle_bool_iff
  | |- Qle_bool _ _ = false => apply Qle_bool_false
  | |- Qeq_bool _ _ = true => apply Qeq_bool_iff
  | |- Qeq_bool _ _ = false => apply Qeq_bool_false
  end.

(** Splits on one boolean comparison of the goal and names its meaning. *)
Ltac qcase c :=
  let E := fresh "E" in destruct c eqn:E; qprop.

Lemma py_min_spec (a b : Q) :
  (b < a /\ py_min a b = b) \/ (a <= b /\ py_min a b = a).
Proof.
  unfold py_min. qcase (Qltb b a); [left | right]; split; auto.
Qed.

Lemma py_max_spec (a b : Q) :
  (a < b /\ py_max a b = b) \/ (b <= a /\ py_max a b = a).
Proof.
  unfold py_max. qcase (Qltb a b); [left | right]; split; auto.
Qed.

(** ** Temporal primitives *)

Lemma Interval_init_ok (c : class) (s e : Q) (txt : string) :
  0 <= s -> s <= e ->
  Interval.__init__ c s e txt = Ok (Interval.mk c s e txt).
Proof.
  intros Hs He. unfold Interval.__init__.
  qcase (Qltb s 0); [lra|].
  qcase (Qltb e 0); [lra|].
  qcase (Qltb e s); [lra|]. reflexivity.
Qed.


(** The bound setters of [Interval] (which [Point] inherits) refuse a
    negative value and leave the object as it was. *)
Lemma Interval_setters_reject_negative (a : Interval.t) (v : Q) :
  v < 0 ->
  Interval.start_time_setter v a = Raise a ValueError
  /\ Interval.end_time_setter v a = Raise a ValueError.
Proof.
  intros Hv. unfold Interval.start_time_setter, Interval.end_time_setter.
  qcase (Qltb v 0); [split; reflexivity | lra].
Qed.

Lemma op_eq_bounds (a b : Interval.t) :
  op_eq a b = true <->
  Interval.start_time a == Interval.start_time b
  /\ Interval.end_time a == Interval.end_time b.
Proof.
  unfold op_eq, Interval.__eq__.
  destruct (reflected_first a b); rewrite andb_true_iff, !Qeq_bool_iff;
    intuition (auto using Qeq_sym).
Qed.

Lemma op_eq_false_bounds (a b : Interval.t) :
  op_eq a b = false <->
  ~ (Interval.start_time a == Interval.start_time b
     /\ Interval.end_time a == Interval.end_time b).
Proof.
  rewrite <- op_eq_bounds. destruct (op_eq a b); split; intro H;
    first [ congruence | exfalso; apply H; reflexivity ].
Qed.

(** ** Setting a bound to a negative value *)

(** C3, at the failing input: [p = Point(3, 'foo'); p.time = -1] returns
    without raising and leaves [p] with both bounds at [-1], where the
    claim asks for a [ValueError] and an unchanged object. *)
Theorem C3_point_time_setter_accepts_negative :
  exists p : Interval.t,
    Point.new 3 "foo" = Ok p
    /\ Point.time_setter (-1) p
       = Return (Interval.mk Point_cls (-1) (-1) "foo") tt
    /\ Point.time (Interval.mk Point_cls (-1) (-1) "foo") < 0.
Proof.
  exists (Interval.mk Point_cls 3 3 "foo").
  repeat split.
Qed.

(** The [time] setter never raises, whatever the value. *)
Lemma Point_time_setter_total (p : Interval.t) (v : Q) :
  Point.time_setter v p
  = Return (Interval.mk (Interval.cls p) v v (Interval._text p)) tt.
Proof. reflexivity. Qed.

(** ** The ordering relation *)

(** C6, as stated, fails on two points at the same time: [Point(4) <
    Point(4)] is false although [a.end_time <= b.start_time]; and on an
    interval against a point: [Interval(3, 5) <= Point(4)] is true
    although [a.end_time <= b.end_time] is not. *)
Lemma C6_counterexample :
  exists a b i : Interval.t,
    Point.new 4 "" = Ok a /\ Point.new 4 "" = Ok b
    /\ Interval.new 3 5 "" = Ok i
    /\ op_lt a b = false
    /\ Interval.end_time a <= Interval.start_time b
    /\ op_le i b = true
    /\ ~ Interval.end_time i <= Interval.end_time b.
Proof.
  exists (Interval.mk Point_cls 4 4 ""), (Interval.mk Point_cls 4 4 ""),
         (Interval.mk Interval_cls 3 5 "").
  repeat split; try reflexivity.
  - cbn. lra.
  - cbn. lra.
Qed.

(** C6, amended: equality is by both bounds for every pair of ranged
    values.  For two Intervals the four order operators are as the claim
    gives them.  With a Point on the left, [<] and [>] are strict on the
    point's time and [<=], [>=] are as the claim gives them.  With an
    Interval on the left and a Point on the right, Python runs the point's
    reflected method: [<] and [>] are strict, [a <= b] compares the start
    times and [a >= b] the end times. *)
Theorem C6_comparisons (a b : Interval.t) :
  (op_eq a b = true <->
   Interval.start_time a == Interval.start_time b
   /\ Interval.end_time a == Interval.end_time b)
  /\ match Interval.cls a, Interval.cls b with
     | Interval_cls, Interval_cls =>
         (op_lt a b = true <-> Interval.end_time a <= Interval.start_time b)
         /\ (op_gt a b = true <-> Interval.end_time b <= Interval.start_time a)
         /\ (op_le a b = true <-> Interval.end_time a <= Interval.end_time b)
         /\ (op_ge a b = true <-> Interval.start_time b <= Interval.start_time a)
     | Point_cls, _ =>
         (op_lt a b = true <-> Point.time a < Interval.start_time b)
         /\ (op_gt a b = true <-> Interval.end_time b < Point.time a)
         /\ (op_le a b = true <-> Interval.end_time a <= Interval.end_time b)
         /\ (op_ge a b = true <-> Interval.start_time b <= Interval.start_time a)
     | Interval_cls, Point_cls =>
         (op_lt a b = true <-> Interval.end_time a < Point.time b)
         /\ (op_gt a b = true <-> Point.time b < Interval.start_time a)
         /\ (op_le a b = true <-> Interval.start_time a <= Interval.start_time b)
         /\ (op_ge a b = true <-> Interval.end_time b <= Interval.end_time a)
     end.
Proof.
  split; [apply op_eq_bounds|].
  unfold op_lt, op_gt, op_le, op_ge, reflected_first, method_lt, method_gt.
  destruct (Interval.cls a), (Interval.cls b); cbn;
    rewrite ?Qle_bool_iff, ?Qltb_true; tauto.
Qed.

(** ** Overlap *)




(** ** Addressing the tiers of a document *)

Lemma find_by_name_absent (objs : list tier) (name : string) :
  (forall x, In x objs -> Tier.name (tier_state x) <> name) ->
  TextGrid.find_by_name objs name = None.
Proof.
  induction objs as [|x rest IH]; intros H; cbn; [reflexivity|].
  destruct (String.eqb_spec (Tier.name (tier_state x)) name) as [E|_].
  - exfalso. apply (H x); [left; reflexivity | exact E].
  - apply IH. intros y Hy. apply H. right. exact Hy.
Qed.

Lemma index_from_absent (objs : list tier) (name : string) (i : nat) :
  (forall x, In x objs -> Tier.name (tier_state x) <> name) ->
  TextGrid.index_from i objs name = None.
Proof.
  revert i. induction objs as [|x rest IH]; intros i H; cbn; [reflexivity|].
  destruct (String.eqb_spec (Tier.name (tier_state x)) name) as [E|_].
  - exfalso. apply (H x); [left; reflexivity | exact E].
  - apply IH. intros y Hy. apply H. right. exact Hy.
Qed.

Lemma py_getitem_index_error {A} (l : list A) (i : Z) :
  py_getitem l i = Err IndexError <->
  (i < - Z.of_nat (length l) \/ Z.of_nat (length l) <= i)%Z.
Proof.
  unfold py_getitem.
  set (n := Z.of_nat (length l)).
  assert (Hn : (0 <= n)%Z) by (unfold n; lia).
  destruct (Z.ltb_spec i 0) as [Hi|Hi].
  - destruct (Z.ltb_spec (i + n) 0) as [Hj|Hj]; cbn.
    + split; [lia | reflexivity].
    + destruct (Z.leb_spec n (i + n)) as [Hk|Hk]; [lia|].
      destruct (nth_error l (Z.to_nat (i + n))) eqn:E.
      * split; [discriminate | lia].
      * apply nth_error_None in E. unfold n in *. lia.
  - destruct (Z.ltb_spec i 0) as [Hj|Hj]; [lia|]. cbn.
    destruct (Z.leb_spec n i) as [Hk|Hk].
    + split; [lia | reflexivity].
    + destruct (nth_error l (Z.to_nat i)) eqn:E.
      * split; [discriminate | lia].
      * apply nth_error_None in E. unfold n in *. lia.
Qed.

(** C10: a name that no tier of the document bears makes [tg[name]] and
    [tg.index(name)] return [None]; [tg[k]] raises [IndexError] exactly
    when [k] is an int outside [-len(tg) .. len(tg) - 1]. *)
Theorem C10_getitem_unknown_name (tg : TextGrid.t) (name : string)
  (Hname : forall x, In x (Tier._objects tg) ->
                     Tier.name (tier_state x) <> name) :
  TextGrid.__getitem__ tg (TextGrid.KStr name) = Ok None
  /\ TextGrid.index tg name = None
  /\ forall k : TextGrid.key,
       TextGrid.__getitem__ tg k = Err IndexError <->
       exists i : Z,
         k = TextGrid.KInt i
         /\ (i < - Z.of_nat (Tier.__len__ tg)
             \/ Z.of_nat (Tier.__len__ tg) <= i)%Z.
Proof.
  split; [|split].
  - cbn. rewrite find_by_name_absent by exact Hname. reflexivity.
  - unfold TextGrid.index. apply index_from_absent. exact Hname.
  - intros k. unfold Tier.__len__. destruct k as [s|i|]; cbn.
    + split; [discriminate | intros [i [E _]]; discriminate].
    + pose proof (py_getitem_index_error (Tier._objects tg) i) as P.
      destruct (py_getitem (Tier._objects tg) i) as [x|e] eqn:E; cbn.
      * split; [discriminate|]. intros [j [Ej Hj]]. injection Ej as <-.
        apply P in Hj. discriminate.
      * split.
        -- intros Ee. exists i. split; [reflexivity|]. apply P. congruence.
        -- intros [j [Ej Hj]]. injection Ej as <-. apply P in Hj. congruence.
    + split; [discriminate | intros [i [E _]]; discriminate].
Qed.

Lemma C10_getitem_unknown_name_witness :
  TextGrid.__getitem__
    (Tier.mk "doc" 0 0 [PointTier_obj (Tier.mk "words" 0 0 [])])
    (TextGrid.KStr "phones") = Ok None.
Proof.
  refine (proj1 (C10_getitem_unknown_name
                   (Tier.mk "doc" 0 0 [PointTier_obj (Tier.mk "words" 0 0 [])])
                   "phones" _)).
  intros x [<-|[]]. cbn. discriminate.
Defined.

(** ** Removal *)

Lemma list_remove_none (probe : Interval.t) (l : list Interval.t) :
  (forall x, In x l -> op_eq x probe = false) -> list_remove probe l = None.
Proof.
  induction l as [|y r IH]; intros H; cbn; [reflexivity|].
  rewrite (H y) by (left; reflexivity).
  rewrite IH; [reflexivity|]. intros x Hx. apply H. right. exact Hx.
Qed.

Lemma list_remove_first (probe x : Interval.t) (l1 l2 : list Interval.t) :
  (forall y, In y l1 -> op_eq y probe = false) ->
  op_eq x probe = true ->
  list_remove probe (l1 ++ x :: l2) = Some (l1 ++ l2).
Proof.
  induction l1 as [|y r IH]; intros H Hx; cbn.
  - rewrite Hx. reflexivity.
  - rewrite (H y) by (left; reflexivity).
    rewrite IH; [reflexivity | | exact Hx].
    intros z Hz. apply H. right. exact Hz.
Qed.

(** [remove] is [remove_point], or [remove_interval], of the probe it
    constructs. *)
Lemma PointTier_remove_constructed (self : PointTier.t) (time : Q)
  (text : string) (probe : Interval.t) :
  Point.new time text = Ok probe ->
  PointTier.remove time text self = PointTier.remove_point probe self.
Proof.
  intros H. unfold PointTier.remove, bind, lift. rewrite H. reflexivity.
Qed.

Lemma IntervalTier_remove_constructed (self : IntervalTier.t) (s e : Q)
  (text : string) (probe : Interval.t) :
  Interval.new s e text = Ok probe ->
  IntervalTier.remove s e text self
  = IntervalTier.remove_interval probe self.
Proof.
  intros H. unfold IntervalTier.remove, bind, lift. rewrite H. reflexivity.
Qed.

(** C9: [remove_point] and [remove_interval] of a probe, and [remove]
    of the arguments from which [Point] or [Interval] constructs that
    probe, raise [ValueError] and leave the tier as it was when no stored
    element has the bounds of the probe; otherwise they drop the first
    stored element that has them and touch nothing else.  When the
    probe cannot be constructed, an argument being negative, [remove]
    raises [ValueError] and leaves the tier as it was. *)
Theorem C9_remove (self : Tier.t Interval.t) (probe : Interval.t) :
  ((forall x, In x (Tier._objects self) -> ~ same_bounds x probe) ->
   PointTier.remove_point probe self = Raise self ValueError
   /\ IntervalTier.remove_interval probe self = Raise self ValueError
   /\ (forall (time : Q) (text : string),
         Point.new time text = Ok probe ->
         PointTier.remove time text self = Raise self ValueError)
   /\ (forall (s e : Q) (text : string),
         Interval.new s e text = Ok probe ->
         IntervalTier.remove s e text self = Raise self ValueError))
  /\ (forall (l1 l2 : list Interval.t) (x : Interval.t),
        Tier._objects self = l1 ++ x :: l2 ->
        (forall y, In y l1 -> ~ same_bounds y probe) ->
        same_bounds x probe ->
        PointTier.remove_point probe self
        = Return (Tier.mk (Tier._name self) (Tier._start_time self)
                          (Tier._end_time self) (l1 ++ l2)) tt
        /\ IntervalTier.remove_interval probe self
           = Return (Tier.mk (Tier._name self) (Tier._start_time self)
                             (Tier._end_time self) (l1 ++ l2)) tt
        /\ (forall (time : Q) (text : string),
              Point.new time text = Ok probe ->
              PointTier.remove time text self
              = Return (Tier.mk (Tier._name self) (Tier._start_time self)
                                (Tier._end_time self) (l1 ++ l2)) tt)
        /\ (forall (s e : Q) (text : string),
              Interval.new s e text = Ok probe ->
              IntervalTier.remove s e text self
              = Return (Tier.mk (Tier._name self) (Tier._start_time self)
                                (Tier._end_time self) (l1 ++ l2)) tt))
  /\ (forall (time : Q) (text : string),
        time < 0 ->
        PointTier.remove time text self = Raise self ValueError)
  /\ (forall (s e : Q) (text : string),
        s < 0 \/ e < 0 ->
        IntervalTier.remove s e text self = Raise self ValueError).
Proof.
  assert (Hnone : (forall x, In x (Tier._objects self) ->
                             ~ same_bounds x probe) ->
                  PointTier.remove_point probe self = Raise self ValueError
                  /\ IntervalTier.remove_interval probe self
                     = Raise self ValueError).
  { intros H.
    unfold PointTier.remove_point, IntervalTier.remove_interval, bind, get.
    rewrite list_remove_none; [split; reflexivity|].
    intros x Hx. apply op_eq_false_bounds. apply H. exact Hx. }
  assert (Hfound : forall l1 l2 x,
             Tier._objects self = l1 ++ x :: l2 ->
             (forall y, In y l1 -> ~ same_bounds y probe) ->
             same_bounds x probe ->
             PointTier.remove_point probe self
             = Return (Tier.mk (Tier._name self) (Tier._start_time self)
                               (Tier._end_time self) (l1 ++ l2)) tt
             /\ IntervalTier.remove_interval probe self
                = Return (Tier.mk (Tier._name self) (Tier._start_time self)
                                  (Tier._end_time self) (l1 ++ l2)) tt).
  { intros l1 l2 x E H1 Hx.
    unfold PointTier.remove_point, IntervalTier.remove_interval, bind, get.
    rewrite E.
    rewrite (list_remove_first probe x l1 l2); [split; reflexivity | | ].
    - intros y Hy. apply op_eq_false_bounds. apply H1. exact Hy.
    - apply op_eq_bounds. exact Hx. }
  split; [|split; [|split]].
  - intros H. destruct (Hnone H) as [P I].
    split; [exact P|]. split; [exact I|]. split.
    + intros time text C.
      rewrite (PointTier_remove_constructed self time text probe C). exact P.
    + intros s e text C.
      rewrite (IntervalTier_remove_constructed self s e text probe C).
      exact I.
  - intros l1 l2 x E H1 Hx. destruct (Hfound l1 l2 x E H1 Hx) as [P I].
    split; [exact P|]. split; [exact I|]. split.
    + intros time text C.
      rewrite (PointTier_remove_constructed self time text probe C). exact P.
    + intros s e text C.
      rewrite (IntervalTier_remove_constructed self s e text probe C).
      exact I.
  - intros time text H.
    unfold PointTier.remove, Point.new, Interval.__init__, bind, lift.
    qcase (Qltb time 0); [reflexivity | lra].
  - intros s e text H.
    unfold IntervalTier.remove, Interval.new, Interval.__init__, bind, lift.
    qcase (Qltb s 0); [reflexivity|].
    qcase (Qltb e 0); [reflexivity | lra].
Qed.

(** [remove(time, text)] builds the probe [Point(time, text)] first. *)
Lemma PointTier_remove_probe (self : PointTier.t) (time : Q) (text : string) :
  0 <= time ->
  PointTier.remove time text self
  = PointTier.remove_point (Interval.mk Point_cls time time text) self.
Proof.
  intros H. unfold PointTier.remove, Point.new, bind, lift.
  rewrite Interval_init_ok by lra. reflexivity.
Qed.

Lemma IntervalTier_remove_probe (self : IntervalTier.t) (s e : Q)
  (text : string) :
  0 <= s -> s <= e ->
  IntervalTier.remove s e text self
  = IntervalTier.remove_interval (Interval.mk Interval_cls s e text) self.
Proof.
  intros Hs He. unfold IntervalTier.remove, Interval.new, bind, lift.
  rewrite Interval_init_ok by lra. reflexivity.
Qed.

Lemma C9_remove_witness :
  PointTier.remove 2 ""
    (Tier.mk "t" 0 3 [Interval.mk Point_cls 1 1 "a";
                      Interval.mk Point_cls 3 3 "b"])
  = Raise (Tier.mk "t" 0 3 [Interval.mk Point_cls 1 1 "a";
                            Interval.mk Point_cls 3 3 "b"]) ValueError
  /\ PointTier.remove 3 ""
       (Tier.mk "t" 0 3 [Interval.mk Point_cls 1 1 "a";
                         Interval.mk Point_cls 3 3 "b"])
     = Return (Tier.mk "t" 0 3 [Interval.mk Point_cls 1 1 "a"]) tt.
Proof.
  split.
  - refine (proj1 (proj2 (proj2
              (proj1 (C9_remove _ (Interval.mk Point_cls 2 2 "")) _)))
              2 ""%string eq_refl).
    intros x [<-|[<-|[]]] [H _]; cbn in H; lra.
  - refine (proj1 (proj2 (proj2
              (proj1 (proj2 (C9_remove
                               (Tier.mk "t" 0 3
                                  [Interval.mk Point_cls 1 1 "a";
                                   Interval.mk Point_cls 3 3 "b"])
                               (Interval.mk Point_cls 3 3 "")))
                 [Interval.mk Point_cls 1 1 "a"] []
                 (Interval.mk Point_cls 3 3 "b") eq_refl _ _)))
              3 ""%string eq_refl).
    + intros x [<-|[]] [H _]. cbn in H. lra.
    + split; reflexivity.
Defined.

(** ** The Praat tier codec of [PointTier] *)

Lemma readline_app (l r : string) :
  Str.no_newline l = true ->
  Str.readline (l ++ r)
  = ((l ++ fst (Str.readline r))%string, snd (Str.readline r)).
Proof.
  induction l as [|c l IH]; cbn; intros H.
  - destruct (Str.readline r); reflexivity.
  - apply andb_true_iff in H. destruct H as [Hc Hl].
    apply andb_true_iff in Hc. destruct Hc as [Hc1 Hc2].
    apply negb_true_iff in Hc1, Hc2. rewrite Hc1, Hc2, (IH Hl).
    reflexivity.
Qed.

Lemma readline_line (l r : string) :
  Str.no_newline l = true ->
  Str.readline (l ++ Str.nl ++ r) = ((l ++ Str.nl)%string, r).
Proof.
  intros H. rewrite (readline_app l _ H). reflexivity.
Qed.

Lemma str_app_assoc (a b c : string) :
  ((a ++ b) ++ c)%string = (a ++ (b ++ c))%string.
Proof.
  induction a as [|x a IH]; cbn; [reflexivity | rewrite IH; reflexivity].
Qed.

Lemma no_newline_app (a b : string) :
  Str.no_newline (a ++ b) = Str.no_newline a && Str.no_newline b.
Proof.
  induction a as [|x a IH]; cbn; [reflexivity|].
  rewrite IH. apply andb_assoc.
Qed.

(** [read] skips three lines and takes [xmin] from the fourth: when that
    line is not a number, [read] raises before it has touched the tier. *)
Lemma read_fourth_line (float : string -> result Q)
  (l1 l2 l3 l4 rest : string) (t0 : PointTier.t) :
  Str.no_newline l1 = true -> Str.no_newline l2 = true ->
  Str.no_newline l3 = true -> Str.no_newline l4 = true ->
  float (PointTierCodec.field (l4 ++ Str.nl)) = Err ValueError ->
  PointTierCodec.read float
    (l1 ++ Str.nl ++ l2 ++ Str.nl ++ l3 ++ Str.nl ++ l4 ++ Str.nl ++ rest) t0
  = Raise t0 ValueError.
Proof.
  intros H1 H2 H3 H4 Hf. unfold PointTierCodec.read.
  rewrite (readline_line l1 _ H1), (readline_line l2 _ H2),
    (readline_line l3 _ H3), (readline_line l4 _ H4).
  cbv beta iota. unfold bind at 1. unfold lift. rewrite Hf. reflexivity.
Qed.

(** C4, on the code: whatever the tier, the text [write] produces cannot
    be read back.  [write] emits two [Object class] lines, each followed
    by an empty line, so the fourth line of the file, where [read] expects
    [xmin], is the second [Object class] line, whose field is the text
    [TextTier] between double quotes; [float] raises [ValueError] on it,
    as Python's does, and the tier that reads is left as it was.  This
    holds for every way of printing a time and every [object_class]
    without a line break (neither a line feed nor a carriage return),
    the default [TextTier] among them. *)
Theorem C4_write_then_read_raises (float : string -> result Q)
  (float_str : Q -> string) (self t0 : PointTier.t) (object_class : string)
  (Hfloat : float (Str.dquote ++ "TextTier" ++ Str.dquote)%string
            = Err ValueError)
  (Hoc : Str.no_newline object_class = true) :
  PointTierCodec.read float
    (PointTierCodec.write float_str self object_class) t0
  = Raise t0 ValueError.
Proof.
  unfold PointTierCodec.write.
  set (l1 := ("File type = " ++ Str.dquote ++ "ooTextFile" ++ Str.dquote)%string).
  set (l2 := ("Object class = " ++ Str.dquote ++ object_class ++ Str.dquote)%string).
  set (l4 := ("Object class = " ++ Str.dquote ++ "TextTier" ++ Str.dquote)%string).
  match goal with
  | |- PointTierCodec.read float ?w _ = _ =>
      match w with
      | context [("xmin = " ++ ?r)%string] =>
          replace w
            with (l1 ++ Str.nl ++ l2 ++ Str.nl ++ "" ++ Str.nl
                  ++ l4 ++ Str.nl ++ Str.nl ++ "xmin = " ++ r)%string
      end
  end.
  - apply read_fourth_line; try reflexivity.
    + unfold l2. rewrite !no_newline_app, Hoc. reflexivity.
    + exact Hfloat.
  - unfold l1, l2, l4. rewrite !str_app_assoc. reflexivity.
Qed.

Lemma C4_write_then_read_raises_witness :
  PointTierCodec.read Str.decimal
    (PointTierCodec.write (fun _ => "1.0"%string)
       (Tier.mk "t" 0 1 [Interval.mk Point_cls 1 1 "a"]) "TextTier")
    (Tier.mk "t" 0 0 [])
  = Raise (Tier.mk "t" 0 0 []) ValueError.
Proof.
  apply C4_write_then_read_raises; reflexivity.
Defined.

(** ** Adding an element whose time or bounds are already stored *)

(** C1, at the failing input.  A point tier holds [(1, a)] and [(2, b)],
    built by [add] from an empty tier.  [add(1, 'x')] finds position 1 by
    [bisect_right], looks for the time 1 at position 1 (where 2 is stored)
    and, since position 1 is not the end, nowhere else: the point is
    inserted and the tier has three points, with [overwrite] false and
    with [overwrite] true, and the text of [(1, a)] is never replaced.
    The same happens in an interval tier that holds [(1, 2, a)] and
    [(3, 4, b)] on [add(1, 2, 'x')]. *)
Theorem C1_duplicate_inserted_before_last :
  let P := Interval.mk Point_cls in
  let I := Interval.mk Interval_cls in
  let pt := Tier.mk "t" 0 2 [P 1 1 "a"%string; P 2 2 "b"%string] in
  let it := Tier.mk "t" 0 4 [I 1 2 "a"%string; I 3 4 "b"%string] in
  exec (PointTier.add 1 "a" false ;;; PointTier.add 2 "b" false)
       (Tier.mk "t" 0 0 []) = Ok pt
  /\ PointTier.add 1 "x" false pt
     = Return (Tier.mk "t" 0 2 [P 1 1 "a"%string; P 1 1 "x"%string; P 2 2 "b"%string]) tt
  /\ PointTier.add 1 "x" true pt
     = Return (Tier.mk "t" 0 2 [P 1 1 "a"%string; P 1 1 "x"%string; P 2 2 "b"%string]) tt
  /\ exec (IntervalTier.add 1 2 "a" false ;;; IntervalTier.add 3 4 "b" false)
          (Tier.mk "t" 0 0 []) = Ok it
  /\ IntervalTier.add 1 2 "x" false it
     = Return (Tier.mk "t" 0 4 [I 1 2 "a"%string; I 1 2 "x"%string; I 3 4 "b"%string]) tt
  /\ IntervalTier.add 1 2 "x" true it
     = Return (Tier.mk "t" 0 4 [I 1 2 "a"%string; I 1 2 "x"%string; I 3 4 "b"%string]) tt.
Proof.
  cbv zeta. repeat split; vm_compute; reflexivity.
Qed.

(** ** Binary search *)

Lemma half_between (lo hi : nat) :
  (lo < hi -> lo <= (lo + hi) / 2 /\ (lo + hi) / 2 < hi)%nat.
Proof.
  intros H.
  pose proof (Nat.div_mod_eq (lo + hi) 2) as D.
  pose proof (Nat.mod_upper_bound (lo + hi) 2) as U.
  lia.
Qed.

Lemma bisect_loop_S (a : list Interval.t) (x : Interval.t)
  (fuel lo hi : nat) :
  bisect_loop (S fuel) a x lo hi
  = if (lo <? hi)%nat then
      match nth_error a ((lo + hi) / 2) with
      | Some am =>
          if op_lt x am then bisect_loop fuel a x lo ((lo + hi) / 2)
          else bisect_loop fuel a x ((lo + hi) / 2 + 1) hi
      | None => lo
      end
    else lo.
Proof. reflexivity. Qed.

(** The loop does not depend on the fuel once there is enough of it: the
    search always ends. *)
Lemma bisect_loop_fuel (a : list Interval.t) (x : Interval.t)
  (f1 f2 lo hi : nat) :
  (hi - lo <= f1 -> hi - lo <= f2 ->
   bisect_loop f1 a x lo hi = bisect_loop f2 a x lo hi)%nat.
Proof.
  revert f2 lo hi.
  induction f1 as [|f1 IH]; intros f2 lo hi H1 H2.
  - destruct f2 as [|f2]; [reflexivity|].
    rewrite bisect_loop_S.
    destruct (Nat.ltb_spec lo hi); [lia | reflexivity].
  - destruct f2 as [|f2]; rewrite !bisect_loop_S.
    + destruct (Nat.ltb_spec lo hi); [lia | reflexivity].
    + destruct (Nat.ltb_spec lo hi) as [L|L]; [|reflexivity].
      destruct (half_between lo hi L) as [M1 M2].
      destruct (nth_error a ((lo + hi) / 2)) as [am|]; [|reflexivity].
      destruct (op_lt x am); apply IH; lia.
Qed.

(** On a list split in two, where [x < e] fails for every [e] of the
    first part and holds for every [e] of the second, the search returns
    the length of the first part. *)
Lemma bisect_loop_partition (l1 l2 : list Interval.t) (x : Interval.t)
  (fuel lo hi : nat) :
  Forall (fun e => op_lt x e = false) l1 ->
  Forall (fun e => op_lt x e = true) l2 ->
  (lo <= length l1 -> length l1 <= hi -> hi <= length (l1 ++ l2) ->
   hi - lo <= fuel ->
   bisect_loop fuel (l1 ++ l2) x lo hi = length l1)%nat.
Proof.
  intros F1 F2. revert lo hi.
  induction fuel as [|fuel IH]; intros lo hi Hlo Hhi Hlen Hfuel.
  - cbn. lia.
  - rewrite bisect_loop_S.
    destruct (Nat.ltb_spec lo hi) as [L|L]; [|lia].
    destruct (half_between lo hi L) as [M1 M2].
    set (mid := ((lo + hi) / 2)%nat) in *.
    destruct (nth_error (l1 ++ l2) mid) as [am|] eqn:E.
    + destruct (Nat.lt_ge_cases mid (length l1)) as [C|C].
      * rewrite nth_error_app1 in E by exact C.
        rewrite Forall_forall in F1.
        rewrite (F1 am (nth_error_In _ _ E)). apply IH; lia.
      * rewrite nth_error_app2 in E by exact C.
        rewrite Forall_forall in F2.
        rewrite (F2 am (nth_error_In _ _ E)). apply IH; lia.
    + apply nth_error_None in E. lia.
Qed.

Lemma bisect_right_partition (l1 l2 : list Interval.t) (x : Interval.t) :
  Forall (fun e => op_lt x e = false) l1 ->
  Forall (fun e => op_lt x e = true) l2 ->
  bisect_right (l1 ++ l2) x = length l1.
Proof.
  intros F1 F2. unfold bisect_right.
  apply bisect_loop_partition; auto; rewrite ?length_app; lia.
Qed.

Lemma bisect_right_end (a : list Interval.t) (x : Interval.t) :
  Forall (fun e => op_lt x e = false) a ->
  bisect_right a x = length a.
Proof.
  intros F. rewrite <- (app_nil_r a) at 1.
  apply bisect_right_partition; [exact F | constructor].
Qed.

(** ** Adding to a tier *)

Lemma start_time_setter_ok {E} (self : Tier.t E) (v : Q) :
  0 <= v -> v <= Tier.end_time self ->
  Tier.start_time_setter v self
  = Return (Tier.mk (Tier._name self) v (Tier._end_time self)
                    (Tier._objects self)) tt.
Proof.
  intros H0 H1. unfold Tier.start_time_setter, Tier.end_time in *.
  qcase (Qltb v 0); [lra|].
  qcase (Qltb (Tier._end_time self) v); [lra | reflexivity].
Qed.

Lemma end_time_setter_ok {E} (self : Tier.t E) (v : Q) :
  0 <= v -> Tier.start_time self <= v ->
  Tier.end_time_setter v self
  = Return (Tier.mk (Tier._name self) (Tier._start_time self) v
                    (Tier._objects self)) tt.
Proof.
  intros H0 H1. unfold Tier.end_time_setter, Tier.start_time in *.
  qcase (Qltb v 0); [lra|].
  qcase (Qltb v (Tier._start_time self)); [lra | reflexivity].
Qed.

Lemma widened_wf {E} (self : Tier.t E) (lo hi : Q) :
  tier_wf self -> 0 <= lo -> tier_wf (widened self lo hi).
Proof.
  unfold tier_wf, widened, Tier.start_time, Tier.end_time. cbn.
  intros [H0 H1] Hlo.
  destruct (py_min_spec (Tier._start_time self) lo) as [[? ->]|[? ->]];
  destruct (py_max_spec (Tier._end_time self) hi) as [[? ->]|[? ->]];
  split; lra.
Qed.

Lemma add_point_place (self : PointTier.t) (point : Interval.t)
  (overwrite : bool) :
  tier_wf self -> 0 <= Point.time point ->
  PointTier.add_point point overwrite self
  = place same_time point overwrite
          (widened self (Point.time point) (Point.time point)).
Proof.
  intros [H0 H1] Ht. unfold PointTier.add_point, bind, get.
  unfold Tier.start_time, Tier.end_time in *.
  rewrite start_time_setter_ok; cycle 1.
  { destruct (py_min_spec (Tier._start_time self) (Point.time point))
      as [[? ->]|[? ->]]; lra. }
  { unfold Tier.end_time.
    destruct (py_min_spec (Tier._start_time self) (Point.time point))
      as [[? ->]|[? ->]]; lra. }
  rewrite end_time_setter_ok; cycle 1.
  { cbn. destruct (py_max_spec (Tier._end_time self) (Point.time point))
      as [[? ->]|[? ->]]; lra. }
  { unfold Tier.start_time. cbn.
    destruct (py_min_spec (Tier._start_time self) (Point.time point))
      as [[? ->]|[? ->]];
    destruct (py_max_spec (Tier._end_time self) (Point.time point))
      as [[? ->]|[? ->]]; lra. }
  unfold place, same_time, widened, ret, Tier.start_time, Tier.end_time.
  cbn [Tier._objects Tier._name Tier._start_time Tier._end_time].
  repeat match goal with
         | |- context [if ?c then _ else _] => destruct c
         end; reflexivity.
Qed.

Lemma add_interval_place (self : IntervalTier.t) (interval : Interval.t)
  (overwrite : bool) :
  tier_wf self ->
  0 <= Interval.start_time interval ->
  Interval.start_time interval <= Interval.end_time interval ->
  IntervalTier.add_interval interval overwrite self
  = place op_eq interval overwrite
          (widened self (Interval.start_time interval)
                   (Interval.end_time interval)).
Proof.
  intros [H0 H1] Hs He. unfold IntervalTier.add_interval, bind, get.
  unfold Tier.start_time, Tier.end_time in *.
  rewrite start_time_setter_ok; cycle 1.
  { destruct (py_min_spec (Tier._start_time self)
                          (Interval.start_time interval))
      as [[? ->]|[? ->]]; lra. }
  { unfold Tier.end_time.
    destruct (py_min_spec (Tier._start_time self)
                          (Interval.start_time interval))
      as [[? ->]|[? ->]]; lra. }
  rewrite end_time_setter_ok; cycle 1.
  { cbn. destruct (py_max_spec (Tier._end_time self)
                               (Interval.end_time interval))
      as [[? ->]|[? ->]]; lra. }
  { unfold Tier.start_time. cbn.
    destruct (py_min_spec (Tier._start_time self)
                          (Interval.start_time interval))
      as [[? ->]|[? ->]];
    destruct (py_max_spec (Tier._end_time self)
                          (Interval.end_time interval))
      as [[? ->]|[? ->]]; lra. }
  unfold place, same_time, widened, ret, Tier.start_time, Tier.end_time.
  cbn [Tier._objects Tier._name Tier._start_time Tier._end_time].
  repeat match goal with
         | |- context [if ?c then _ else _] => destruct c
         end; reflexivity.
Qed.

Lemma list_insert_app {A} (l1 l2 : list A) (x : A) :
  list_insert (length l1) x (l1 ++ l2) = l1 ++ x :: l2.
Proof.
  unfold list_insert.
  rewrite firstn_app, Nat.sub_diag, firstn_all, firstn_O, app_nil_r.
  rewrite skipn_app, Nat.sub_diag, skipn_all. reflexivity.
Qed.

Lemma list_update_app {A} (l1 : list A) (e : A) (l2 : list A) (f : A -> A) :
  list_update (length l1) f (l1 ++ e :: l2) = l1 ++ f e :: l2.
Proof.
  induction l1 as [|y l1 IH]; cbn; [reflexivity | rewrite IH; reflexivity].
Qed.

Lemma last_item_snoc (l : list Interval.t) (e : Interval.t) :
  last_item (l ++ [e]) = Some e.
Proof.
  unfold last_item. rewrite length_app. cbn.
  replace (length l + 1 - 1)%nat with (length l) by lia.
  rewrite nth_error_app2 by lia. rewrite Nat.sub_diag. reflexivity.
Qed.

Lemma last_item_In (l : list Interval.t) (e : Interval.t) :
  last_item l = Some e -> In e l.
Proof. unfold last_item. apply nth_error_In. Qed.

(** An element that belongs between [l1] and [l2], and that no stored
    element matches, is inserted there. *)
Lemma place_insert (same : Interval.t -> Interval.t -> bool)
  (x : Interval.t) (overwrite : bool) (self : Tier.t Interval.t)
  (l1 l2 : list Interval.t) :
  Tier._objects self = l1 ++ l2 ->
  Forall (fun e => op_lt x e = false) l1 ->
  Forall (fun e => op_lt x e = true) l2 ->
  Forall (fun o => same o x = false) (l1 ++ l2) ->
  place same x overwrite self
  = Return (Tier.mk (Tier._name self) (Tier._start_time self)
                    (Tier._end_time self) (l1 ++ x :: l2)) tt.
Proof.
  intros E F1 F2 Fs. unfold place. rewrite E.
  rewrite (bisect_right_partition l1 l2 x F1 F2).
  rewrite Forall_forall in Fs.
  destruct l2 as [|e l2].
  - rewrite app_nil_r in *. rewrite Nat.ltb_irrefl. cbn [andb].
    replace ((0 <? length l1)%nat && (length l1 =? length l1)%nat
             && match last_item l1 with
                | Some o => same o x
                | None => false
                end) with false.
    + unfold Tier.set_objects.
      pose proof (list_insert_app l1 [] x) as P.
      rewrite app_nil_r in P. rewrite P. reflexivity.
    + symmetry. apply andb_false_iff. right.
      destruct (last_item l1) as [o|] eqn:L; [|reflexivity].
      apply Fs. apply last_item_In. exact L.
  - rewrite nth_error_app2 by lia. rewrite Nat.sub_diag. cbn [nth_error].
    rewrite (Fs e) by (apply in_or_app; right; left; reflexivity).
    rewrite andb_false_r.
    replace (length l1 =? length (l1 ++ e :: l2))%nat with false.
    + rewrite andb_false_r. cbn [andb]. unfold Tier.set_objects.
      rewrite list_insert_app. reflexivity.
    + symmetry. apply Nat.eqb_neq. rewrite length_app. cbn. lia.
Qed.

(** An element that belongs at the end and that the last stored element
    matches is not inserted: the tier is left as it is, or the text of its
    last element is replaced. *)
Lemma place_last_duplicate (same : Interval.t -> Interval.t -> bool)
  (x : Interval.t) (self : Tier.t Interval.t)
  (l1 : list Interval.t) (e : Interval.t) :
  Tier._objects self = l1 ++ [e] ->
  Forall (fun o => op_lt x o = false) (l1 ++ [e]) ->
  same e x = true ->
  place same x false self = Return self tt
  /\ place same x true self
     = Return (Tier.mk (Tier._name self) (Tier._start_time self)
                 (Tier._end_time self)
                 (l1 ++ [Interval.mk (Interval.cls e) (Interval._start_time e)
                                     (Interval._end_time e) (Interval.text x)]))
              tt.
Proof.
  intros E F Hs. unfold place. rewrite E.
  rewrite (bisect_right_end _ x F), Nat.ltb_irrefl. cbn [andb].
  rewrite last_item_snoc, Hs, Nat.eqb_refl.
  replace (0 <? length (l1 ++ [e]))%nat with true
    by (symmetry; apply Nat.ltb_lt; rewrite length_app; cbn; lia).
  cbn [andb]. split; [reflexivity|].
  unfold set_item_text, Tier.set_objects. rewrite E.
  replace (length (l1 ++ [e]) - 1)%nat with (length l1)
    by (rewrite length_app; cbn; lia).
  rewrite list_update_app. reflexivity.
Qed.

(** What C1 says does hold when the stored point of the same time is the
    last of a tier whose points are in time order. *)
Lemma add_point_duplicate_of_last (self : PointTier.t) (l1 : list Interval.t)
  (e point : Interval.t) :
  tier_wf self -> 0 <= Point.time point ->
  Tier._objects self = l1 ++ [e] ->
  Forall (fun o => op_lt point o = false) (l1 ++ [e]) ->
  Point.time e == Point.time point ->
  (exists self', PointTier.add_point point false self = Return self' tt
                 /\ Tier._objects self' = l1 ++ [e])
  /\ (exists self', PointTier.add_point point true self = Return self' tt
                    /\ Tier._objects self'
                       = l1 ++ [Interval.mk (Interval.cls e)
                                  (Interval._start_time e)
                                  (Interval._end_time e)
                                  (Interval.text point)]).
Proof.
  intros Hwf Ht E F Hs.
  rewrite !add_point_place by assumption.
  destruct (place_last_duplicate same_time point
              (widened self (Point.time point) (Point.time point)) l1 e)
    as [P1 P2]; try assumption.
  { unfold same_time. qprop. exact Hs. }
  rewrite P1, P2. split; eexists; split; try reflexivity. exact E.
Qed.

(** ** Gap filling *)

Lemma tiles_compat (l : list Interval.t) (lo lo' hi hi' : Q) :
  lo == lo' -> hi == hi' -> tiles lo hi l -> tiles lo' hi' l.
Proof.
  revert lo lo'. induction l as [|i r IH]; cbn; intros lo lo' El Eh H.
  - lra.
  - destruct H as [H1 [H2 H3]]. repeat split; try lra.
    apply (IH (Interval.end_time i)); [reflexivity | exact Eh | exact H3].
Qed.

Lemma tiles_app (l1 l2 : list Interval.t) (lo mid hi : Q) :
  tiles lo mid l1 -> tiles mid hi l2 -> tiles lo hi (l1 ++ l2).
Proof.
  revert lo. induction l1 as [|i r IH]; cbn; intros lo H1 H2.
  - apply (tiles_compat l2 mid lo hi hi); [lra | reflexivity | exact H2].
  - destruct H1 as [A [B C]]. repeat split; auto.
Qed.

Lemma subseq_refl_cons (s l : list Interval.t) (y : Interval.t) :
  subseq s l -> subseq s (y :: l).
Proof. destruct s; cbn; auto. Qed.

Lemma Forall_or_In_cons (i : Interval.t) (r ext : list Interval.t) :
  Forall (fun o => In o r \/ synthetic o) ext ->
  Forall (fun o => In o (i :: r) \/ synthetic o) ext.
Proof.
  apply Forall_impl. intros o [H|H]; [left; right; exact H | right; exact H].
Qed.

(** The loop of [_fill_in_the_gaps] on intervals in order: it returns,
    and what it adds to [output] tiles the stretch from [prev_t] to the
    end of the last interval, keeps the stored intervals in order, and
    holds besides them only intervals it has made. *)
Lemma fill_loop_in_order (objs : list Interval.t) :
  forall prev : Q,
    0 <= prev -> in_order prev objs ->
    exists ext : list Interval.t,
      (forall output, IntervalTier.fill_loop objs prev output
                      = Ok (output ++ ext))
      /\ tiles prev (cursor prev objs) ext
      /\ subseq objs ext
      /\ Forall (fun o => In o objs \/ synthetic o) ext
      /\ (objs <> [] ->
          exists ext0 l, ext = ext0 ++ [l]
                         /\ Interval.end_time l = cursor prev objs).
Proof.
  induction objs as [|i r IH]; intros prev Hp Ho.
  - exists []. cbn. split; [|split; [|split; [|split]]].
    + intros output. rewrite app_nil_r. reflexivity.
    + apply Qeq_refl.
    + exact I.
    + constructor.
    + intros H. contradiction.
  - destruct Ho as [H1 [H2 H3]].
    destruct (IH (Interval.end_time i)) as [ext [L [T [S [F La]]]]];
      [lra | exact H3 |].
    assert (Hlast : forall pre : list Interval.t,
               exists ext0 l, pre ++ i :: ext = ext0 ++ [l]
                              /\ Interval.end_time l
                                 = cursor (Interval.end_time i) r).
    { intros pre. destruct r as [|i' r'].
      - assert (ext = []) as ->.
        { specialize (L []). cbn in L. injection L as L. auto. }
        exists pre, i. split; reflexivity.
      - destruct La as [ext0 [l [E1 E2]]]; [discriminate|].
        exists (pre ++ i :: ext0), l. rewrite E1. split; [|exact E2].
        rewrite <- app_assoc. reflexivity. }
    cbn [IntervalTier.fill_loop cursor].
    qcase (Qltb prev (Interval.start_time i)).
    + unfold Interval.new. rewrite Interval_init_ok by lra.
      exists (Interval.mk Interval_cls prev (Interval.start_time i) ""
              :: i :: ext).
      split; [|split; [|split; [|split]]].
      * intros output. rewrite L, <- !app_assoc. reflexivity.
      * cbn. repeat split; try lra. exact T.
      * cbn [subseq]. right. left. split; [reflexivity | exact S].
      * constructor; [right; repeat split; exact E|].
        constructor; [left; left; reflexivity|].
        apply Forall_or_In_cons. exact F.
      * intros _. apply (Hlast [_]).
    + exists (i :: ext).
      split; [|split; [|split; [|split]]].
      * intros output. rewrite L, <- !app_assoc. reflexivity.
      * cbn. repeat split; try lra. exact T.
      * cbn [subseq]. left. split; [reflexivity | exact S].
      * constructor; [left; left; reflexivity|].
        apply Forall_or_In_cons. exact F.
      * intros _. apply (Hlast []).
Qed.

Lemma fill_in_the_gaps_empty (self : IntervalTier.t) :
  Tier._objects self = [] ->
  IntervalTier._fill_in_the_gaps self = Return self [].
Proof.
  intros E. unfold IntervalTier._fill_in_the_gaps, bind, get, lift.
  rewrite E. reflexivity.
Qed.

(** C7, as stated, fails on a tier that holds no interval: the result is
    the empty list, which covers nothing of [0 .. 5]; and on a tier whose
    intervals overlap ([add(0, 10)] then [add(1, 2)]), where the result
    [(0, 10), (1, 2), (2, 10)] covers [1 .. 10] twice. *)
Lemma C7_counterexample :
  exists self self2 : IntervalTier.t,
    IntervalTier.new "t" 0 5 = Ok self
    /\ IntervalTier._fill_in_the_gaps self = Return self []
    /\ ~ tiles (Tier.start_time self) (Tier.end_time self) []
    /\ exec (IntervalTier.add 0 10 "a" false ;;; IntervalTier.add 1 2 "b" false)
            (Tier.mk "t" 0 0 []) = Ok self2
    /\ IntervalTier._fill_in_the_gaps self2
       = Return self2 [Interval.mk Interval_cls 0 10 "a";
                       Interval.mk Interval_cls 1 2 "b";
                       Interval.mk Interval_cls 2 10 ""]
    /\ ~ tiles (Tier.start_time self2) (Tier.end_time self2)
               [Interval.mk Interval_cls 0 10 "a";
                Interval.mk Interval_cls 1 2 "b";
                Interval.mk Interval_cls 2 10 ""].
Proof.
  exists (Tier.mk "t" 0 5 []),
         (Tier.mk "t" 0 10 [Interval.mk Interval_cls 0 10 "a";
                            Interval.mk Interval_cls 1 2 "b"]).
  split; [reflexivity|]. split; [reflexivity|]. split.
  { cbn. intros H. lra. }
  split; [vm_compute; reflexivity|]. split; [vm_compute; reflexivity|].
  cbn. intros [_ [_ [H _]]]. lra.
Qed.

Lemma cursor_nonneg (objs : list Interval.t) :
  forall prev : Q, 0 <= prev -> in_order prev objs -> 0 <= cursor prev objs.
Proof.
  induction objs as [|i r IH]; cbn; intros prev Hp Ho.
  - exact Hp.
  - destruct Ho as [A [B C]]. apply IH; [lra | exact C].
Qed.

Lemma subseq_app_r (s l l' : list Interval.t) :
  subseq s l -> subseq s (l ++ l').
Proof.
  revert s. induction l as [|y l IH]; intros s; destruct s; cbn; auto.
  - intros _. destruct l'; exact I.
  - intros [].
  - intros [[-> H]|H]; [left; split; auto | right; apply (IH (_ :: _) H)].
Qed.

(** C7, amended: for every IntervalTier that holds at least one interval,
    whose start is not negative and whose intervals are stored in order
    without overlap inside its bounds, [_fill_in_the_gaps] returns a list
    that tiles [start_time .. end_time]; the list keeps the stored
    intervals in their order, every other element of it is an empty-text
    interval of positive duration, and the tier is left as it was. *)
Theorem C7_fill_in_the_gaps (self : IntervalTier.t)
  (Hne : Tier._objects self <> [])
  (Hstart : 0 <= Tier.start_time self)
  (Horder : in_order (Tier.start_time self) (Tier._objects self))
  (Hend : cursor (Tier.start_time self) (Tier._objects self)
          <= Tier.end_time self) :
  exists output : list Interval.t,
    IntervalTier._fill_in_the_gaps self = Return self output
    /\ tiles (Tier.start_time self) (Tier.end_time self) output
    /\ subseq (Tier._objects self) output
    /\ Forall (fun o => In o (Tier._objects self) \/ synthetic o) output.
Proof.
  destruct (fill_loop_in_order _ _ Hstart Horder)
    as [ext [L [T [S [F La]]]]].
  destruct (La Hne) as [ext0 [l [E1 E2]]]. subst ext.
  unfold IntervalTier._fill_in_the_gaps, bind, get, lift.
  rewrite (L []). cbn [app]. rewrite last_item_snoc.
  replace (negb (length (ext0 ++ [l]) =? 0)%nat) with true
    by (rewrite length_app; cbn;
        destruct (Nat.eqb_spec (length ext0 + 1) 0); [lia | reflexivity]).
  cbn [andb].
  qcase (Qltb (Interval.end_time l) (Tier.end_time self)).
  - assert (Hl : 0 <= Interval.end_time l).
    { rewrite E2. apply cursor_nonneg; assumption. }
    unfold Interval.new. rewrite Interval_init_ok by lra.
    eexists. split; [reflexivity|]. split; [|split].
    + apply (tiles_app _ _ _ (Interval.end_time l)).
      * rewrite E2. exact T.
      * cbn. repeat split; lra.
    + apply subseq_app_r. exact S.
    + apply Forall_app. split; [exact F|].
      constructor; [|constructor]. right. repeat split. exact E.
  - eexists. split; [reflexivity|]. split; [|split; assumption].
    apply (tiles_compat _ (Tier.start_time self) (Tier.start_time self)
             (cursor (Tier.start_time self) (Tier._objects self))
             (Tier.end_time self));
      [reflexivity | | exact T].
    rewrite <- E2 in *. lra.
Qed.

Lemma C7_fill_in_the_gaps_witness :
  exists output : list Interval.t,
    IntervalTier._fill_in_the_gaps
      (Tier.mk "t" 0 5 [Interval.mk Interval_cls 1 2 "a";
                        Interval.mk Interval_cls 3 4 "b"])
    = Return (Tier.mk "t" 0 5 [Interval.mk Interval_cls 1 2 "a";
                               Interval.mk Interval_cls 3 4 "b"]) output
    /\ tiles 0 5 output.
Proof.
  destruct (C7_fill_in_the_gaps
              (Tier.mk "t" 0 5 [Interval.mk Interval_cls 1 2 "a";
                                Interval.mk Interval_cls 3 4 "b"]))
    as [output [H1 [H2 _]]].
  - discriminate.
  - cbn. lra.
  - cbn. repeat split; lra.
  - cbn. lra.
  - exists output. split; assumption.
Defined.

(** ** Insertion order in a point tier *)

Lemma op_lt_point (x e : Interval.t) :
  Interval.cls x = Point_cls ->
  op_lt x e = Qltb (Point.time x) (Interval.start_time e).
Proof.
  intros H. unfold op_lt, reflected_first, method_lt. rewrite H. reflexivity.
Qed.

Lemma sorted_split (q : Q) (l : list Interval.t) :
  StronglySorted time_lt l ->
  (forall o, In o l -> ~ Point.time o == q) ->
  exists l1 l2,
    l = l1 ++ l2
    /\ Forall (fun o => Point.time o < q) l1
    /\ Forall (fun o => q < Point.time o) l2.
Proof.
  induction 1 as [|a l Hs IH Ha]; intros Hq.
  - exists [], []. repeat split; constructor.
  - destruct (Qlt_le_dec (Point.time a) q) as [L|L].
    + destruct IH as [l1 [l2 [E [F1 F2]]]].
      { intros o Ho. apply Hq. right. exact Ho. }
      exists (a :: l1), l2. rewrite E. repeat split; auto.
    + assert (Lt : q < Point.time a).
      { assert (N := Hq a (or_introl eq_refl)). lra. }
      exists [], (a :: l). repeat split; [constructor|].
      constructor; [exact Lt|].
      rewrite Forall_forall in *. intros o Ho.
      specialize (Ha o Ho). unfold time_lt in Ha. lra.
Qed.

Lemma sorted_insert (x : Interval.t) (l1 l2 : list Interval.t) :
  StronglySorted time_lt (l1 ++ l2) ->
  Forall (fun o => Point.time o < Point.time x) l1 ->
  Forall (fun o => Point.time x < Point.time o) l2 ->
  StronglySorted time_lt (l1 ++ x :: l2).
Proof.
  induction l1 as [|a l1 IH]; cbn; intros Hs F1 F2.
  - constructor; [exact Hs | exact F2].
  - inversion Hs as [|? ? Hs' Ha]; subst.
    inversion F1 as [|? ? Hax F1']; subst.
    constructor; [apply IH; assumption|].
    rewrite Forall_forall in *. intros o Ho.
    apply in_app_or in Ho. destruct Ho as [Ho|[<-|Ho]].
    + apply Ha. apply in_or_app. left. exact Ho.
    + exact Hax.
    + apply Ha. apply in_or_app. right. exact Ho.
Qed.

(** Adding a point whose time is new to a tier in time order: the point
    is stored at its place. *)
Lemma add_fresh (self : PointTier.t) (q : Q) (text : string) :
  tier_wf self ->
  StronglySorted time_lt (Tier._objects self) ->
  0 <= q ->
  (forall o, In o (Tier._objects self) -> ~ Point.time o == q) ->
  exists self',
    PointTier.add q text false self = Return self' tt
    /\ tier_wf self'
    /\ StronglySorted time_lt (Tier._objects self')
    /\ Permutation (mkpoint (q, text) :: Tier._objects self)
                   (Tier._objects self').
Proof.
  intros Hwf Hs Hq Hnew.
  destruct (sorted_split q _ Hs Hnew) as [l1 [l2 [E [F1 F2]]]].
  unfold PointTier.add, bind, lift, Point.new.
  rewrite Interval_init_ok by lra.
  fold (mkpoint (q, text)).
  rewrite add_point_place by (cbn; assumption).
  rewrite (place_insert same_time (mkpoint (q, text)) false _ l1 l2).
  - eexists. split; [reflexivity|]. split; [|split]; cbn.
    + apply (widened_wf self q q Hwf Hq).
    + apply sorted_insert; [rewrite <- E; exact Hs | exact F1 | exact F2].
    + rewrite E. apply Permutation_middle.
  - exact E.
  - revert F1. apply Forall_impl. intros o Ho.
    rewrite op_lt_point by reflexivity. cbn. qprop.
    unfold Point.time in Ho. lra.
  - revert F2. apply Forall_impl. intros o Ho.
    rewrite op_lt_point by reflexivity. cbn. qprop.
    unfold Point.time in Ho. lra.
  - rewrite <- E. apply Forall_forall. intros o Ho.
    unfold same_time. qprop. cbn. apply Hnew. exact Ho.
Qed.

Lemma add_all_fresh (pts : list (Q * string)) :
  forall self : PointTier.t,
    tier_wf self ->
    StronglySorted time_lt (Tier._objects self) ->
    Forall (fun p => 0 <= fst p) pts ->
    distinct_times pts ->
    (forall p o, In p pts -> In o (Tier._objects self) ->
                 ~ Point.time o == fst p) ->
    exists self',
      add_all pts self = Return self' tt
      /\ tier_wf self'
      /\ StronglySorted time_lt (Tier._objects self')
      /\ Permutation (map mkpoint pts ++ Tier._objects self)
                     (Tier._objects self').
Proof.
  induction pts as [|p pts IH]; intros self Hwf Hs Hpos [Hnd Hdt] Hnew.
  - exists self. split; [reflexivity|]. split; [exact Hwf|].
    split; [exact Hs|]. apply Permutation_refl.
  - inversion Hpos as [|? ? Hp Hpos']; subst.
    inversion Hnd as [|? ? Hnotin Hnd']; subst.
    destruct (add_fresh self (fst p) (snd p) Hwf Hs Hp)
      as [s1 [R1 [W1 [S1 P1]]]].
    { intros o Ho. apply (Hnew p o); [left; reflexivity | exact Ho]. }
    destruct (IH s1 W1 S1 Hpos') as [s2 [R2 [W2 [S2 P2]]]].
    { split; [exact Hnd'|]. intros a b Ha Hb. apply Hdt; right; assumption. }
    { intros p' o Hp' Ho.
      apply (Permutation_in _ (Permutation_sym P1)) in Ho.
      destruct Ho as [<-|Ho].
      - cbn. intros Eq. apply Hnotin.
        rewrite (Hdt p p' (or_introl eq_refl) (or_intror Hp') Eq).
        exact Hp'.
      - apply (Hnew p' o); [right; exact Hp' | exact Ho]. }
    exists s2. unfold add_all in *. cbn [for_each]. unfold bind at 1.
    rewrite R1. split; [exact R2|]. split; [exact W2|]. split; [exact S2|].
    eapply Permutation_trans; [|exact P2].
    cbn [map app]. destruct p as [q text].
    eapply Permutation_trans; [apply Permutation_middle|].
    apply Permutation_app_head. exact P1.
Qed.

(** A list in strict time order is determined by its elements. *)
Lemma sorted_unique (l1 l2 : list Interval.t) :
  StronglySorted time_lt l1 -> StronglySorted time_lt l2 ->
  Permutation l1 l2 -> l1 = l2.
Proof.
  revert l2. induction l1 as [|a l1 IH]; intros l2 S1 S2 P.
  - apply Permutation_nil in P. auto.
  - destruct l2 as [|b l2].
    { apply Permutation_sym, Permutation_nil in P. discriminate. }
    inversion S1 as [|? ? S1' F1]; subst.
    inversion S2 as [|? ? S2' F2]; subst.
    rewrite Forall_forall in F1, F2.
    assert (a = b) as <-.
    { assert (Ia : In a (b :: l2))
        by (apply (Permutation_in _ P); left; reflexivity).
      assert (Ib : In b (a :: l1))
        by (apply (Permutation_in _ (Permutation_sym P)); left; reflexivity).
      destruct Ia as [->|Ia]; [reflexivity|].
      destruct Ib as [->|Ib]; [reflexivity|].
      specialize (F1 _ Ib). specialize (F2 _ Ia).
      unfold time_lt in *. lra. }
    f_equal. apply IH; try assumption.
    apply Permutation_cons_inv in P. exact P.
Qed.

(** C5, as stated, fails on two points that share a time: with
    [overwrite] false the first one added stays, so the text stored at
    time 1 depends on the order. *)
Lemma C5_counterexample :
  exists t t' : PointTier.t,
    Permutation [(1, "a"%string); (1, "b"%string)]
                [(1, "b"%string); (1, "a"%string)]
    /\ exec (add_all [(1, "a"%string); (1, "b"%string)]) (Tier.mk "t" 0 0 [])
       = Ok t
    /\ exec (add_all [(1, "b"%string); (1, "a"%string)]) (Tier.mk "t" 0 0 [])
       = Ok t'
    /\ Tier._objects t = [Interval.mk Point_cls 1 1 "a"]
    /\ Tier._objects t' = [Interval.mk Point_cls 1 1 "b"].
Proof.
  exists (Tier.mk "t" 0 1 [Interval.mk Point_cls 1 1 "a"]),
         (Tier.mk "t" 0 1 [Interval.mk Point_cls 1 1 "b"]).
  split; [apply perm_swap|]. repeat split.
Qed.

(** C5, amended: for every finite set of points with times that are not
    negative, no two of which share a time, and every two orderings of
    it, adding the points in either order to an empty [PointTier] whose
    bounds are in order ([0 <= start_time <= end_time]) succeeds and
    leaves the same sequence of points, in strict time order. *)
Theorem C5_insertion_order (self : PointTier.t) (pts pts' : list (Q * string))
  (Hwf : tier_wf self)
  (Hempty : Tier._objects self = [])
  (Hperm : Permutation pts pts')
  (Hpos : Forall (fun p => 0 <= fst p) pts)
  (Hdistinct : distinct_times pts) :
  exists t t' : PointTier.t,
    add_all pts self = Return t tt
    /\ add_all pts' self = Return t' tt
    /\ Tier._objects t = Tier._objects t'
    /\ StronglySorted time_lt (Tier._objects t)
    /\ Permutation (map mkpoint pts) (Tier._objects t).
Proof.
  assert (Hs : StronglySorted time_lt (Tier._objects self))
    by (rewrite Hempty; constructor).
  assert (Hnew : forall (l : list (Q * string)) p o,
             In p l -> In o (Tier._objects self) -> ~ Point.time o == fst p)
    by (intros l p o _ Ho; rewrite Hempty in Ho; destruct Ho).
  destruct (add_all_fresh pts self Hwf Hs Hpos Hdistinct (Hnew pts))
    as [t [R [_ [S P]]]].
  destruct (add_all_fresh pts' self Hwf Hs) as [t' [R' [_ [S' P']]]].
  { rewrite Forall_forall in *. intros p Hp. apply Hpos.
    apply (Permutation_in _ (Permutation_sym Hperm)). exact Hp. }
  { destruct Hdistinct as [Hnd Hdt]. split.
    - apply (Permutation_NoDup Hperm Hnd).
    - intros p q Hp Hq. apply Hdt;
        apply (Permutation_in _ (Permutation_sym Hperm)); assumption. }
  { apply Hnew. }
  rewrite Hempty, app_nil_r in P, P'.
  exists t, t'. repeat split; try assumption.
  apply sorted_unique; try assumption.
  eapply Permutation_trans; [apply Permutation_sym; exact P|].
  eapply Permutation_trans; [|exact P'].
  apply Permutation_map. exact Hperm.
Qed.

Lemma C5_insertion_order_witness :
  exists t t' : PointTier.t,
    add_all [(2, "b"%string); (1, "a"%string)] (Tier.mk "t" 0 0 [])
    = Return t tt
    /\ add_all [(1, "a"%string); (2, "b"%string)] (Tier.mk "t" 0 0 [])
       = Return t' tt
    /\ Tier._objects t = Tier._objects t'.
Proof.
  destruct (C5_insertion_order (Tier.mk "t" 0 0 [])
              [(2, "b"%string); (1, "a"%string)]
              [(1, "a"%string); (2, "b"%string)])
    as [t [t' [H1 [H2 [H3 _]]]]].
  - split; cbn; lra.
  - reflexivity.
  - apply perm_swap.
  - repeat constructor; cbn; lra.
  - split.
    + repeat constructor; cbn; intuition discriminate.
    + intros p q [<-|[<-|[]]] [<-|[<-|[]]]; cbn; intros H;
        try reflexivity; exfalso; lra.
  - exists t, t'. repeat split; assumption.
Defined.

(** ** Extracting a selection *)

(** [place] never raises and leaves the name and the bounds alone. *)
Lemma place_append (same : Interval.t -> Interval.t -> bool)
  (x : Interval.t) (self : Tier.t Interval.t) :
  Forall (fun e => op_lt x e = false) (Tier._objects self) ->
  Forall (fun o => same o x = false) (Tier._objects self) ->
  place same x false self
  = Return (Tier.mk (Tier._name self) (Tier._start_time self)
                    (Tier._end_time self) (Tier._objects self ++ [x])) tt.
Proof.
  intros F1 F2.
  apply (place_insert same x false self (Tier._objects self) []).
  - rewrite app_nil_r. reflexivity.
  - exact F1.
  - constructor.
  - rewrite app_nil_r. exact F2.
Qed.

Lemma within_wf (B : Q) (self : Tier.t Interval.t) :
  within B self -> tier_wf self.
Proof. intros [H0 [H1 H2]]. unfold tier_wf. rewrite H0. split; lra. Qed.

Lemma widened_within (B : Q) (self : Tier.t Interval.t) (lo hi : Q) :
  within B self -> 0 <= lo -> lo <= hi -> hi <= B ->
  within B (widened self lo hi).
Proof.
  unfold within, widened, Tier.start_time, Tier.end_time. cbn.
  intros [H0 [H1 H2]] Hlo Hh HB. rewrite H0. split.
  - unfold py_min. qcase (Qltb lo 0); [lra | reflexivity].
  - destruct (py_max_spec (Tier._end_time self) hi) as [[? ->]|[? ->]];
      split; lra.
Qed.

Lemma point_step (B : Q) (self : PointTier.t) (t : Q) (text : string) :
  within B self -> 0 <= t -> t <= B ->
  (forall d, In d (Tier._objects self) -> Point.time d < t) ->
  exists self',
    PointTier.add t text false self = Return self' tt
    /\ within B self'
    /\ Tier._name self' = Tier._name self
    /\ Tier._objects self'
       = Tier._objects self ++ [Interval.mk Point_cls t t text].
Proof.
  intros Hw H0 HB Hlt.
  unfold PointTier.add, bind, lift, Point.new.
  rewrite Interval_init_ok by lra.
  rewrite add_point_place by (cbn; eauto using within_wf).
  rewrite place_append.
  - eexists. split; [reflexivity|]. split; [|split; reflexivity].
    apply (widened_within B self t t Hw); lra.
  - apply Forall_forall. intros d Hd.
    rewrite op_lt_point by reflexivity. cbn. qprop.
    specialize (Hlt d Hd). unfold Point.time in Hlt. lra.
  - apply Forall_forall. intros d Hd. unfold same_time. cbn. qprop.
    specialize (Hlt d Hd). lra.
Qed.

Lemma interval_step (B : Q) (self : IntervalTier.t) (s e : Q)
  (text : string) :
  within B self -> 0 <= s -> s <= e -> e <= B ->
  (forall d, In d (Tier._objects self) ->
             Interval.cls d = Interval_cls
             /\ Interval.start_time d < e
             /\ ~ (Interval.start_time d == s /\ Interval.end_time d == e)) ->
  exists self',
    IntervalTier.add s e text false self = Return self' tt
    /\ within B self'
    /\ Tier._name self' = Tier._name self
    /\ Tier._objects self'
       = Tier._objects self ++ [Interval.mk Interval_cls s e text].
Proof.
  intros Hw H0 Hse HB Hd.
  unfold IntervalTier.add, bind, lift, Interval.new.
  rewrite Interval_init_ok by lra.
  rewrite add_interval_place by (cbn; eauto using within_wf).
  rewrite place_append.
  - eexists. split; [reflexivity|]. split; [|split; reflexivity].
    apply (widened_within B self s e Hw); lra.
  - apply Forall_forall. intros d Hin. destruct (Hd d Hin) as [C [L _]].
    unfold op_lt, reflected_first, method_lt. cbn. rewrite C. cbn.
    qprop. exact L.
  - apply Forall_forall. intros d Hin. destruct (Hd d Hin) as [_ [_ N]].
    apply op_eq_false_bounds. exact N.
Qed.

(** The inner loop of [extract_selected] on a point tier: the points
    are appended one after the other. *)
Lemma points_loop (fsub : Q -> Q -> Q) (B start_time : Q)
  (items : list Interval.t) :
  forall self : PointTier.t,
    within B self ->
    StronglySorted time_lt (map (shift_point fsub start_time) items) ->
    Forall (fun o => 0 <= fsub (Point.time o) start_time
                     /\ fsub (Point.time o) start_time <= B) items ->
    (forall d o, In d (Tier._objects self) -> In o items ->
                 Point.time d < fsub (Point.time o) start_time) ->
    exists self',
      for_each items (fun item =>
        PointTier.add (fsub (Point.time item) start_time)
                      (Interval.text item) false) self
      = Return self' tt
      /\ within B self'
      /\ Tier._name self' = Tier._name self
      /\ Tier._objects self'
         = Tier._objects self ++ map (shift_point fsub start_time) items.
Proof.
  induction items as [|o items IH]; intros self Hw Hs Hc Hlt.
  - exists self. cbn. rewrite app_nil_r. auto.
  - cbn [map] in Hs. inversion Hs as [|? ? Hs' Ho]; subst.
    inversion Hc as [|? ? [Hc1 Hc2] Hc']; subst.
    destruct (point_step B self (fsub (Point.time o) start_time)
                (Interval.text o) Hw) as [s1 [R1 [W1 [N1 O1]]]];
      [exact Hc1 | exact Hc2 | |].
    { intros d Hd. apply Hlt; [exact Hd | left; reflexivity]. }
    destruct (IH s1 W1 Hs' Hc') as [s2 [R2 [W2 [N2 O2]]]].
    { intros d o' Hd Ho'. rewrite O1 in Hd. apply in_app_or in Hd.
      destruct Hd as [Hd|[<-|[]]].
      - apply Hlt; [exact Hd | right; exact Ho'].
      - rewrite Forall_forall in Ho.
        specialize (Ho _ (in_map (shift_point fsub start_time) _ _ Ho')).
        exact Ho. }
    exists s2. cbn [for_each]. unfold bind at 1. rewrite R1.
    split; [exact R2|]. split; [exact W2|].
    split; [congruence|].
    rewrite O2, O1, <- app_assoc. reflexivity.
Qed.

(** The inner loop of [extract_selected] on an interval tier. *)
Lemma intervals_loop (fsub : Q -> Q -> Q) (B start_time : Q)
  (items : list Interval.t) :
  forall self : IntervalTier.t,
    within B self ->
    StronglySorted interval_before
                   (map (shift_interval fsub start_time) items) ->
    Forall (fun o => 0 <= fsub (Interval.start_time o) start_time
                     /\ fsub (Interval.start_time o) start_time
                        <= fsub (Interval.end_time o) start_time
                     /\ fsub (Interval.end_time o) start_time <= B) items ->
    (forall d o, In d (Tier._objects self) -> In o items ->
                 Interval.cls d = Interval_cls
                 /\ interval_before d (shift_interval fsub start_time o)) ->
    exists self',
      for_each items (fun item =>
        IntervalTier.add (fsub (Interval.start_time item) start_time)
                         (fsub (Interval.end_time item) start_time)
                         (Interval.text item) false) self
      = Return self' tt
      /\ within B self'
      /\ Tier._name self' = Tier._name self
      /\ Tier._objects self'
         = Tier._objects self ++ map (shift_interval fsub start_time) items.
Proof.
  induction items as [|o items IH]; intros self Hw Hs Hc Hb.
  - exists self. cbn. rewrite app_nil_r. auto.
  - cbn [map] in Hs. inversion Hs as [|? ? Hs' Ho]; subst.
    inversion Hc as [|? ? [Hc1 [Hc2 Hc3]] Hc']; subst.
    destruct (interval_step B self (fsub (Interval.start_time o) start_time)
                (fsub (Interval.end_time o) start_time) (Interval.text o) Hw)
      as [s1 [R1 [W1 [N1 O1]]]]; [exact Hc1 | exact Hc2 | exact Hc3 | |].
    { intros d Hd. destruct (Hb d o Hd (or_introl eq_refl)) as [C [L N]].
      split; [exact C|]. split; [exact L | exact N]. }
    destruct (IH s1 W1 Hs' Hc') as [s2 [R2 [W2 [N2 O2]]]].
    { intros d o' Hd Ho'. rewrite O1 in Hd. apply in_app_or in Hd.
      destruct Hd as [Hd|[<-|[]]].
      - apply Hb; [exact Hd | right; exact Ho'].
      - split; [reflexivity|].
        rewrite Forall_forall in Ho.
        exact (Ho _ (in_map (shift_interval fsub start_time) _ _ Ho')). }
    exists s2. cbn [for_each]. unfold bind at 1. rewrite R1.
    split; [exact R2|]. split; [exact W2|].
    split; [congruence|].
    rewrite O2, O1, <- app_assoc. reflexivity.
Qed.

Lemma StronglySorted_filter {A} (R : A -> A -> Prop) (f : A -> bool)
  (l : list A) :
  StronglySorted R l -> StronglySorted R (filter f l).
Proof.
  induction 1 as [|a l Hs IH Ha]; cbn; [constructor|].
  destruct (f a); [|exact IH].
  constructor; [exact IH|].
  rewrite Forall_forall in *. intros x Hx.
  apply Ha. apply filter_In in Hx. tauto.
Qed.

Lemma contained_spec (s e : Q) (o : Interval.t) :
  contained s e o = true <->
  s <= Interval.start_time o /\ Interval.end_time o <= e.
Proof.
  unfold contained. rewrite andb_true_iff, !Qle_bool_iff. tauto.
Qed.

(** With the exact subtraction, a tier whose elements are in order keeps
    them in order. *)
Lemma kept_in_order_exact (start_time end_time : Q) (x : tier) :
  tier_in_order x -> kept_in_order Qminus start_time end_time x.
Proof.
  intros [Hwf Hord]. split.
  - rewrite Forall_forall in *. intros o Ho. apply filter_In in Ho.
    apply Hwf. tauto.
  - destruct x as [s|s]; cbn [tier_state] in *.
    + apply (StronglySorted_filter _ (contained start_time end_time)) in Hord.
      induction Hord as [|o l Hs IH Ho]; cbn [map]; constructor.
      * exact IH.
      * rewrite Forall_forall in *. intros y Hy. apply in_map_iff in Hy.
        destruct Hy as [o' [<- Ho']]. specialize (Ho o' Ho').
        unfold time_lt, shift_point, Point.time in *. cbn. lra.
    + apply (StronglySorted_filter _ (contained start_time end_time)) in Hord.
      induction Hord as [|o l Hs IH Ho]; cbn [map]; constructor.
      * exact IH.
      * rewrite Forall_forall in *. intros y Hy. apply in_map_iff in Hy.
        destruct Hy as [o' [<- Ho']]. destruct (Ho o' Ho') as [L N].
        unfold interval_before, same_bounds, shift_interval in *. cbn.
        split; [lra|]. intros [E1 E2]. apply N. split; lra.
Qed.

Lemma extract_tier_ok (fsub : Q -> Q -> Q) (start_time end_time : Q)
  (x : tier) :
  (forall a b c : Q, a <= b -> fsub a c <= fsub b c) ->
  (forall a c : Q, c <= a -> 0 <= fsub a c) ->
  0 <= start_time -> start_time < end_time ->
  kept_in_order fsub start_time end_time x ->
  exists y,
    TextGrid.extract_tier fsub
                          (Interval.mk Interval_cls start_time end_time "")
                          start_time x = Ok y
    /\ extracted fsub start_time end_time x y
    /\ within (fsub end_time start_time) (tier_state y).
Proof.
  intros Hmono Hpos H0 Hlt [Hwf Hord].
  unfold TextGrid.extract_tier.
  change (filter _ (Tier._objects (tier_state x)))
    with (filter (contained start_time end_time)
                 (Tier._objects (tier_state x))) in *.
  set (items := filter (contained start_time end_time)
                       (Tier._objects (tier_state x))) in *.
  assert (Hin : forall o, In o items ->
                  0 <= fsub (Interval.start_time o) start_time
                  /\ fsub (Interval.start_time o) start_time
                     <= fsub (Interval.end_time o) start_time
                  /\ fsub (Interval.end_time o) start_time
                     <= fsub end_time start_time).
  { intros o Ho. rewrite Forall_forall in Hwf. specialize (Hwf o Ho).
    apply filter_In in Ho. destruct Ho as [Ho Hc].
    apply contained_spec in Hc. destruct Hc as [Hc1 Hc2].
    split; [apply Hpos; exact Hc1|].
    split; apply Hmono; assumption. }
  assert (W0 : forall n, within (fsub end_time start_time)
                                (Tier.mk n 0 0 ([] : list Interval.t))).
  { intros n. unfold within. cbn.
    split; [reflexivity | split; [lra | apply Hpos; lra]]. }
  destruct x as [s|s]; cbn [tier_state] in *; unfold rbind, exec.
  - change (PointTier.new (Tier.name s) 0 0)
      with (Ok (Tier.mk (Tier.name s) 0 0 ([] : list Interval.t))).
    destruct (points_loop fsub (fsub end_time start_time) start_time items
                (Tier.mk (Tier.name s) 0 0 []) (W0 _))
      as [s' [R [W [N O]]]].
    + exact Hord.
    + apply Forall_forall. intros o Ho. destruct (Hin o Ho) as [I1 [I2 I3]].
      unfold Point.time. split; [exact I1|].
      apply (Qle_trans _ _ _ I2 I3).
    + intros d o [].
    + rewrite R. exists (PointTier_obj s'). split; [reflexivity|].
      split; [|exact W]. cbn. split; [exact N | exact O].
  - change (IntervalTier.new (Tier.name s) 0 0)
      with (Ok (Tier.mk (Tier.name s) 0 0 ([] : list Interval.t))).
    destruct (intervals_loop fsub (fsub end_time start_time) start_time items
                (Tier.mk (Tier.name s) 0 0 []) (W0 _))
      as [s' [R [W [N O]]]].
    + exact Hord.
    + apply Forall_forall. intros o Ho. exact (Hin o Ho).
    + intros d o [].
    + rewrite R. exists (IntervalTier_obj s'). split; [reflexivity|].
      split; [|exact W]. cbn. split; [exact N | exact O].
Qed.

(** [append] of an extracted tier to the document under construction. *)
Lemma append_extracted (B : Q) (doc : TextGrid.t) (y : tier) :
  0 <= Tier.start_time doc -> 0 <= B ->
  Tier.end_time doc = B ->
  within B (tier_state y) ->
  TextGrid.append y None doc
  = Return (Tier.mk (Tier._name doc) (py_min (Tier.start_time doc) 0) B
                    (Tier._objects doc ++ [y])) tt.
Proof.
  intros H0 H1 H2 [W0 [W1 W2]].
  unfold TextGrid.append, bind, get. rewrite W0.
  unfold Tier.start_time, Tier.end_time in *.
  assert (Hmin : 0 <= py_min (Tier._start_time doc) 0
                 /\ py_min (Tier._start_time doc) 0 <= 0).
  { destruct (py_min_spec (Tier._start_time doc) 0) as [[? ->]|[? ->]];
      split; lra. }
  rewrite start_time_setter_ok;
    [| tauto | unfold Tier.end_time; rewrite H2; lra].
  cbn [Tier._end_time Tier._start_time Tier._name Tier._objects].
  assert (Hmax : py_max (Tier._end_time doc)
                        (Tier._end_time (tier_state y)) = B).
  { unfold py_max.
    qcase (Qltb (Tier._end_time doc) (Tier._end_time (tier_state y)));
      [rewrite H2 in *; lra | exact H2]. }
  rewrite Hmax.
  rewrite end_time_setter_ok; [reflexivity | lra |].
  unfold Tier.start_time. cbn. lra.
Qed.

(** The outer loop of [extract_selected]. *)
Lemma extract_loop (fsub : Q -> Q -> Q) (start_time end_time : Q)
  (tiers : list tier) :
  (forall a b c : Q, a <= b -> fsub a c <= fsub b c) ->
  (forall a c : Q, c <= a -> 0 <= fsub a c) ->
  0 <= start_time -> start_time < end_time ->
  Forall (kept_in_order fsub start_time end_time) tiers ->
  forall doc : TextGrid.t,
    0 <= Tier.start_time doc ->
    Tier.end_time doc = fsub end_time start_time ->
    exists doc' ys,
      for_each tiers (fun x =>
        extracted_tier <-
          lift (TextGrid.extract_tier fsub
                  (Interval.mk Interval_cls start_time end_time "")
                  start_time x) ;;
        TextGrid.append extracted_tier None) doc
      = Return doc' tt
      /\ Tier.name doc' = Tier.name doc
      /\ Tier.end_time doc' = fsub end_time start_time
      /\ 0 <= Tier.start_time doc'
      /\ Tier.start_time doc' <= Tier.start_time doc
      /\ (tiers <> [] -> Tier.start_time doc' == 0)
      /\ Tier._objects doc' = Tier._objects doc ++ ys
      /\ Forall2 (extracted fsub start_time end_time) tiers ys.
Proof.
  intros Hmono Hpos H0 Hlt.
  assert (D1 : 0 <= fsub end_time start_time) by (apply Hpos; lra).
  induction tiers as [|x tiers IH]; intros Hall doc D0 D2.
  - exists doc, []. cbn. rewrite app_nil_r.
    repeat split; auto; try lra. intros H. contradiction.
  - inversion Hall as [|? ? Hx Hall']; subst.
    destruct (extract_tier_ok fsub start_time end_time x Hmono Hpos H0 Hlt Hx)
      as [y [Ey [Xy Wy]]].
    pose proof (append_extracted _ doc y D0 D1 D2 Wy) as A.
    set (doc1 := Tier.mk (Tier._name doc) (py_min (Tier.start_time doc) 0)
                         (fsub end_time start_time)
                         (Tier._objects doc ++ [y])) in *.
    assert (M : 0 <= py_min (Tier.start_time doc) 0
                /\ py_min (Tier.start_time doc) 0 <= 0).
    { destruct (py_min_spec (Tier.start_time doc) 0) as [[? ->]|[? ->]];
        split; lra. }
    destruct (IH Hall' doc1) as [doc' [ys [R [N [E [S0 [S1 [_ [O F]]]]]]]]].
    { unfold doc1, Tier.start_time. cbn. tauto. }
    { reflexivity. }
    exists doc', (y :: ys). cbn [for_each]. unfold bind at 1.
    unfold bind at 1, lift. rewrite Ey, A.
    split; [exact R|]. split; [exact N|]. split; [exact E|].
    split; [exact S0|].
    unfold doc1, Tier.start_time in S1. cbn in S1.
    unfold Tier.start_time in *.
    split; [lra|]. split; [intros _; lra|].
    split; [rewrite O; unfold doc1; cbn; rewrite <- app_assoc; reflexivity|].
    constructor; assumption.
Qed.

(** C2, as stated, fails in three ways, already with the exact
    subtraction.  With a negative [start] the call raises [ValueError].
    On a document without tiers the bounds of the result are
    [start .. end - start], here [2 .. 3].  On a point tier that holds
    two points at the same time (which [add] can build, see C1), the
    second of them is contained in the selection and is not kept. *)
Lemma C2_counterexample :
  TextGrid.extract_selected Qminus (Tier.mk "doc" 0 0 []) (-1) 1 "sel"
  = Err ValueError
  /\ TextGrid.extract_selected Qminus (Tier.mk "doc" 0 0 []) 2 5 "sel"
     = Ok (Tier.mk "sel" 2 3 [])
  /\ exists pt : PointTier.t,
       exec (PointTier.add 1 "a" false ;;; PointTier.add 2 "c" false ;;;
             PointTier.add 1 "b" false) (Tier.mk "t" 0 0 []) = Ok pt
       /\ Tier._objects pt = [Interval.mk Point_cls 1 1 "a";
                              Interval.mk Point_cls 1 1 "b";
                              Interval.mk Point_cls 2 2 "c"]
       /\ TextGrid.extract_selected Qminus
            (Tier.mk "doc" 0 2 [PointTier_obj pt]) 0 5 "sel"
          = Ok (Tier.mk "sel" 0 5
                  [PointTier_obj
                     (Tier.mk "t" 0 (2 - 0)
                        [Interval.mk Point_cls (1 - 0) (1 - 0) "a";
                         Interval.mk Point_cls (2 - 0) (2 - 0) "c"])]).
Proof.
  split; [reflexivity|]. split; [reflexivity|].
  exists (Tier.mk "t" 0 2 [Interval.mk Point_cls 1 1 "a";
                           Interval.mk Point_cls 1 1 "b";
                           Interval.mk Point_cls 2 2 "c"]).
  split; [vm_compute; reflexivity|]. split; [reflexivity|].
  vm_compute. reflexivity.
Qed.

(** C2, amended.  Let the subtraction [fsub] of the language be monotone
    in its first argument ([a <= b] gives [fsub a c <= fsub b c]) and
    give a non-negative difference when the second argument is not the
    greater ([c <= a] gives [0 <= fsub a c]), as the rounded subtraction
    of floats is and does.  For every document read from the file that
    has at least one tier, and every [0 <= start < end] such that, in
    every tier, the elements contained in [start .. end] have their
    bounds in order ([start_time <= end_time]) and are, after the shift
    by [start], still in order (points at strictly increasing times;
    intervals each starting before every later one ends, no two with the
    same bounds), [extract_selected] returns a document named [name]
    whose bounds are [0 .. fsub end start] and which has, for every tier
    of the document read and in the same order, a tier of the same class
    and name that holds exactly the elements contained in [start .. end],
    in their order, each with its times [t] replaced by [fsub t start]. *)
Theorem C2_extract_selected (fsub : Q -> Q -> Q) (tg : TextGrid.t)
  (start_time end_time : Q) (name : string)
  (Hmono : forall a b c : Q, a <= b -> fsub a c <= fsub b c)
  (Hpos : forall a c : Q, c <= a -> 0 <= fsub a c)
  (Hstart : 0 <= start_time)
  (Hlt : start_time < end_time)
  (Htiers : Tier._objects tg <> [])
  (Horder : Forall (kept_in_order fsub start_time end_time)
                   (Tier._objects tg)) :
  exists doc : TextGrid.t,
    TextGrid.extract_selected fsub tg start_time end_time name = Ok doc
    /\ Tier.name doc = name
    /\ Tier.start_time doc == 0
    /\ Tier.end_time doc = fsub end_time start_time
    /\ Forall2 (extracted fsub start_time end_time)
               (Tier._objects tg) (Tier._objects doc).
Proof.
  assert (D1 : 0 <= fsub end_time start_time) by (apply Hpos; lra).
  unfold TextGrid.extract_selected, Interval.new, TextGrid.new, rbind.
  rewrite Interval_init_ok by lra.
  unfold Tier.__init__.
  qcase (Qltb start_time 0); [lra|].
  qcase (Qltb (fsub end_time start_time) 0); [lra|].
  destruct (extract_loop fsub start_time end_time (Tier._objects tg)
              Hmono Hpos Hstart Hlt Horder
              (Tier.mk name start_time (fsub end_time start_time) []))
    as [doc [ys [R [N [En [S0 [S1 [Z [O F]]]]]]]]].
  - exact Hstart.
  - reflexivity.
  - unfold exec. rewrite R. exists doc.
    split; [reflexivity|]. split; [exact N|]. split; [apply Z; exact Htiers|].
    split; [exact En|]. cbn in O. rewrite O. exact F.
Qed.

Lemma C2_extract_selected_witness :
  exists doc : TextGrid.t,
    TextGrid.extract_selected Qminus
      (Tier.mk "doc" 0 4
         [IntervalTier_obj
            (Tier.mk "words" 0 4 [Interval.mk Interval_cls 1 3 "x";
                                  Interval.mk Interval_cls (5 # 2) 4 "y"])])
      2 5 "sel" = Ok doc
    /\ Tier.start_time doc == 0
    /\ Tier.end_time doc = 5 - 2.
Proof.
  destruct (C2_extract_selected Qminus
              (Tier.mk "doc" 0 4
                 [IntervalTier_obj
                    (Tier.mk "words" 0 4
                       [Interval.mk Interval_cls 1 3 "x";
                        Interval.mk Interval_cls (5 # 2) 4 "y"])])
              2 5 "sel")
    as [doc [H1 [_ [H2 [H3 _]]]]].
  - intros a b c H. lra.
  - intros a c H. lra.
  - lra.
  - lra.
  - discriminate.
  - constructor; [|constructor]. split.
    + cbn. repeat constructor; cbn; lra.
    + cbn. repeat constructor; unfold same_bounds; cbn; lra.
  - exists doc. repeat split; assumption.
Defined.

(** The example of the spec, run with the exact subtraction: of the
    intervals [(1, 3, x)] and [(2.5, 4, y)], the selection [2 .. 5]
    keeps the second, as [(0.5, 2, y)]. *)
Example extract_selected_example :
  TextGrid.extract_selected Qminus
    (Tier.mk "doc" 0 4
       [IntervalTier_obj
          (Tier.mk "words" 0 4 [Interval.mk Interval_cls 1 3 "x";
                                Interval.mk Interval_cls (5 # 2) 4 "y"])])
    2 5 "sel"
  = Ok (Tier.mk "sel" 0 (5 - 2)
          [IntervalTier_obj
             (Tier.mk "words" 0 (4 - 2)
                [Interval.mk Interval_cls ((5 # 2) - 2) (4 - 2) "y"])])
  /\ (5 # 2) - 2 == 1 # 2 /\ 4 - 2 == 2.
Proof.
  split; [vm_compute; reflexivity|]. split; reflexivity.
Qed.

(* ================================================================== *)
(** * More of the code: the temporal primitives                        *)
(* ================================================================== *)

(** X1. The constructor raises exactly on a negative argument; otherwise the
    object it makes has its bounds in order, swapped when they were given
    the other way round. *)
Theorem Interval_init_contract (c : class) (s e : Q) (txt : string) :
  (Interval.__init__ c s e txt = Err ValueError <-> s < 0 \/ e < 0)
  /\ forall i : Interval.t,
       Interval.__init__ c s e txt = Ok i ->
       0 <= Interval.start_time i
       /\ Interval.start_time i <= Interval.end_time i
       /\ Interval.cls i = c /\ Interval.text i = txt
       /\ ((s <= e /\ Interval.start_time i = s /\ Interval.end_time i = e)
           \/ (e < s /\ Interval.start_time i = e
               /\ Interval.end_time i = s)).
Proof.
  unfold Interval.__init__.
  qcase (Qltb s 0); [|qcase (Qltb e 0); [|qcase (Qltb e s)]].
  - split; [split; auto | discriminate].
  - split; [split; auto | discriminate].
  - split; [split; [discriminate | lra]|].
    intros i H. injection H as <-. cbn. repeat split; try lra.
    right. repeat split. lra.
  - split; [split; [discriminate | lra]|].
    intros i H. injection H as <-. cbn. repeat split; try lra.
    left. repeat split. lra.
Qed.

Lemma Interval_init_contract_witness :
  exists i : Interval.t,
    Interval.new 4 3 "x" = Ok i
    /\ Interval.start_time i = 3 /\ Interval.end_time i = 4.
Proof.
  exists (Interval.mk Interval_cls 3 4 "x").
  split; [reflexivity|].
  destruct (proj2 (Interval_init_contract Interval_cls 4 3 "x")
              (Interval.mk Interval_cls 3 4 "x") eq_refl)
    as [_ [_ [_ [_ [[H _]|[_ H]]]]]].
  - exfalso. lra.
  - exact H.
Defined.

(** X2. [a + b] of two well-formed ranged values is their hull: an object
    of class [Interval], whatever the classes of [a] and [b], that
    contains both and is contained in everything that contains both; its
    text is the two texts joined. *)
Theorem add_is_hull (a b : Interval.t)
  (Ha0 : 0 <= Interval.start_time a)
  (Hb0 : 0 <= Interval.start_time b)
  (Ha : Interval.start_time a <= Interval.end_time a)
  (Hb : Interval.start_time b <= Interval.end_time b) :
  exists i : Interval.t,
    Interval.__add__ a (Interval.Ranged b) = Ok i
    /\ Interval.cls i = Interval_cls
    /\ Interval.text i = (Interval.text a ++ Interval.text b)%string
    /\ Interval.__contains__ i (Interval.Ranged a) = true
    /\ Interval.__contains__ i (Interval.Ranged b) = true
    /\ forall c : Interval.t,
         Interval.__contains__ c (Interval.Ranged a) = true ->
         Interval.__contains__ c (Interval.Ranged b) = true ->
         Interval.__contains__ c (Interval.Ranged i) = true.
Proof.
  unfold Interval.__add__, Interval.new.
  destruct (py_min_spec (Interval.start_time a) (Interval.start_time b))
    as [[M1 M2]|[M1 M2]];
  destruct (py_max_spec (Interval.end_time a) (Interval.end_time b))
    as [[N1 N2]|[N1 N2]];
  rewrite M2, N2; rewrite Interval_init_ok by lra;
  eexists; (split; [reflexivity|]); cbn;
  (split; [reflexivity|]); (split; [reflexivity|]);
  rewrite !andb_true_iff, !Qle_bool_iff;
  (split; [split; lra|]); (split; [split; lra|]);
  intros c; rewrite !andb_true_iff, !Qle_bool_iff; intros [? ?] [? ?];
  split; lra.
Qed.

Lemma add_is_hull_witness :
  exists i : Interval.t,
    Interval.__add__ (Interval.mk Point_cls 3 3 "a")
                     (Interval.Ranged (Interval.mk Interval_cls 5 6 "b"))
    = Ok i
    /\ Interval.cls i = Interval_cls.
Proof.
  destruct (add_is_hull (Interval.mk Point_cls 3 3 "a")
                        (Interval.mk Interval_cls 5 6 "b"))
    as [i [H1 [H2 _]]]; cbn; try lra.
  exists i. split; assumption.
Defined.



(** X4. [a -= x] on an interval whose bounds are in order
    ([start_time <= end_time]), for a subtraction [fsub] that is
    monotone in its first argument, as the rounded subtraction of floats
    is, is all or nothing.  With [v] the difference [start_time - x] as
    computed: when [0 <= v <= end_time] both bounds are set, to [v] and
    to the computed [end_time - x]; when [v < 0] or [end_time < v],
    [ValueError] is raised and [a] is as it was.  So a shift to the
    right whose computed start passes the old end is refused, because
    the start is set first and checked against the old end. *)
Theorem isub_all_or_nothing (fsub : Q -> Q -> Q) (a : Interval.t) (x : Q)
  (Hmono : forall p q c : Q, p <= q -> fsub p c <= fsub q c)
  (Ha : Interval.start_time a <= Interval.end_time a) :
  (0 <= fsub (Interval.start_time a) x
   /\ fsub (Interval.start_time a) x <= Interval.end_time a ->
   Interval.__isub__ fsub (Interval.Scalar x) a
   = Return (Interval.mk (Interval.cls a) (fsub (Interval.start_time a) x)
                         (fsub (Interval.end_time a) x) (Interval.text a))
            tt)
  /\ (fsub (Interval.start_time a) x < 0
      \/ Interval.end_time a < fsub (Interval.start_time a) x ->
      Interval.__isub__ fsub (Interval.Scalar x) a = Raise a ValueError).
Proof.
  pose proof (Hmono _ _ x Ha) as Hm.
  unfold Interval.__isub__, bind, get, Interval.start_time_setter,
    Interval.end_time_setter, Interval.start_time, Interval.end_time in *.
  split.
  - intros [H1 H2].
    qcase (Qltb (fsub (Interval._start_time a) x) 0); [lra|].
    qcase (Qltb (Interval._end_time a) (fsub (Interval._start_time a) x));
      [lra|].
    cbn.
    qcase (Qltb (fsub (Interval._end_time a) x) 0); [lra|].
    qcase (Qltb (fsub (Interval._end_time a) x)
                (fsub (Interval._start_time a) x));
      [lra | reflexivity].
  - intros H.
    qcase (Qltb (fsub (Interval._start_time a) x) 0); [reflexivity|].
    qcase (Qltb (Interval._end_time a) (fsub (Interval._start_time a) x));
      [reflexivity | lra].
Qed.

Lemma isub_all_or_nothing_witness :
  Interval.__isub__ Qminus (Interval.Scalar (-1))
                    (Interval.mk Point_cls 3 3 "p")
  = Raise (Interval.mk Point_cls 3 3 "p") ValueError.
Proof.
  refine (proj2 (isub_all_or_nothing Qminus (Interval.mk Point_cls 3 3 "p")
                   (-1) _ _) _);
    [intros p q c H; lra | cbn; lra | cbn; lra].
Defined.

(** X5. [a.get_overlap(b)] on well-formed intervals is [None] exactly when
    they do not overlap; otherwise it is an object of class [Interval],
    without text, contained in both, and containing every ranged value
    that both contain. *)
Theorem get_overlap_is_intersection (a b : Interval.t)
  (Ha0 : 0 <= Interval.start_time a)
  (Hb0 : 0 <= Interval.start_time b)
  (Ha : Interval.start_time a <= Interval.end_time a)
  (Hb : Interval.start_time b <= Interval.end_time b) :
  (Interval.overlaps a b = false -> Interval.get_overlap a b = Ok None)
  /\ (Interval.overlaps a b = true ->
      exists i : Interval.t,
        Interval.get_overlap a b = Ok (Some i)
        /\ Interval.text i = ""%string
        /\ Interval.cls i = Interval_cls
        /\ Interval.__contains__ a (Interval.Ranged i) = true
        /\ Interval.__contains__ b (Interval.Ranged i) = true
        /\ forall c : Interval.t,
             Interval.__contains__ a (Interval.Ranged c) = true ->
             Interval.__contains__ b (Interval.Ranged c) = true ->
             Interval.__contains__ i (Interval.Ranged c) = true).
Proof.
  unfold Interval.get_overlap. split; intros H; rewrite H; cbn [negb].
  - reflexivity.
  - unfold Interval.overlaps in H. apply andb_true_iff in H.
    destruct H as [H1 H2]. qprop. unfold Interval.new.
    destruct (py_max_spec (Interval.start_time b) (Interval.start_time a))
      as [[M1 M2]|[M1 M2]];
    destruct (py_min_spec (Interval.end_time b) (Interval.end_time a))
      as [[N1 N2]|[N1 N2]];
    rewrite M2, N2; rewrite Interval_init_ok by lra;
    eexists; (split; [reflexivity|]); cbn;
    (split; [reflexivity|]); (split; [reflexivity|]);
    rewrite !andb_true_iff, !Qle_bool_iff;
    (split; [split; lra|]); (split; [split; lra|]);
    intros c; rewrite !andb_true_iff, !Qle_bool_iff; intros [? ?] [? ?];
    split; lra.
Qed.

Lemma get_overlap_is_intersection_witness :
  Interval.get_overlap (Interval.mk Interval_cls 0 5 "foo")
                       (Interval.mk Interval_cls 5 6 "") = Ok None.
Proof.
  refine (proj1 (get_overlap_is_intersection
                   (Interval.mk Interval_cls 0 5 "foo")
                   (Interval.mk Interval_cls 5 6 "") _ _ _ _) _);
    [cbn; lra | cbn; lra | cbn; lra | cbn; lra | reflexivity].
Defined.

(** X6. For two objects of class [Interval], overlapping is the same as
    neither being [<] the other, and it is symmetric. *)
Theorem overlaps_iff_unordered (a b : Interval.t)
  (Ca : Interval.cls a = Interval_cls)
  (Cb : Interval.cls b = Interval_cls) :
  Interval.overlaps a b = negb (op_lt a b) && negb (op_lt b a)
  /\ Interval.overlaps a b = Interval.overlaps b a.
Proof.
  unfold Interval.overlaps, op_lt, reflected_first, method_lt.
  rewrite Ca, Cb. cbn. unfold Qltb. split.
  - apply andb_comm.
  - apply andb_comm.
Qed.

Lemma overlaps_iff_unordered_witness :
  Interval.overlaps (Interval.mk Interval_cls 0 5 "")
                    (Interval.mk Interval_cls 5 6 "")
  = negb (op_lt (Interval.mk Interval_cls 0 5 "")
                (Interval.mk Interval_cls 5 6 ""))
    && negb (op_lt (Interval.mk Interval_cls 5 6 "")
                   (Interval.mk Interval_cls 0 5 "")).
Proof.
  exact (proj1 (overlaps_iff_unordered (Interval.mk Interval_cls 0 5 "")
                  (Interval.mk Interval_cls 5 6 "") eq_refl eq_refl)).
Defined.

(** X7. Containment of ranged values is reflexive and transitive, and two
    ranged values contain each other exactly when they are [==]. *)
Theorem contains_is_an_order (a b c : Interval.t) :
  Interval.__contains__ a (Interval.Ranged a) = true
  /\ (Interval.__contains__ a (Interval.Ranged b) = true ->
      Interval.__contains__ b (Interval.Ranged c) = true ->
      Interval.__contains__ a (Interval.Ranged c) = true)
  /\ (Interval.__contains__ a (Interval.Ranged b) = true
      /\ Interval.__contains__ b (Interval.Ranged a) = true
      <-> op_eq a b = true).
Proof.
  rewrite op_eq_bounds. cbn.
  rewrite !andb_true_iff, !Qle_bool_iff.
  split; [split; apply Qle_refl|]. split.
  - intros [? ?] [? ?]. split; lra.
  - split.
    + intros [[? ?] [? ?]]. split; lra.
    + intros [? ?]. repeat split; lra.
Qed.

Lemma contains_is_an_order_witness :
  Interval.__contains__ (Interval.mk Interval_cls 3 4 "foo")
    (Interval.Ranged (Interval.mk Point_cls (7 # 2) (7 # 2) "")) = true.
Proof.
  refine (proj1 (proj2 (contains_is_an_order
                          (Interval.mk Interval_cls 3 4 "foo")
                          (Interval.mk Interval_cls 3 4 "")
                          (Interval.mk Point_cls (7 # 2) (7 # 2) ""))) _ _);
    reflexivity.
Defined.

(* ================================================================== *)
(** * More of the code: tiers                                          *)
(* ================================================================== *)

Lemma list_update_length {A} (f : A -> A) (l : list A) (i : nat) :
  length (list_update i f l) = length l.
Proof.
  revert i. induction l as [|x l IH]; intros [|i]; cbn; auto.
Qed.

Lemma list_insert_length {A} (x : A) (l : list A) (i : nat) :
  length (list_insert i x l) = S (length l).
Proof.
  unfold list_insert. rewrite length_app. cbn.
  rewrite length_firstn, length_skipn. lia.
Qed.

(** [place] never raises, keeps the name and the bounds, and leaves the
    contents as they are, or with one text replaced, or with [x] put in. *)
Lemma place_shape (same : Interval.t -> Interval.t -> bool)
  (x : Interval.t) (overwrite : bool) (self : Tier.t Interval.t) :
  exists objs' : list Interval.t,
    place same x overwrite self = Return (with_objects self objs') tt
    /\ (objs' = Tier._objects self
        \/ (exists i, objs' = list_update i (with_text (Interval.text x))
                                          (Tier._objects self))
        \/ (exists i, objs' = list_insert i x (Tier._objects self))).
Proof.
  unfold place, set_item_text, Tier.set_objects, with_objects.
  destruct self as [n s e objs]. cbn.
  repeat match goal with
         | |- context [if ?c then _ else _] => destruct c
         end;
    eexists; (split; [reflexivity|]);
    first [ left; reflexivity
          | right; left; eexists; reflexivity
          | right; right; eexists; reflexivity ].
Qed.

(** X8. [add] on a tier with well-formed bounds, for a time that is not
    negative: it always returns; the name is kept; the bounds become
    [min(start_time, time)] and [max(end_time, time)], so they only
    widen and cover the time; and the tier has the elements it had, or
    one more. *)
Theorem add_widens_and_grows_by_at_most_one (self : PointTier.t) (time : Q)
  (text : string) (overwrite : bool)
  (Hwf : tier_wf self) (Ht : 0 <= time) :
  exists self' : PointTier.t,
    PointTier.add time text overwrite self = Return self' tt
    /\ Tier.name self' = Tier.name self
    /\ Tier.start_time self' = py_min (Tier.start_time self) time
    /\ Tier.end_time self' = py_max (Tier.end_time self) time
    /\ Tier.start_time self' <= Tier.start_time self
    /\ Tier.end_time self <= Tier.end_time self'
    /\ Tier.start_time self' <= time /\ time <= Tier.end_time self'
    /\ (length (Tier._objects self) <= length (Tier._objects self')
        <= S (length (Tier._objects self)))%nat.
Proof.
  unfold PointTier.add, bind, lift, Point.new.
  rewrite Interval_init_ok by lra.
  rewrite add_point_place by (cbn; assumption).
  cbn [Point.time Interval.start_time Interval._start_time].
  destruct (place_shape same_time (Interval.mk Point_cls time time text)
              overwrite (widened self time time)) as [objs' [R Sh]].
  rewrite R. eexists. split; [reflexivity|].
  destruct Hwf as [Hw0 Hw1].
  unfold with_objects, widened.
  unfold Tier.name, Tier.start_time, Tier.end_time in *.
  cbn [Tier._name Tier._start_time Tier._end_time Tier._objects].
  split; [reflexivity|]. split; [reflexivity|]. split; [reflexivity|].
  destruct (py_min_spec (Tier._start_time self) time) as [[? ->]|[? ->]];
  destruct (py_max_spec (Tier._end_time self) time) as [[? ->]|[? ->]];
  (repeat (split; [lra|]));
  unfold widened in Sh; cbn [Tier._objects] in Sh;
  destruct Sh as [->|[[i ->]|[i ->]]];
    rewrite ?list_update_length, ?list_insert_length; lia.
Qed.

Lemma add_widens_and_grows_by_at_most_one_witness :
  exists self' : PointTier.t,
    PointTier.add 5 "third" false
      (Tier.mk "foo" 0 4 [Interval.mk Point_cls 0 0 "first"]) = Return self' tt
    /\ Tier.end_time self' = py_max 4 5.
Proof.
  destruct (add_widens_and_grows_by_at_most_one
              (Tier.mk "foo" 0 4 [Interval.mk Point_cls 0 0 "first"])
              5 "third" false) as [self' [H1 [_ [_ [H2 _]]]]].
  - split; cbn; lra.
  - lra.
  - exists self'. split; assumption.
Defined.

(** X9. [IntervalTier.add] on a tier with well-formed bounds, for bounds
    [0 <= s <= e]: it always returns; the name is kept; the bounds
    become [min(start_time, s)] and [max(end_time, e)], so they only
    widen and cover the interval; and the tier has the elements it had,
    or one more. *)
Theorem add_interval_widens_and_grows_by_at_most_one (self : IntervalTier.t)
  (s e : Q) (text : string) (overwrite : bool)
  (Hwf : tier_wf self) (Hs : 0 <= s) (He : s <= e) :
  exists self' : IntervalTier.t,
    IntervalTier.add s e text overwrite self = Return self' tt
    /\ Tier.name self' = Tier.name self
    /\ Tier.start_time self' = py_min (Tier.start_time self) s
    /\ Tier.end_time self' = py_max (Tier.end_time self) e
    /\ Tier.start_time self' <= Tier.start_time self
    /\ Tier.end_time self <= Tier.end_time self'
    /\ Tier.start_time self' <= s /\ e <= Tier.end_time self'
    /\ (length (Tier._objects self) <= length (Tier._objects self')
        <= S (length (Tier._objects self)))%nat.
Proof.
  unfold IntervalTier.add, bind, lift, Interval.new.
  rewrite Interval_init_ok by lra.
  rewrite add_interval_place by (cbn; assumption).
  cbn [Interval.start_time Interval._start_time Interval.end_time
       Interval._end_time].
  destruct (place_shape op_eq (Interval.mk Interval_cls s e text)
              overwrite (widened self s e)) as [objs' [R Sh]].
  rewrite R. eexists. split; [reflexivity|].
  destruct Hwf as [Hw0 Hw1].
  unfold with_objects, widened.
  unfold Tier.name, Tier.start_time, Tier.end_time in *.
  cbn [Tier._name Tier._start_time Tier._end_time Tier._objects].
  split; [reflexivity|]. split; [reflexivity|]. split; [reflexivity|].
  destruct (py_min_spec (Tier._start_time self) s) as [[? ->]|[? ->]];
  destruct (py_max_spec (Tier._end_time self) e) as [[? ->]|[? ->]];
  (repeat (split; [lra|]));
  unfold widened in Sh; cbn [Tier._objects] in Sh;
  destruct Sh as [->|[[i ->]|[i ->]]];
    rewrite ?list_update_length, ?list_insert_length; lia.
Qed.

Lemma add_interval_widens_and_grows_by_at_most_one_witness :
  exists self' : IntervalTier.t,
    IntervalTier.add 4 5 "third" false
      (Tier.mk "foo" 0 2 [Interval.mk Interval_cls 0 1 "first"])
    = Return self' tt
    /\ Tier.end_time self' = py_max 2 5.
Proof.
  destruct (add_interval_widens_and_grows_by_at_most_one
              (Tier.mk "foo" 0 2 [Interval.mk Interval_cls 0 1 "first"])
              4 5 "third" false) as [self' [H1 [_ [_ [H2 _]]]]].
  - split; cbn; lra.
  - lra.
  - lra.
  - exists self'. split; assumption.
Defined.





Lemma snoc_cases {A} (l : list A) : l = [] \/ exists l0 e, l = l0 ++ [e].
Proof.
  induction l as [|e l0 _] using rev_ind; [left | right]; eauto.
Qed.



(** An element that no stored element matches is put in, wherever the
    search lands. *)
Lemma place_fresh (same : Interval.t -> Interval.t -> bool)
  (x : Interval.t) (overwrite : bool) (self : Tier.t Interval.t) :
  Forall (fun o => same o x = false) (Tier._objects self) ->
  exists i : nat,
    place same x overwrite self
    = Return (with_objects self (list_insert i x (Tier._objects self))) tt.
Proof.
  intros F. rewrite Forall_forall in F. unfold place.
  set (objs := Tier._objects self) in *.
  set (i := bisect_right objs x).
  assert (A : match nth_error objs i with
              | Some o => same o x
              | None => false
              end = false).
  { destruct (nth_error objs i) as [o|] eqn:E; [|reflexivity].
    apply F. apply (nth_error_In _ _ E). }
  assert (B : match last_item objs with
              | Some o => same o x
              | None => false
              end = false).
  { destruct (last_item objs) as [o|] eqn:E; [|reflexivity].
    apply F. apply last_item_In. exact E. }
  rewrite A, B, !andb_false_r. exists i. reflexivity.
Qed.

(** X11. On a tier whose bounds are in order
    ([0 <= start_time <= end_time]), adding a point at a time that is
    not negative and that no stored point has, and removing a point at
    that time, gives back the contents the tier had, in any order they
    were in; the bounds stay widened. *)
Theorem add_then_remove (self : PointTier.t) (time : Q) (text text' : string)
  (Hwf : tier_wf self) (Ht : 0 <= time)
  (Hnew : forall o, In o (Tier._objects self) -> ~ Point.time o == time) :
  (PointTier.add time text false ;;; PointTier.remove time text') self
  = Return (widened self time time) tt.
Proof.
  unfold bind at 1. unfold PointTier.add, bind at 1, lift, Point.new.
  rewrite Interval_init_ok by lra.
  rewrite add_point_place by (cbn; assumption).
  cbn [Point.time Interval.start_time Interval._start_time].
  set (p := Interval.mk Point_cls time time text).
  destruct (place_fresh same_time p false (widened self time time))
    as [i R].
  { apply Forall_forall. intros o Ho. unfold same_time. cbn. qprop.
    apply Hnew. exact Ho. }
  rewrite R. rewrite PointTier_remove_probe by lra.
  unfold PointTier.remove_point, bind, get.
  cbn [with_objects widened Tier._objects]. unfold list_insert.
  rewrite (list_remove_first _ p).
  - unfold Tier.set_objects. cbn. rewrite firstn_skipn. destruct self.
    reflexivity.
  - intros y Hy. apply op_eq_false_bounds. intros [E _].
    apply (Hnew y); [|exact E].
    rewrite <- (firstn_skipn i (Tier._objects self)).
    apply in_or_app. left. exact Hy.
  - apply op_eq_bounds. split; reflexivity.
Qed.

Lemma add_then_remove_witness :
  (PointTier.add 2 "x" false ;;; PointTier.remove 2 "")
    (Tier.mk "t" 0 3 [Interval.mk Point_cls 3 3 "b";
                      Interval.mk Point_cls 1 1 "a"])
  = Return (widened (Tier.mk "t" 0 3 [Interval.mk Point_cls 3 3 "b";
                                      Interval.mk Point_cls 1 1 "a"]) 2 2) tt.
Proof.
  apply add_then_remove.
  - split; cbn; lra.
  - lra.
  - intros o [<-|[<-|[]]]; cbn; lra.
Defined.

Lemma fill_loop_tiled (objs : list Interval.t) :
  forall (prev hi : Q) (output : list Interval.t),
    tiles prev hi objs ->
    IntervalTier.fill_loop objs prev output = Ok (output ++ objs).
Proof.
  induction objs as [|i r IH]; intros prev hi output T; cbn.
  - rewrite app_nil_r. reflexivity.
  - destruct T as [T1 [T2 T3]].
    qcase (Qltb prev (Interval.start_time i)); [lra|].
    rewrite (IH _ hi _ T3), <- app_assoc. reflexivity.
Qed.

Lemma tiles_last (l0 : list Interval.t) (l : Interval.t) :
  forall lo hi : Q, tiles lo hi (l0 ++ [l]) -> Interval.end_time l == hi.
Proof.
  induction l0 as [|i r IH]; cbn; intros lo hi T.
  - tauto.
  - destruct T as [_ [_ T]]. apply (IH _ _ T).
Qed.

(** X12. A tier whose stored intervals already tile its bounds is written as
    it is: [_fill_in_the_gaps] returns exactly the stored intervals. *)
Theorem fill_in_the_gaps_of_a_tiling (self : IntervalTier.t)
  (Htiles : tiles (Tier.start_time self) (Tier.end_time self)
                  (Tier._objects self)) :
  IntervalTier._fill_in_the_gaps self = Return self (Tier._objects self).
Proof.
  unfold IntervalTier._fill_in_the_gaps, bind, get, lift.
  rewrite (fill_loop_tiled _ _ _ [] Htiles). cbn [app].
  destruct (snoc_cases (Tier._objects self)) as [E|[l0 [l E]]].
  - rewrite E. reflexivity.
  - rewrite E in *. rewrite last_item_snoc.
    pose proof (tiles_last _ _ _ _ Htiles) as L.
    replace (Qltb (Interval.end_time l) (Tier.end_time self)) with false
      by (symmetry; qprop; lra).
    rewrite andb_false_r. reflexivity.
Qed.

Lemma fill_in_the_gaps_of_a_tiling_witness :
  IntervalTier._fill_in_the_gaps
    (Tier.mk "t" 1 4 [Interval.mk Interval_cls 1 2 "a";
                      Interval.mk Interval_cls 2 4 "b"])
  = Return (Tier.mk "t" 1 4 [Interval.mk Interval_cls 1 2 "a";
                             Interval.mk Interval_cls 2 4 "b"])
           [Interval.mk Interval_cls 1 2 "a"; Interval.mk Interval_cls 2 4 "b"].
Proof.
  apply (fill_in_the_gaps_of_a_tiling
           (Tier.mk "t" 1 4 [Interval.mk Interval_cls 1 2 "a";
                             Interval.mk Interval_cls 2 4 "b"])).
  cbn. repeat split; lra.
Defined.

Lemma for_each_ext {S A} (l : list A) (f g : A -> M S unit) :
  (forall x s, In x l -> f x s = g x s) ->
  forall s, for_each l f s = for_each l g s.
Proof.
  induction l as [|x l IH]; intros H s; cbn; [reflexivity|].
  unfold bind. rewrite (H x s) by (left; reflexivity).
  destruct (g x s); [|reflexivity].
  apply IH. intros y s' Hy. apply H. right. exact Hy.
Qed.

Lemma for_each_map {S A B} (h : A -> B) (l : list A) (f : B -> M S unit) :
  forall s, for_each (map h l) f s = for_each l (fun x => f (h x)) s.
Proof.
  induction l as [|x l IH]; intros s; cbn; [reflexivity|].
  unfold bind. destruct (f (h x) s); [apply IH | reflexivity].
Qed.

(** The index loop of [from_points] takes the points two by two. *)
Lemma add_consecutive_step (p q : Interval.t) (r : list Interval.t)
  (self : IntervalTier.t) :
  IntervalTier.add_consecutive (p :: q :: r) self
  = (IntervalTier.add (Point.time p) (Point.time q) (Interval.text p) false
     ;;; IntervalTier.add_consecutive (q :: r)) self.
Proof.
  unfold IntervalTier.add_consecutive.
  cbn [length Nat.sub]. rewrite Nat.sub_0_r.
  cbn [seq for_each nth_error Nat.sub]. unfold bind.
  destruct (IntervalTier.add (Point.time p) (Point.time q)
              (Interval.text p) false self) as [s' []|s' e]; [|reflexivity].
  rewrite <- seq_shift, for_each_map.
  apply for_each_ext. intros i s Hi. apply in_seq in Hi.
  destruct i as [|i]; [lia|]. cbn [Nat.sub nth_error].
  rewrite Nat.sub_0_r. reflexivity.
Qed.

(** An interval that belongs after everything stored is appended, and
    the bounds are widened to it. *)
Lemma interval_appended (self : IntervalTier.t) (s e : Q) (text : string) :
  tier_wf self -> 0 <= s -> s <= e ->
  (forall d, In d (Tier._objects self) ->
             Interval.cls d = Interval_cls
             /\ Interval.start_time d < e
             /\ ~ (Interval.start_time d == s /\ Interval.end_time d == e)) ->
  IntervalTier.add s e text false self
  = Return (Tier.mk (Tier._name self) (py_min (Tier.start_time self) s)
                    (py_max (Tier.end_time self) e)
                    (Tier._objects self ++ [Interval.mk Interval_cls s e text]))
           tt.
Proof.
  intros Hw H0 Hse Hd.
  unfold IntervalTier.add, bind, lift, Interval.new.
  rewrite Interval_init_ok by lra.
  rewrite add_interval_place by (cbn; assumption).
  rewrite place_append; [reflexivity | |].
  - apply Forall_forall. intros d Hin. destruct (Hd d Hin) as [C [L _]].
    unfold op_lt, reflected_first, method_lt. cbn. rewrite C. cbn.
    qprop. exact L.
  - apply Forall_forall. intros d Hin. destruct (Hd d Hin) as [_ [_ N]].
    apply op_eq_false_bounds. exact N.
Qed.

Lemma consecutive_loop (points : list Interval.t) :
  forall self : IntervalTier.t,
    StronglySorted time_lt points ->
    Forall (fun p => 0 <= Point.time p) points ->
    Tier.start_time self = 0 ->
    0 <= Tier.end_time self ->
    (forall p, hd_error points = Some p ->
               Tier.end_time self <= Point.time p
               /\ forall d, In d (Tier._objects self) ->
                            Interval.cls d = Interval_cls
                            /\ Interval.start_time d < Point.time p) ->
    IntervalTier.add_consecutive points self
    = Return (Tier.mk (Tier._name self) 0
                (match points with
                 | _ :: _ :: _ => last_time 0 points
                 | _ => Tier.end_time self
                 end)
                (Tier._objects self ++ consecutive points)) tt.
Proof.
  induction points as [|p points IH]; intros self Hs Hpos S0 E0 Hinv.
  - cbn. rewrite app_nil_r. destruct self. cbn in *. subst. reflexivity.
  - destruct points as [|q r].
    + cbn. rewrite app_nil_r. destruct self. cbn in *. subst. reflexivity.
    + rewrite add_consecutive_step. unfold bind.
      inversion Hs as [|? ? Hs' Hp]; subst.
      inversion Hpos as [|? ? Hp0 Hpos']; subst.
      inversion Hp as [|? ? Hpq _]; subst. unfold time_lt in Hpq.
      destruct (Hinv p eq_refl) as [He Hd].
      rewrite interval_appended;
        [| unfold tier_wf; rewrite S0; split; lra | lra | lra |].
      2:{ intros d Hin. destruct (Hd d Hin) as [C L].
          split; [exact C|]. split; [lra|]. intros [A _]. lra. }
      assert (Hmin : py_min (Tier.start_time self) (Point.time p) = 0).
      { rewrite S0. unfold py_min.
        qcase (Qltb (Point.time p) 0); [lra | reflexivity]. }
      assert (Hmax : py_max (Tier.end_time self) (Point.time q)
                     = Point.time q).
      { unfold py_max.
        qcase (Qltb (Tier.end_time self) (Point.time q));
          [reflexivity | lra]. }
      rewrite Hmin, Hmax.
      rewrite IH; [| exact Hs' | exact Hpos' | reflexivity
                   | cbn; inversion Hpos'; assumption |].
      * cbn [Tier._name Tier._objects Tier.end_time Tier._end_time
             consecutive]. rewrite <- app_assoc. cbn [app].
        f_equal. f_equal.
        destruct r as [|q' r']; [reflexivity|].
        unfold last_time, last_item.
        cbn [length Nat.sub nth_error]. reflexivity.
      * intros p' Hp'. cbn in Hp'. injection Hp' as <-. cbn. split; [lra|].
        intros d Hin. apply in_app_or in Hin. destruct Hin as [Hin|[<-|[]]].
        -- destruct (Hd d Hin) as [C L]. split; [exact C | lra].
        -- split; [reflexivity | cbn; exact Hpq].
Qed.

(** X13. [IntervalTier.from_points] on points at strictly increasing times:
    one interval for each pair of consecutive points, with the text of
    the first of the two, so one less than there are points and none for
    the text of the last point; the tier starts at 0, not at the first
    point, and ends at the last point. *)
Theorem from_points_consecutive (points : list Interval.t) (name : string)
  (Hs : StronglySorted time_lt points)
  (Hpos : Forall (fun p => 0 <= Point.time p) points) :
  IntervalTier.from_points points name
  = Ok (Tier.mk name 0
          (match points with
           | _ :: _ :: _ => last_time 0 points
           | _ => 0
           end)
          (consecutive points))
  /\ length (consecutive points) = (length points - 1)%nat.
Proof.
  split.
  - unfold IntervalTier.from_points.
    change (IntervalTier.new name 0 0)
      with (Ok (Tier.mk name 0 0 ([] : list Interval.t))).
    cbv beta iota.
    rewrite consecutive_loop; try assumption; try reflexivity.
    + cbn. lra.
    + intros p Hp. cbn. split.
      * rewrite Forall_forall in Hpos. apply Hpos.
        destruct points; [discriminate|]. injection Hp as <-.
        left. reflexivity.
      * intros d [].
  - clear. induction points as [|p [|q r] IH]; cbn in *; try reflexivity.
    rewrite IH. lia.
Qed.

Lemma from_points_consecutive_witness :
  IntervalTier.from_points
    [Interval.mk Point_cls 1 1 "a"; Interval.mk Point_cls 2 2 "b";
     Interval.mk Point_cls 3 3 ""] "bar"
  = Ok (Tier.mk "bar" 0 3 [Interval.mk Interval_cls 1 2 "a";
                           Interval.mk Interval_cls 2 3 "b"]).
Proof.
  refine (proj1 (from_points_consecutive
                   [Interval.mk Point_cls 1 1 "a";
                    Interval.mk Point_cls 2 2 "b";
                    Interval.mk Point_cls 3 3 ""] "bar" _ _)).
  - repeat constructor; unfold time_lt; cbn; lra.
  - repeat constructor; cbn; lra.
Defined.

Lemma ends_with_next_head (i : Interval.t) (r : list Interval.t) :
  exists t tl,
    ends_with_next i r
    = Interval.mk Point_cls (Interval.end_time i) (Interval.end_time i) t
      :: tl.
Proof. destruct r; cbn; eauto. Qed.

Lemma ends_with_next_sorted (r : list Interval.t) :
  forall i : Interval.t,
    contiguous (Interval.end_time i) r ->
    StronglySorted time_lt (ends_with_next i r)
    /\ Forall (fun o => Interval.end_time i <= Point.time o)
              (ends_with_next i r).
Proof.
  induction r as [|j r' IH]; intros i C; cbn.
  - split; repeat constructor. cbn. lra.
  - destruct C as [C1 [C2 [_ C4]]]. destruct (IH j C4) as [S F].
    assert (C1' : Interval.start_time j == Interval.end_time i)
      by (rewrite C1; apply Qeq_refl).
    split.
    + constructor; [exact S|]. revert F. apply Forall_impl.
      intros o Ho. unfold time_lt. cbn. lra.
    + constructor; [cbn; lra|]. revert F. apply Forall_impl.
      intros o Ho. lra.
Qed.

Lemma consecutive_cons (p q : Interval.t) (r : list Interval.t) :
  consecutive (p :: q :: r)
  = Interval.mk Interval_cls (Point.time p) (Point.time q) (Interval.text p)
    :: consecutive (q :: r).
Proof. reflexivity. Qed.

Lemma consecutive_ends_with_next (r : list Interval.t) :
  forall i : Interval.t,
    contiguous (Interval.end_time i) r ->
    consecutive (ends_with_next i r) = r.
Proof.
  induction r as [|j r' IH]; intros i C; [reflexivity|].
  destruct C as [C1 [C2 [C3 C4]]].
  cbn [ends_with_next].
  destruct (ends_with_next_head j r') as [t [tl E]].
  pose proof (IH j C4) as R. rewrite E in *.
  rewrite consecutive_cons, R.
  f_equal. destruct j as [c s e txt]. cbn in *. subst. reflexivity.
Qed.

(** The loop of [from_interval_tier] after the first interval, on
    intervals without gaps: the point at the end of the interval before
    is the last one stored, gets the text of the next interval, and a
    point without text follows it. *)
Lemma boundary_loop (r : list Interval.t) :
  forall (i : Interval.t) (pre : list Interval.t) (self : PointTier.t),
    tier_wf self ->
    Tier._objects self
    = pre ++ [Interval.mk Point_cls (Interval.end_time i)
                          (Interval.end_time i) ""] ->
    Forall (fun o => Point.time o <= Interval.end_time i) pre ->
    0 <= Interval.end_time i ->
    contiguous (Interval.end_time i) r ->
    exists self' : PointTier.t,
      for_each r (fun interval =>
        PointTier.add (Interval.start_time interval)
                      (Interval.text interval) true ;;;
        PointTier.add (Interval.end_time interval) "" true) self
      = Return self' tt
      /\ tier_wf self'
      /\ Tier.name self' = Tier.name self
      /\ Tier._objects self' = pre ++ ends_with_next i r.
Proof.
  induction r as [|j r' IH]; intros i pre self Hwf E Fpre H0 C.
  - exists self. cbn. auto.
  - destruct C as [C1 [C2 [C3 C4]]].
    assert (C1' : Interval.start_time j == Interval.end_time i)
      by (rewrite C1; apply Qeq_refl).
    cbn [for_each ends_with_next]. unfold bind at 1. unfold bind at 1.
    (* the point at the start of [j] meets the point at the end of [i] *)
    unfold PointTier.add at 1, bind at 1, lift, Point.new.
    rewrite Interval_init_ok by lra.
    rewrite add_point_place by (cbn; try assumption; lra).
    set (x := Interval.mk Point_cls (Interval.start_time j)
                          (Interval.start_time j) (Interval.text j)).
    destruct (place_last_duplicate same_time x
                (widened self (Point.time x) (Point.time x)) pre
                (Interval.mk Point_cls (Interval.end_time i)
                             (Interval.end_time i) "")) as [_ P].
    { exact E. }
    { apply Forall_app. split.
      - revert Fpre. apply Forall_impl. intros o Ho.
        rewrite op_lt_point by reflexivity. cbn. qprop.
        unfold Point.time in Ho. lra.
      - constructor; [|constructor].
        rewrite op_lt_point by reflexivity. cbn. qprop. lra. }
    { unfold same_time. cbn. qprop. lra. }
    rewrite P. clear P.
    set (s1 := Tier.mk _ _ _ _).
    assert (W1 : tier_wf s1).
    { apply (widened_wf self _ _ Hwf). cbn. lra. }
    (* the point at the end of [j] comes after all of them *)
    unfold PointTier.add, bind at 1, lift, Point.new.
    rewrite Interval_init_ok by lra.
    rewrite add_point_place by (cbn; try assumption; lra).
    set (y := Interval.mk Point_cls (Interval.end_time j)
                          (Interval.end_time j) "").
    set (pre' := pre ++ [Interval.mk Point_cls (Interval.end_time i)
                                     (Interval.end_time i)
                                     (Interval.text j)]).
    assert (Fpre' : Forall (fun o => Point.time o <= Interval.end_time i)
                           pre').
    { apply Forall_app. split; [exact Fpre|].
      constructor; [cbn; lra | constructor]. }
    rewrite (place_insert same_time y true _ pre' []).
    + destruct (IH j pre' (Tier.mk (Tier._name s1)
                             (py_min (Tier._start_time s1) (Point.time y))
                             (py_max (Tier._end_time s1) (Point.time y))
                             (pre' ++ [y])))
        as [self' [R [W [N O]]]].
      * apply (widened_wf s1 (Point.time y) (Point.time y) W1). cbn. lra.
      * reflexivity.
      * revert Fpre'. apply Forall_impl. intros o Ho. lra.
      * lra.
      * exact C4.
      * exists self'. split; [exact R|]. split; [exact W|].
        split; [exact N|]. rewrite O. unfold pre'.
        rewrite <- app_assoc. reflexivity.
    + rewrite app_nil_r. reflexivity.
    + revert Fpre'. apply Forall_impl. intros o Ho.
      rewrite op_lt_point by reflexivity. cbn. qprop.
      unfold Point.time in Ho. lra.
    + constructor.
    + rewrite app_nil_r. revert Fpre'. apply Forall_impl. intros o Ho.
      unfold same_time. cbn. qprop. lra.
Qed.

Lemma named_tier (name source : string) :
  (self <- get ;;
   if String.eqb (Tier.name self) ""
   then Tier.name_setter source else ret tt)
    (Tier.mk name 0 0 ([] : list Interval.t))
  = Return (Tier.mk (derived_name name source) 0 0 []) tt.
Proof.
  unfold bind, get, derived_name, Tier.name. cbn [Tier._name].
  destruct (String.eqb name ""); reflexivity.
Qed.

Lemma from_interval_tier_gapless (tier : Tier.t Interval.t) (name : string) :
  gapless (Tier._objects tier) ->
  exists pt : PointTier.t,
    PointTier.from_interval_tier tier name = Ok pt
    /\ Tier.name pt = derived_name name (Tier.name tier)
    /\ Tier._objects pt = boundary_points (Tier._objects tier).
Proof.
  intros G. unfold PointTier.from_interval_tier.
  change (PointTier.new name 0 0)
    with (Ok (Tier.mk name 0 0 ([] : list Interval.t))).
  cbv beta iota. unfold bind at 1.
  rewrite (named_tier name (Tier.name tier)).
  set (t0 := Tier.mk (derived_name name (Tier.name tier)) 0 0
                     ([] : list Interval.t)).
  destruct (Tier._objects tier) as [|i r].
  - cbn. eexists. split; [reflexivity|]. split; reflexivity.
  - destruct G as [G0 [_ [G2 [_ G4]]]].
    cbn [for_each boundary_points]. unfold bind at 1. unfold bind at 1.
    assert (W0 : tier_wf t0) by (split; cbn; lra).
    unfold PointTier.add at 1, bind at 1, lift, Point.new.
    rewrite Interval_init_ok by lra.
    rewrite add_point_place by (cbn; try assumption; lra).
    set (x := Interval.mk Point_cls (Interval.start_time i)
                          (Interval.start_time i) (Interval.text i)).
    rewrite (place_insert same_time x true _ [] []);
      [| reflexivity | constructor | constructor | constructor].
    set (s1 := Tier.mk _ _ _ _).
    assert (W1 : tier_wf s1).
    { apply (widened_wf t0 (Point.time x) (Point.time x) W0). cbn. lra. }
    unfold PointTier.add at 1, bind at 1, lift, Point.new.
    rewrite Interval_init_ok by lra.
    rewrite add_point_place by (cbn; try assumption; lra).
    set (y := Interval.mk Point_cls (Interval.end_time i)
                          (Interval.end_time i) "").
    rewrite (place_insert same_time y true _ [x] []).
    + match goal with
      | |- context [for_each r _ ?s] =>
          destruct (boundary_loop r i [x] s) as [self' [R [W [N O]]]]
      end.
      * apply (widened_wf s1 (Point.time y) (Point.time y) W1). cbn. lra.
      * reflexivity.
      * constructor; [cbn; lra | constructor].
      * lra.
      * exact G4.
      * rewrite R. exists self'.
        split; [reflexivity|]. split; [exact N | exact O].
    + reflexivity.
    + constructor; [|constructor].
      rewrite op_lt_point by reflexivity. cbn. qprop. lra.
    + constructor.
    + constructor; [|constructor]. unfold same_time. cbn. qprop. lra.
Qed.

(** X14. [PointTier.from_interval_tier] on intervals without gaps gives one
    point for each boundary: the start of the first interval, then the
    end of each interval, where the point carries the text of the
    interval that starts there and the last point carries none.  The
    tier takes the name of the interval tier when none is asked for. *)
Theorem from_interval_tier_boundary_points (tier : Tier.t Interval.t)
  (name : string) (Hgapless : gapless (Tier._objects tier)) :
  exists pt : PointTier.t,
    PointTier.from_interval_tier tier name = Ok pt
    /\ Tier.name pt = derived_name name (Tier.name tier)
    /\ Tier._objects pt = boundary_points (Tier._objects tier)
    /\ length (Tier._objects pt)
       = match Tier._objects tier with
         | [] => 0%nat
         | _ => S (length (Tier._objects tier))
         end.
Proof.
  destruct (from_interval_tier_gapless tier name Hgapless)
    as [pt [R [N O]]].
  exists pt. split; [exact R|]. split; [exact N|]. split; [exact O|].
  rewrite O. clear. destruct (Tier._objects tier) as [|i r]; [reflexivity|].
  cbn. f_equal. revert i.
  induction r as [|j r IH]; intros i; cbn; [reflexivity|].
  rewrite IH. reflexivity.
Qed.

Lemma from_interval_tier_boundary_points_witness :
  exists pt : PointTier.t,
    PointTier.from_interval_tier
      (Tier.mk "it" 0 4 [Interval.mk Interval_cls 1 2 "a";
                         Interval.mk Interval_cls 2 4 "b"]) "" = Ok pt
    /\ Tier._objects pt
       = boundary_points [Interval.mk Interval_cls 1 2 "a";
                          Interval.mk Interval_cls 2 4 "b"].
Proof.
  destruct (from_interval_tier_boundary_points
              (Tier.mk "it" 0 4 [Interval.mk Interval_cls 1 2 "a";
                                 Interval.mk Interval_cls 2 4 "b"]) "")
    as [pt [H1 [_ [H2 _]]]].
  - cbn. repeat split; lra.
  - exists pt. split; assumption.
Defined.

Lemma boundary_points_sorted (objs : list Interval.t) :
  gapless objs ->
  StronglySorted time_lt (boundary_points objs)
  /\ Forall (fun p => 0 <= Point.time p) (boundary_points objs).
Proof.
  destruct objs as [|i r]; intros G; cbn; [split; constructor|].
  destruct G as [G0 [_ [G2 [_ G4]]]].
  destruct (ends_with_next_sorted r i G4) as [S F].
  split.
  - constructor; [exact S|]. revert F. apply Forall_impl.
    intros o Ho. unfold time_lt. cbn. lra.
  - constructor; [cbn; lra|]. revert F. apply Forall_impl.
    intros o Ho. lra.
Qed.

(** X15. Round trip: an interval tier without gaps, turned into a point tier
    by [from_interval_tier] and back by [from_point_tier], has the same
    intervals (bounds and texts) in the same order, and its name when no
    name is asked for on the way. *)
Theorem interval_tier_round_trip (tier : Tier.t Interval.t)
  (Hgapless : gapless (Tier._objects tier)) :
  exists (pt : PointTier.t) (it : IntervalTier.t),
    PointTier.from_interval_tier tier "" = Ok pt
    /\ IntervalTier.from_point_tier pt "" = Ok it
    /\ Tier.name it = Tier.name tier
    /\ Tier._objects it = Tier._objects tier.
Proof.
  destruct (from_interval_tier_gapless tier "" Hgapless)
    as [pt [R [N O]]].
  exists pt. unfold IntervalTier.from_point_tier.
  change (IntervalTier.new "" 0 0)
    with (Ok (Tier.mk "" 0 0 ([] : list Interval.t))).
  cbv beta iota. unfold bind at 1.
  rewrite (named_tier "" (Tier.name pt)).
  destruct (boundary_points_sorted _ Hgapless) as [S F].
  rewrite consecutive_loop.
  - eexists. split; [exact R|]. split; [reflexivity|].
    cbn [Tier.name Tier._name Tier._objects app].
    split.
    + unfold derived_name in *. cbn in *. exact N.
    + rewrite O. destruct (Tier._objects tier) as [|i r]; [reflexivity|].
      destruct Hgapless as [_ [_ [G2 [G3 G4]]]].
      cbn [boundary_points].
      destruct (ends_with_next_head i r) as [t [tl E]].
      pose proof (consecutive_ends_with_next r i G4) as C.
      rewrite E in *. rewrite consecutive_cons, C.
      f_equal. destruct i as [c s e txt]. cbn in *. subst. reflexivity.
  - rewrite O. exact S.
  - rewrite O. exact F.
  - reflexivity.
  - cbn. lra.
  - intros p Hp. cbn [Tier.end_time Tier._end_time Tier._objects]. split.
    + rewrite O in Hp. rewrite Forall_forall in F. apply F.
      destruct (boundary_points (Tier._objects tier)); [discriminate|].
      injection Hp as <-. left. reflexivity.
    + intros d [].
Qed.

Lemma interval_tier_round_trip_witness :
  exists (pt : PointTier.t) (it : IntervalTier.t),
    PointTier.from_interval_tier
      (Tier.mk "it" 0 4 [Interval.mk Interval_cls 1 2 "a";
                         Interval.mk Interval_cls 2 4 "b"]) "" = Ok pt
    /\ IntervalTier.from_point_tier pt "" = Ok it
    /\ Tier._objects it = [Interval.mk Interval_cls 1 2 "a";
                           Interval.mk Interval_cls 2 4 "b"].
Proof.
  destruct (interval_tier_round_trip
              (Tier.mk "it" 0 4 [Interval.mk Interval_cls 1 2 "a";
                                 Interval.mk Interval_cls 2 4 "b"]))
    as [pt [it [H1 [H2 [_ H3]]]]].
  - cbn. repeat split; lra.
  - exists pt, it. repeat split; assumption.
Defined.

(* ================================================================== *)
(** * More of the code: the document container                         *)
(* ================================================================== *)

Lemma py_getitem_nth {A} (l : list A) (j : nat) (x : A) :
  nth_error l j = Some x -> py_getitem l (Z.of_nat j) = Ok x.
Proof.
  intros E. unfold py_getitem.
  assert (L : (j < length l)%nat)
    by (apply nth_error_Some; congruence).
  assert (B1 : (Z.of_nat j <? 0)%Z = false) by (apply Z.ltb_ge; lia).
  assert (B2 : (Z.of_nat (length l) <=? Z.of_nat j)%Z = false)
    by (apply Z.leb_gt; lia).
  cbv zeta. rewrite B1. cbv iota. rewrite B1, B2. cbn [orb].
  rewrite Nat2Z.id, E. reflexivity.
Qed.

Lemma index_from_spec (name : string) (objs : list tier) :
  forall k : nat,
    match TextGrid.index_from k objs name with
    | None =>
        TextGrid.find_by_name objs name = None
        /\ existsb (fun x => String.eqb (Tier.name (tier_state x)) name) objs
           = false
    | Some i =>
        exists (j : nat) (x : tier),
          i = (k + j)%nat
          /\ nth_error objs j = Some x
          /\ Tier.name (tier_state x) = name
          /\ TextGrid.find_by_name objs name = Some x
          /\ existsb (fun x => String.eqb (Tier.name (tier_state x)) name)
                     objs = true
          /\ forall j' y, (j' < j)%nat -> nth_error objs j' = Some y ->
                          Tier.name (tier_state y) <> name
    end.
Proof.
  induction objs as [|x objs IH]; intros k; cbn.
  - split; reflexivity.
  - destruct (String.eqb_spec (Tier.name (tier_state x)) name) as [E|E].
    + exists 0%nat, x. rewrite Nat.add_0_r. repeat split; auto.
      intros j' y Hj. lia.
    + specialize (IH (S k)).
      destruct (TextGrid.index_from (S k) objs name) as [i|].
      * destruct IH as [j [y [Ei [N [Nm [F [Ex Hf]]]]]]].
        exists (S j), y. cbn. repeat split; auto; [lia|].
        intros [|j'] z Hj Hz; cbn in Hz.
        -- injection Hz as <-. exact E.
        -- apply (Hf j' z); [lia | exact Hz].
      * exact IH.
Qed.

(** X16. The three ways to look a tier up by name agree: [index(name)] is
    [None] exactly when [name in tg] is false and [tg[name]] is [None];
    otherwise it is the position of the first tier of that name, the
    tier [tg[name]] returns and [tg[index]] returns too. *)
Theorem lookup_by_name_agrees (tg : TextGrid.t) (name : string) :
  match TextGrid.index tg name with
  | None =>
      TextGrid.__contains__ tg name = false
      /\ TextGrid.__getitem__ tg (TextGrid.KStr name) = Ok None
  | Some i =>
      TextGrid.__contains__ tg name = true
      /\ exists x : tier,
           TextGrid.__getitem__ tg (TextGrid.KStr name) = Ok (Some x)
           /\ TextGrid.__getitem__ tg (TextGrid.KInt (Z.of_nat i))
              = Ok (Some x)
           /\ Tier.name (tier_state x) = name
           /\ forall j y, (j < i)%nat ->
                          nth_error (Tier._objects tg) j = Some y ->
                          Tier.name (tier_state y) <> name
  end.
Proof.
  unfold TextGrid.index, TextGrid.__contains__, TextGrid.__getitem__.
  pose proof (index_from_spec name (Tier._objects tg) 0) as H.
  destruct (TextGrid.index_from 0 (Tier._objects tg) name) as [i|].
  - destruct H as [j [x [Ei [N [Nm [F [Ex Hf]]]]]]]. cbn in Ei. subst i.
    split; [exact Ex|]. exists x. rewrite F, (py_getitem_nth _ _ _ N).
    repeat split; auto.
  - destruct H as [F Ex]. rewrite F, Ex. split; reflexivity.
Qed.

Lemma del_at_app {A} (l1 l2 : list A) (x : A) :
  TextGrid.del_at (length l1) (l1 ++ x :: l2) = l1 ++ l2.
Proof.
  unfold TextGrid.del_at.
  rewrite firstn_app, Nat.sub_diag, firstn_all, firstn_O, app_nil_r.
  replace (S (length l1)) with (length (l1 ++ [x]))
    by (rewrite length_app; cbn; lia).
  replace (l1 ++ x :: l2) with ((l1 ++ [x]) ++ l2)
    by (rewrite <- app_assoc; reflexivity).
  rewrite skipn_app, Nat.sub_diag, skipn_all. reflexivity.
Qed.

(** Deleting at the collected positions, from the last one down, takes
    out exactly the tiers of that name. *)
Lemma delete_collected (name : string) (l : list tier) :
  forall orig cur : list tier,
    fold_left (fun objs t => TextGrid.del_at t objs)
      (filter (fun t => match nth_error (l ++ orig) t with
                        | Some x => String.eqb (Tier.name (tier_state x)) name
                        | None => false
                        end)
              (rev (seq 0 (length l))))
      (l ++ cur)
    = filter (other_name name) l ++ cur.
Proof.
  induction l as [|x l IH] using rev_ind; intros orig cur.
  - reflexivity.
  - rewrite length_app. cbn [length]. rewrite Nat.add_1_r.
    rewrite seq_S, rev_app_distr. cbn [rev app filter Nat.add].
    rewrite nth_error_app1 by (rewrite length_app; cbn; lia).
    rewrite nth_error_app2 by lia. rewrite Nat.sub_diag. cbn [nth_error].
    rewrite filter_app. cbn [filter]. unfold other_name at 2.
    rewrite <- !app_assoc. cbn [app].
    destruct (String.eqb (Tier.name (tier_state x)) name); cbn [negb].
    + cbn [fold_left app]. rewrite del_at_app. apply IH.
    + apply IH.
Qed.

Lemma filter_other_name_absent (name : string) (l : list tier) :
  existsb (fun x => String.eqb (Tier.name (tier_state x)) name)
          (filter (other_name name) l) = false.
Proof.
  induction l as [|x l IH]; cbn; [reflexivity|].
  unfold other_name at 1.
  destruct (String.eqb (Tier.name (tier_state x)) name) eqn:E; cbn;
    [exact IH | rewrite E; exact IH].
Qed.

(** X17. [del tg[name]] never raises; it removes every tier of that name and
    keeps the others in their order, so that [name in tg] is false
    afterwards; the name and the bounds of the document stay. *)
Theorem delitem_by_name (tg : TextGrid.t) (name : string) :
  TextGrid.__delitem__ (TextGrid.KStr name) tg
  = Return (with_objects tg (filter (other_name name) (Tier._objects tg))) tt
  /\ TextGrid.__contains__
       (with_objects tg (filter (other_name name) (Tier._objects tg))) name
     = false.
Proof.
  split.
  - unfold TextGrid.__delitem__, TextGrid.to_remove, Tier.set_objects,
      with_objects. f_equal. f_equal.
    pose proof (delete_collected name (Tier._objects tg) [] []) as H.
    rewrite !app_nil_r in H. exact H.
  - unfold TextGrid.__contains__. cbn. apply filter_other_name_absent.
Qed.


(** X19. [insert(index, tier)] for [0 <= index <= len(tg)] puts the tier at
    that position, where [tg[index]] then finds it, keeps the other
    tiers in their order and, unlike [append], leaves the bounds of the
    document alone; any other index, a negative one included, raises
    [IndexError] and leaves the document as it was. *)
Theorem insert_at (tg : TextGrid.t) (index : Z) (x : tier) :
  ((0 <= index <= Z.of_nat (length (Tier._objects tg)))%Z ->
   exists l1 l2 : list tier,
     Tier._objects tg = l1 ++ l2
     /\ length l1 = Z.to_nat index
     /\ TextGrid.insert index x tg
        = Return (with_objects tg (l1 ++ x :: l2)) tt
     /\ TextGrid.__getitem__ (with_objects tg (l1 ++ x :: l2))
                             (TextGrid.KInt index) = Ok (Some x))
  /\ ((index < 0 \/ Z.of_nat (length (Tier._objects tg)) < index)%Z ->
      TextGrid.insert index x tg = Raise tg IndexError).
Proof.
  unfold TextGrid.insert. split; intros H.
  - destruct (Z.ltb_spec index 0) as [A|A]; [lia|].
    destruct (Z.ltb_spec (Z.of_nat (length (Tier._objects tg))) index)
      as [B|B]; [lia|]. cbn [orb].
    exists (firstn (Z.to_nat index) (Tier._objects tg)),
           (skipn (Z.to_nat index) (Tier._objects tg)).
    assert (L : length (firstn (Z.to_nat index) (Tier._objects tg))
                = Z.to_nat index) by (rewrite length_firstn; lia).
    split; [symmetry; apply firstn_skipn|]. split; [exact L|].
    split; [reflexivity|].
    unfold TextGrid.__getitem__, rbind. cbn [with_objects Tier._objects].
    set (k := Z.to_nat index) in *.
    replace index with (Z.of_nat k) by (unfold k; lia).
    rewrite (py_getitem_nth _ _ x); [reflexivity|].
    rewrite nth_error_app2 by lia. rewrite L, Nat.sub_diag. reflexivity.
  - destruct (Z.ltb_spec index 0) as [A|A]; [reflexivity|].
    destruct (Z.ltb_spec (Z.of_nat (length (Tier._objects tg))) index)
      as [B|B]; [reflexivity | lia].
Qed.

Lemma insert_at_witness :
  TextGrid.insert (-1) (PointTier_obj (Tier.mk "z" 0 9 []))
    (Tier.mk "tg" 0 0 [PointTier_obj (Tier.mk "a" 0 0 [])])
  = Raise (Tier.mk "tg" 0 0 [PointTier_obj (Tier.mk "a" 0 0 [])]) IndexError.
Proof.
  apply (proj2 (insert_at (Tier.mk "tg" 0 0 [PointTier_obj (Tier.mk "a" 0 0 [])])
                  (-1) (PointTier_obj (Tier.mk "z" 0 9 [])))).
  left. lia.
Defined.

Lemma append_widens (tg : TextGrid.t) (x : tier) (name : option string) :
  tier_wf tg -> 0 <= Tier.start_time (tier_state x) ->
  TextGrid.append x name tg
  = Return (Tier.mk (Tier._name tg)
              (py_min (Tier.start_time tg) (Tier.start_time (tier_state x)))
              (py_max (Tier.end_time tg) (Tier.end_time (tier_state x)))
              (Tier._objects tg
               ++ [match name with Some n => renamed n x | None => x end]))
           tt.
Proof.
  intros [H0 H1] Hx. unfold TextGrid.append, bind, get.
  unfold Tier.start_time, Tier.end_time in *.
  destruct (py_min_spec (Tier._start_time tg)
                        (Tier._start_time (tier_state x))) as [[M1 M2]|[M1 M2]];
  destruct (py_max_spec (Tier._end_time tg)
                        (Tier._end_time (tier_state x))) as [[N1 N2]|[N1 N2]];
  (rewrite start_time_setter_ok;
   [| rewrite M2; lra | unfold Tier.end_time; rewrite M2; lra]);
  cbn [Tier._end_time Tier._start_time Tier._name Tier._objects];
  (rewrite end_time_setter_ok;
   [| rewrite N2; lra
    | unfold Tier.start_time; cbn [Tier._start_time]; rewrite M2, N2; lra]);
  destruct name; reflexivity.
Qed.

(** X20. [append(tier, name)] on a document with well-formed bounds always
    returns: the tier, or with a [name] a copy of it under that name
    with the same class, bounds and contents, becomes the last tier, and
    the bounds of the document are widened to cover those of the tier. *)
Theorem append_stores_and_widens (tg : TextGrid.t) (x : tier)
  (name : option string)
  (Hwf : tier_wf tg) (Hx : 0 <= Tier.start_time (tier_state x)) :
  exists tg' : TextGrid.t,
    TextGrid.append x name tg = Return tg' tt
    /\ Tier._objects tg'
       = Tier._objects tg
         ++ [match name with Some n => renamed n x | None => x end]
    /\ TextGrid.get_tier_names tg'
       = TextGrid.get_tier_names tg
         ++ [match name with
             | Some n => n
             | None => Tier.name (tier_state x)
             end]
    /\ Tier.name tg' = Tier.name tg
    /\ Tier.start_time tg' <= Tier.start_time tg
    /\ Tier.start_time tg' <= Tier.start_time (tier_state x)
    /\ Tier.end_time tg <= Tier.end_time tg'
    /\ Tier.end_time (tier_state x) <= Tier.end_time tg'.
Proof.
  rewrite (append_widens tg x name Hwf Hx). eexists.
  split; [reflexivity|]. cbn [Tier._objects]. split; [reflexivity|]. split.
  - unfold TextGrid.get_tier_names. cbn [Tier._objects].
    rewrite map_app. cbn. f_equal. f_equal.
    destruct name; [|reflexivity]. destruct x; reflexivity.
  - cbn. split; [reflexivity|].
    destruct (py_min_spec (Tier.start_time tg)
                          (Tier.start_time (tier_state x)))
      as [[? ->]|[? ->]];
    destruct (py_max_spec (Tier.end_time tg) (Tier.end_time (tier_state x)))
      as [[? ->]|[? ->]]; repeat split; lra.
Qed.

Lemma append_stores_and_widens_witness :
  exists tg' : TextGrid.t,
    TextGrid.append (PointTier_obj (Tier.mk "pt" 1 9 [])) (Some "copy"%string)
                    (Tier.mk "tg" 0 4 []) = Return tg' tt
    /\ TextGrid.get_tier_names tg' = ["copy"%string].
Proof.
  destruct (append_stores_and_widens (Tier.mk "tg" 0 4 [])
              (PointTier_obj (Tier.mk "pt" 1 9 [])) (Some "copy"%string))
    as [tg' [H1 [_ [H2 _]]]].
  - split; cbn; lra.
  - cbn. lra.
  - exists tg'. split; assumption.
Defined.

Lemma extend_loop (tiers : list tier) :
  forall tg : TextGrid.t,
    tier_wf tg ->
    Forall (fun x => 0 <= Tier.start_time (tier_state x)) tiers ->
    exists tg' : TextGrid.t,
      TextGrid.extend tiers tg = Return tg' tt
      /\ tier_wf tg'
      /\ Tier.name tg' = Tier.name tg
      /\ Tier._objects tg' = Tier._objects tg ++ tiers
      /\ Tier.start_time tg' <= Tier.start_time tg
      /\ Tier.end_time tg <= Tier.end_time tg'
      /\ Forall (fun x => Tier.start_time tg' <= Tier.start_time (tier_state x)
                          /\ Tier.end_time (tier_state x) <= Tier.end_time tg')
                tiers.
Proof.
  induction tiers as [|x tiers IH]; intros tg Hwf Hpos.
  - exists tg. cbn. rewrite app_nil_r. repeat split; auto; try lra.
    apply Hwf. apply Hwf.
  - inversion Hpos as [|? ? Hx Hpos']; subst.
    unfold TextGrid.extend. cbn [for_each]. unfold bind.
    rewrite (append_widens tg x None Hwf Hx).
    set (tg1 := Tier.mk _ _ _ _).
    assert (B : Tier.start_time tg1 <= Tier.start_time tg
                /\ Tier.start_time tg1 <= Tier.start_time (tier_state x)
                /\ Tier.end_time tg <= Tier.end_time tg1
                /\ Tier.end_time (tier_state x) <= Tier.end_time tg1
                /\ 0 <= Tier.start_time tg1).
    { unfold tg1. cbn. destruct Hwf as [H0 H1].
      destruct (py_min_spec (Tier.start_time tg)
                            (Tier.start_time (tier_state x)))
        as [[? ->]|[? ->]];
      destruct (py_max_spec (Tier.end_time tg)
                            (Tier.end_time (tier_state x)))
        as [[? ->]|[? ->]]; repeat split; lra. }
    destruct B as [B1 [B2 [B3 [B4 B5]]]].
    assert (W1 : tier_wf tg1).
    { destruct Hwf as [H0 H1]. split; [exact B5 | lra]. }
    destruct (IH tg1 W1 Hpos') as [tg' [R [W [N [O [S1 [E1 F]]]]]]].
    exists tg'. split; [exact R|]. split; [exact W|].
    split; [rewrite N; reflexivity|].
    split; [rewrite O; unfold tg1; cbn; rewrite <- app_assoc; reflexivity|].
    split; [lra|]. split; [lra|].
    constructor; [split; lra | exact F].
Qed.

(** X21. [extend(tiers)] on a document with well-formed bounds appends the
    tiers in their order and leaves the bounds of the document covering
    the old bounds and the bounds of every tier given. *)
Theorem extend_appends_in_order (tg : TextGrid.t) (tiers : list tier)
  (Hwf : tier_wf tg)
  (Hpos : Forall (fun x => 0 <= Tier.start_time (tier_state x)) tiers) :
  exists tg' : TextGrid.t,
    TextGrid.extend tiers tg = Return tg' tt
    /\ TextGrid.get_tier_names tg'
       = TextGrid.get_tier_names tg
         ++ map (fun x => Tier.name (tier_state x)) tiers
    /\ Tier._objects tg' = Tier._objects tg ++ tiers
    /\ Tier.start_time tg' <= Tier.start_time tg
    /\ Tier.end_time tg <= Tier.end_time tg'
    /\ Forall (fun x => Tier.start_time tg' <= Tier.start_time (tier_state x)
                        /\ Tier.end_time (tier_state x) <= Tier.end_time tg')
              tiers.
Proof.
  destruct (extend_loop tiers tg Hwf Hpos)
    as [tg' [R [_ [_ [O [S1 [E1 F]]]]]]].
  exists tg'. split; [exact R|]. split.
  - unfold TextGrid.get_tier_names. rewrite O, map_app. reflexivity.
  - repeat split; assumption.
Qed.

Lemma extend_appends_in_order_witness :
  exists tg' : TextGrid.t,
    TextGrid.extend [PointTier_obj (Tier.mk "pt_foo" 0 3 []);
                     IntervalTier_obj (Tier.mk "it_bar" 1 7 [])]
                    (Tier.mk "bar" 0 0 [IntervalTier_obj (Tier.mk "it_foo" 0 0 [])])
    = Return tg' tt
    /\ TextGrid.get_tier_names tg'
       = ["it_foo"; "pt_foo"; "it_bar"]%string.
Proof.
  destruct (extend_appends_in_order
              (Tier.mk "bar" 0 0 [IntervalTier_obj (Tier.mk "it_foo" 0 0 [])])
              [PointTier_obj (Tier.mk "pt_foo" 0 3 []);
               IntervalTier_obj (Tier.mk "it_bar" 1 7 [])])
    as [tg' [H1 [H2 _]]].
  - split; cbn; lra.
  - repeat constructor; cbn; lra.
  - exists tg'. split; assumption.
Defined.

(* ================================================================== *)
(** ** More of the code: segment names                                 *)
(* ================================================================== *)

Lemma digit_is_lower (c : ascii) (d : N) :
  Str.digit_of c = Some d -> lower_char c = c.
Proof.
  destruct c as [[] [] [] [] [] [] [] []]; vm_compute; intros H;
    first [reflexivity | discriminate H].
Qed.

Lemma int_of_digit (c : ascii) (d : N) :
  Str.digit_of c = Some d -> Str.int (String c EmptyString) = Ok (Z.of_N d).
Proof.
  destruct c as [[] [] [] [] [] [] [] []]; vm_compute; intros H;
    first [discriminate H | injection H as <-; reflexivity].
Qed.

Lemma digit_bound (c : ascii) (d : N) :
  Str.digit_of c = Some d -> (d <= 9)%N.
Proof.
  unfold Str.digit_of.
  destruct ((48 <=? N_of_ascii c) && (N_of_ascii c <=? 57))%N eqn:E;
    [|discriminate].
  intros H. injection H as <-.
  apply andb_true_iff in E. destruct E as [E1 E2].
  apply N.leb_le in E1, E2. lia.
Qed.

Lemma digit_char (c c' : ascii) (d : N) :
  Str.digit_of c = Some d -> Str.digit_of c' = Some d -> c = c'.
Proof.
  unfold Str.digit_of.
  destruct ((48 <=? N_of_ascii c) && (N_of_ascii c <=? 57))%N eqn:E;
    [|discriminate].
  destruct ((48 <=? N_of_ascii c') && (N_of_ascii c' <=? 57))%N eqn:E';
    [|discriminate].
  intros H H'. injection H as <-. injection H' as H'.
  apply andb_true_iff in E, E'. destruct E as [E1 _], E' as [E1' _].
  apply N.leb_le in E1, E1'.
  assert (Q : N_of_ascii c = N_of_ascii c') by lia.
  rewrite <- (ascii_N_embedding c), <- (ascii_N_embedding c'), Q.
  reflexivity.
Qed.

Lemma find_char_range (c : ascii) (s : string) :
  forall i k, find_char c s i = Some k ->
              (i <= k < i + String.length s)%nat.
Proof.
  induction s as [|d r IH]; intros i k H; cbn in H; [discriminate|].
  destruct (Ascii.eqb d c).
  - injection H as <-. cbn. lia.
  - apply IH in H. cbn. lia.
Qed.

Lemma find_char_same (c c' : ascii) (s : string) :
  forall i k, find_char c s i = Some k -> find_char c' s i = Some k -> c = c'.
Proof.
  induction s as [|d r IH]; intros i k H H'; cbn in H, H'; [discriminate|].
  destruct (Ascii.eqb d c) eqn:E; destruct (Ascii.eqb d c') eqn:E'.
  - apply Ascii.eqb_eq in E, E'. congruence.
  - injection H as <-. apply find_char_range in H'. lia.
  - injection H' as <-. apply find_char_range in H. lia.
  - exact (IH _ _ H H').
Qed.

Lemma seg_name2id_value (c0 c1 : ascii) (rest : string) (k : nat) (d : N) :
  find_char (lower_char c0) "gbry" 0 = Some k ->
  Str.digit_of c1 = Some d ->
  seg_name2id (String c0 (String c1 rest))
  = Ok (Qpower 2 (Z.of_nat k + 4 * (Z.of_N d - 1))).
Proof.
  intros Hk Hd. unfold seg_name2id. cbn [lower]. rewrite Hk.
  rewrite (digit_is_lower c1 d Hd), (int_of_digit c1 d Hd).
  f_equal. f_equal. lia.
Qed.

Lemma two_power (z : Z) :
  (0 <= z)%Z -> Qpower 2 z == inject_Z (2 ^ z).
Proof.
  intros H. rewrite (Zpower_Qpower 2 z H). reflexivity.
Qed.

(** X22. [seg_name2id]: a name whose first letter is none of g, b, r, y, in
    either case, has id 1 whatever follows, and so does that letter
    alone raise [IndexError]; a name that starts with the letter of
    index [k] in "gbry" and the digit [d] has the id [2 ** (k + 4 * (d - 1))],
    a whole number (a power of two) when the digit is not 0, and the
    characters after the second are ignored. *)
Theorem seg_name2id_codes (c0 c1 : ascii) (rest : string) :
  match find_char (lower_char c0) "gbry" 0 with
  | None => seg_name2id (String c0 (String c1 rest)) = Ok 1
            /\ seg_name2id (String c0 EmptyString) = Ok 1
  | Some k =>
      (k < 4)%nat
      /\ seg_name2id (String c0 EmptyString) = Err IndexError
      /\ forall d : N,
           Str.digit_of c1 = Some d ->
           seg_name2id (String c0 (String c1 rest))
           = Ok (Qpower 2 (Z.of_nat k + 4 * (Z.of_N d - 1)))
           /\ ((1 <= d)%N ->
               Qpower 2 (Z.of_nat k + 4 * (Z.of_N d - 1))
               == inject_Z (2 ^ (Z.of_nat k + 4 * (Z.of_N d - 1))))
  end.
Proof.
  destruct (find_char (lower_char c0) "gbry" 0) as [k|] eqn:Hk.
  - split; [apply find_char_range in Hk; cbn in Hk; lia|]. split.
    + unfold seg_name2id. cbn [lower]. rewrite Hk. reflexivity.
    + intros d Hd. split; [exact (seg_name2id_value c0 c1 rest k d Hk Hd)|].
      intros H1. apply two_power. lia.
  - split; unfold seg_name2id; cbn [lower]; rewrite Hk; reflexivity.
Qed.

(** X23. [seg_name2id] tells the recognised names apart: two names that start
    with a letter of "gbry" (in either case) and a digit from 1 to 9
    have the same id only if they have the same letter, up to case, and
    the same digit. *)
Theorem seg_name2id_injective (c0 c1 c0' c1' : ascii) (rest rest' : string)
  (k k' : nat) (d d' : N)
  (Hk : find_char (lower_char c0) "gbry" 0 = Some k)
  (Hk' : find_char (lower_char c0') "gbry" 0 = Some k')
  (Hd : Str.digit_of c1 = Some d) (Hd' : Str.digit_of c1' = Some d')
  (H1 : (1 <= d)%N) (H1' : (1 <= d')%N) :
  exists v v' : Q,
    seg_name2id (String c0 (String c1 rest)) = Ok v
    /\ seg_name2id (String c0' (String c1' rest')) = Ok v'
    /\ (v == v' -> lower_char c0 = lower_char c0' /\ c1 = c1').
Proof.
  exists (Qpower 2 (Z.of_nat k + 4 * (Z.of_N d - 1))),
         (Qpower 2 (Z.of_nat k' + 4 * (Z.of_N d' - 1))).
  split; [exact (seg_name2id_value c0 c1 rest k d Hk Hd)|].
  split; [exact (seg_name2id_value c0' c1' rest' k' d' Hk' Hd')|].
  intros E. rewrite !two_power in E by lia.
  apply (proj1 (inject_Z_injective _ _)) in E.
  apply Z.pow_inj_r in E; try lia.
  pose proof (find_char_range _ _ _ _ Hk) as R.
  pose proof (find_char_range _ _ _ _ Hk') as R'. cbn in R, R'.
  assert (K : k = k') by lia. assert (D : d = d') by lia. subst k' d'.
  split; [exact (find_char_same _ _ _ _ _ Hk Hk')
         | exact (digit_char _ _ _ Hd Hd')].
Qed.

Lemma seg_name2id_injective_witness :
  exists v v' : Q,
    seg_name2id "G1abc" = Ok v
    /\ seg_name2id "g1" = Ok v'
    /\ (v == v' -> lower_char "G"%char = lower_char "g"%char
                   /\ "1"%char = "1"%char).
Proof.
  apply (seg_name2id_injective "G"%char "1"%char "g"%char "1"%char
           "abc" "" 0%nat 0%nat 1%N 1%N);
    first [reflexivity | vm_compute; discriminate].
Defined.

(* ================================================================== *)
(** ** More of the code: tier files                                    *)
(* ================================================================== *)

Lemma prefix_empty (s : string) : prefix "" s = true.
Proof. destruct s; reflexivity. Qed.

Lemma prefix_line (w : string) :
  prefix " = " (w ++ Str.nl) = prefix " = " w.
Proof.
  destruct w as [|a [|b [|c w]]]; cbn -[ascii_dec].
  - reflexivity.
  - destruct (ascii_dec " " a); reflexivity.
  - destruct (ascii_dec " " a); [|reflexivity].
    destruct (ascii_dec "=" b); reflexivity.
  - rewrite !prefix_empty. reflexivity.
Qed.

Lemma occurs_line (w : string) :
  occurs " = " (w ++ Str.nl) = occurs " = " w.
Proof.
  induction w as [|a w IH].
  - reflexivity.
  - change (String a w ++ Str.nl)%string with (String a (w ++ Str.nl)).
    cbn [occurs]. rewrite IH. f_equal.
    apply (prefix_line (String a w)).
Qed.

Lemma split_last_none (s : string) :
  forall piece : string,
    occurs " = " s = false ->
    Str.split_last_from " = " s 0 piece = piece.
Proof.
  induction s as [|a s IH]; intros piece H; [reflexivity|].
  cbn [occurs] in H. apply orb_false_iff in H. destruct H as [H1 H2].
  cbn [Str.split_last_from]. rewrite H1. apply IH. exact H2.
Qed.

Lemma split_last_key (key rest : string) :
  forall piece : string,
    occurs "=" key = false ->
    Str.split_last_from " = " (key ++ " = " ++ rest) 0 piece
    = Str.split_last_from " = " rest 0 rest.
Proof.
  induction key as [|a key IH]; intros piece H.
  - change ("" ++ " = " ++ rest)%string
      with (String " " (String "=" (String " " rest))).
    cbn -[ascii_dec prefix].
    replace (prefix " = " (String " " (String "=" (String " " rest))))
      with true; [reflexivity|].
    symmetry. cbn. apply prefix_empty.
  - cbn [occurs] in H. apply orb_false_iff in H. destruct H as [H1 H2].
    change (String a key ++ " = " ++ rest)%string
      with (String a (key ++ " = " ++ rest)).
    cbn [Str.split_last_from].
    replace (prefix " = " (String a (key ++ " = " ++ rest))) with false.
    + apply IH. exact H2.
    + symmetry. cbn [prefix]. destruct (ascii_dec " " a); [|reflexivity].
      destruct key as [|b key]; cbn -[ascii_dec].
      * reflexivity.
      * cbn -[ascii_dec] in H2.
        destruct (ascii_dec "=" b); [|reflexivity].
        rewrite prefix_empty in H2. discriminate.
Qed.

Lemma rstrip_line (s : string) :
  Str.rstrip_by Str.is_space (s ++ Str.nl) = Str.rstrip_by Str.is_space s.
Proof.
  induction s as [|a s IH]; [reflexivity|].
  change (String a s ++ Str.nl)%string with (String a (s ++ Str.nl)).
  cbn [Str.rstrip_by]. rewrite IH. reflexivity.
Qed.

Lemma rstrip_length (p : ascii -> bool) (s : string) :
  (String.length (Str.rstrip_by p s) <= String.length s)%nat.
Proof.
  induction s as [|a s IH]; cbn; [lia|].
  destruct (Str.rstrip_by p s); [destruct (p a)|]; cbn in *; lia.
Qed.

Lemma lstrip_length (p : ascii -> bool) (s : string) :
  (String.length (Str.lstrip_by p s) <= String.length s)%nat.
Proof.
  induction s as [|a s IH]; cbn; [lia|].
  destruct (p a); cbn; lia.
Qed.

Lemma strip_line (w : string) :
  Str.strip w = w -> Str.strip (w ++ Str.nl) = w.
Proof.
  destruct w as [|a w]; intros H; [reflexivity|].
  unfold Str.strip in *.
  change (String a w ++ Str.nl)%string with (String a (w ++ Str.nl)).
  cbn [Str.lstrip_by] in *.
  destruct (Str.is_space a) eqn:E.
  - exfalso.
    pose proof (rstrip_length Str.is_space (Str.lstrip_by Str.is_space w)) as L1.
    pose proof (lstrip_length Str.is_space w) as L2.
    rewrite H in L1. cbn in L1. lia.
  - etransitivity; [apply (rstrip_line (String a w)) | exact H].
Qed.

(** A line [key = w] of a tier file is read whole, and its field is
    [w]. *)
Lemma read_key_line (key w rest : string) :
  Str.no_newline key = true -> occurs "=" key = false -> plain w ->
  Str.readline ((key ++ " = " ++ w) ++ Str.nl ++ rest)
  = (((key ++ " = " ++ w) ++ Str.nl)%string, rest)
  /\ PointTierCodec.field ((key ++ " = " ++ w) ++ Str.nl) = w.
Proof.
  intros Hk He [_ [P1 [P2 P3]]]. split.
  - apply readline_line. rewrite !no_newline_app, Hk, P1. reflexivity.
  - unfold PointTierCodec.field, Str.split_last.
    rewrite !str_app_assoc, (split_last_key key _ _ He).
    rewrite split_last_none by (rewrite occurs_line; exact P2).
    apply strip_line. exact P3.
Qed.

(** *** Printed counts *)

Lemma digit_of_char (m : N) :
  (m < 10)%N -> Str.digit_of (ascii_of_N (48 + m)) = Some m.
Proof.
  intros H.
  assert (C : m = 0%N \/ m = 1%N \/ m = 2%N \/ m = 3%N \/ m = 4%N \/ m = 5%N
              \/ m = 6%N \/ m = 7%N \/ m = 8%N \/ m = 9%N) by lia.
  repeat (destruct C as [->|C]; [reflexivity|]). subst. reflexivity.
Qed.

Lemma digit_not_space (c : ascii) (d : N) :
  Str.digit_of c = Some d ->
  Str.is_space c = false
  /\ (Ascii.eqb c "010" = false /\ Ascii.eqb c "013" = false)
  /\ (if ascii_dec " " c then true else false) = false
  /\ (nat_of_ascii c <? 128)%nat = true.
Proof.
  destruct c as [[] [] [] [] [] [] [] []]; vm_compute; intros H;
    first [discriminate H | repeat split].
Qed.

Lemma rstrip_no_space (s : string) :
  all_digits s = true -> Str.rstrip_by Str.is_space s = s.
Proof.
  induction s as [|c s IH]; intros H; [reflexivity|].
  cbn [all_digits] in H. destruct (Str.digit_of c) as [d|] eqn:D; [|discriminate].
  cbn [Str.rstrip_by]. rewrite (IH H).
  destruct s; [|reflexivity].
  destruct (digit_not_space c d D) as [-> _]. reflexivity.
Qed.

Lemma all_digits_plain (s : string) : all_digits s = true -> plain s.
Proof.
  intros H. split; [|split; [|split]].
  - induction s as [|c s IH]; [reflexivity|].
    cbn [all_digits] in H.
    destruct (Str.digit_of c) as [d|] eqn:D; [|discriminate].
    cbn [seven_bit]. destruct (digit_not_space c d D) as [_ [_ [_ ->]]].
    exact (IH H).
  - induction s as [|c s IH]; [reflexivity|].
    cbn [all_digits] in H.
    destruct (Str.digit_of c) as [d|] eqn:D; [|discriminate].
    cbn [Str.no_newline].
    destruct (digit_not_space c d D) as [_ [[-> ->] _]].
    exact (IH H).
  - induction s as [|c s IH]; [reflexivity|].
    cbn [all_digits] in H.
    destruct (Str.digit_of c) as [d|] eqn:D; [|discriminate].
    cbn [occurs]. rewrite (IH H), orb_false_r.
    cbn -[ascii_dec]. destruct (digit_not_space c d D) as [_ [_ [E _]]].
    destruct (ascii_dec " " c); [discriminate E | reflexivity].
  - unfold Str.strip. destruct s as [|c s]; [reflexivity|].
    pose proof H as H'. cbn [all_digits] in H'.
    destruct (Str.digit_of c) as [d|] eqn:D; [|discriminate].
    cbn [Str.lstrip_by]. destruct (digit_not_space c d D) as [-> _].
    apply rstrip_no_space. exact H.
Qed.

Lemma decimal_all_digits (fuel : nat) :
  forall (n : N) (acc : string),
    all_digits acc = true ->
    all_digits (Str.decimal_digits fuel n acc) = true.
Proof.
  induction fuel as [|f IH]; intros n acc H; [exact H|].
  cbn [Str.decimal_digits].
  assert (A : all_digits (String (ascii_of_N (48 + n mod 10)) acc) = true).
  { cbn [all_digits]. rewrite digit_of_char; [exact H|].
    apply N.mod_lt. discriminate. }
  destruct (n <? 10)%N; [exact A | apply IH; exact A].
Qed.

Lemma decimal_nonempty (fuel : nat) :
  forall (n : N) (c : ascii) (acc : string),
    exists c' r, Str.decimal_digits fuel n (String c acc) = String c' r.
Proof.
  induction fuel as [|f IH]; intros n c acc; [eexists; eexists; reflexivity|].
  cbn [Str.decimal_digits]. destruct (n <? 10)%N.
  - eexists; eexists; reflexivity.
  - apply IH.
Qed.

(** The digits printed for [n] are read back as [n]. *)
Lemma digits_decimal (fuel : nat) :
  forall (n : N) (acc : string),
    (N.to_nat n < fuel)%nat ->
    exists (m : N) (k : nat),
      (1 <= k)%nat
      /\ forall (a : N) (len : nat),
           Str.digits (Str.decimal_digits fuel n acc) a len
           = Str.digits acc (a * m + n)%N (len + k)%nat.
Proof.
  induction fuel as [|f IH]; intros n acc Hf; [lia|].
  cbn [Str.decimal_digits].
  destruct (N.ltb_spec n 10) as [L|L].
  - exists 10%N, 1%nat. split; [lia|]. intros a len.
    cbn [Str.digits]. rewrite digit_of_char by (apply N.mod_lt; discriminate).
    rewrite N.mod_small by exact L. rewrite Nat.add_1_r. reflexivity.
  - assert (D : (n / 10 < n)%N) by (apply N.div_lt; lia).
    destruct (IH (n / 10)%N (String (ascii_of_N (48 + n mod 10)) acc))
      as [m [k [K E]]]; [lia|].
    exists (m * 10)%N, (S k). split; [lia|]. intros a len.
    rewrite E. cbn [Str.digits].
    rewrite digit_of_char by (apply N.mod_lt; discriminate).
    pose proof (N.div_mod' n 10) as DM.
    f_equal; [|lia].
    rewrite DM at 3. lia.
Qed.

Lemma str_of_nat_plain (n : nat) : plain (Str.str_of_nat n).
Proof.
  apply all_digits_plain. apply decimal_all_digits. reflexivity.
Qed.

Lemma int_unsigned (c : ascii) (r : string) (d : N) :
  Str.digit_of c = Some d ->
  Str.strip (String c r) = String c r ->
  Str.int (String c r)
  = match Str.digits (String c r) 0%N 0 with
    | Some (v, l) => if (l =? 0)%nat then Err ValueError else Ok (Z.of_N v)
    | None => Err ValueError
    end.
Proof.
  intros D S. unfold Str.int. rewrite S.
  destruct c as [[] [] [] [] [] [] [] []];
    try (vm_compute in D; discriminate D); reflexivity.
Qed.

Lemma int_str_of_nat (n : nat) :
  Str.int (Str.str_of_nat n) = Ok (Z.of_nat n).
Proof.
  pose proof (str_of_nat_plain n) as [_ [_ [_ P]]].
  assert (A : all_digits (Str.str_of_nat n) = true)
    by (apply decimal_all_digits; reflexivity).
  destruct (digits_decimal (S n) (N.of_nat n) "") as [m [k [K E]]]; [lia|].
  fold (Str.str_of_nat n) in E. specialize (E 0%N 0%nat).
  assert (NE : exists c r, Str.str_of_nat n = String c r).
  { unfold Str.str_of_nat. cbn [Str.decimal_digits].
    destruct (N.of_nat n <? 10)%N; [eexists; eexists; reflexivity|].
    apply decimal_nonempty. }
  destruct NE as [c [r NE]]. rewrite NE in *.
  cbn [all_digits] in A.
  destruct (Str.digit_of c) as [d|] eqn:D; [|discriminate].
  rewrite (int_unsigned c r d D P), E. cbn [Str.digits].
  destruct k as [|k]; [lia|]. cbn [Nat.add Nat.eqb].
  rewrite N.mul_0_l, N.add_0_l, nat_N_Z. reflexivity.
Qed.

(** *** Reading a tier file *)

(** Both readers skip three lines and take [xmin] from the fourth; the
    bound setter then refuses a value that is negative or beyond the end
    of the tier that reads. *)
Lemma read_xmin_raises (float : string -> result Q)
  (l1 l2 l3 l4 rest : string) (q : Q)
  (t0 : Tier.t Interval.t) :
  Str.no_newline l1 = true -> Str.no_newline l2 = true ->
  Str.no_newline l3 = true -> Str.no_newline l4 = true ->
  float (PointTierCodec.field (l4 ++ Str.nl)) = Ok q ->
  q < 0 \/ Tier.end_time t0 < q ->
  PointTierCodec.read float
    (l1 ++ Str.nl ++ l2 ++ Str.nl ++ l3 ++ Str.nl ++ l4 ++ Str.nl ++ rest) t0
  = Raise t0 ValueError
  /\ IntervalTierCodec.read float
       (l1 ++ Str.nl ++ l2 ++ Str.nl ++ l3 ++ Str.nl ++ l4 ++ Str.nl ++ rest) t0
     = Raise t0 ValueError.
Proof.
  intros H1 H2 H3 H4 Hf Hq.
  assert (S : Tier.start_time_setter q t0 = Raise t0 ValueError).
  { unfold Tier.start_time_setter, Tier.end_time in *.
    qcase (Qltb q 0); [reflexivity|].
    qcase (Qltb (Tier._end_time t0) q); [reflexivity | lra]. }
  split.
  - unfold PointTierCodec.read.
    rewrite (readline_line l1 _ H1), (readline_line l2 _ H2),
      (readline_line l3 _ H3), (readline_line l4 _ H4).
    cbv beta iota. unfold bind at 1. unfold lift at 1. rewrite Hf.
    unfold bind at 1. rewrite S. reflexivity.
  - unfold IntervalTierCodec.read.
    rewrite (readline_line l1 _ H1), (readline_line l2 _ H2),
      (readline_line l3 _ H3), (readline_line l4 _ H4).
    cbv beta iota. unfold bind at 1. unfold lift at 1. rewrite Hf.
    unfold bind at 1. rewrite S. reflexivity.
Qed.

(** X24. A tier file whose [xmin] is not 0 cannot be loaded.  Take a
    file that begins with four lines without a line break inside them
    (neither a line feed nor a carriage return), each ended by a line
    feed, and let [float] read the number [q] from the field of the
    fourth line (what follows its last [" = "], stripped).  [read] sets
    [start_time] before [end_time]: on a tier that ends before [q], or
    when [q] is negative, [PointTier.read] and [IntervalTier.read]
    raise [ValueError] and leave the tier as it was.  So [from_file],
    which reads into a new tier, whose bounds are [0 .. 0], raises
    [ValueError] whenever [q] is not 0. *)
Theorem tier_file_xmin_must_fit (float : string -> result Q)
  (l1 l2 l3 l4 rest name : string) (q : Q)
  (H1 : Str.no_newline l1 = true) (H2 : Str.no_newline l2 = true)
  (H3 : Str.no_newline l3 = true) (H4 : Str.no_newline l4 = true)
  (Hf : float (PointTierCodec.field (l4 ++ Str.nl)) = Ok q) :
  let source :=
    (l1 ++ Str.nl ++ l2 ++ Str.nl ++ l3 ++ Str.nl ++ l4 ++ Str.nl ++ rest)%string
  in
  (forall t0 : Tier.t Interval.t,
     q < 0 \/ Tier.end_time t0 < q ->
     PointTierCodec.read float source t0 = Raise t0 ValueError
     /\ IntervalTierCodec.read float source t0 = Raise t0 ValueError)
  /\ (~ q == 0 ->
      PointTierCodec.from_file float source name = Err ValueError
      /\ IntervalTierCodec.from_file float source name = Err ValueError).
Proof.
  intros source. split.
  - intros t0 Hq. exact (read_xmin_raises float l1 l2 l3 l4 rest q t0 H1 H2 H3 H4 Hf Hq).
  - intros Hq.
    destruct (read_xmin_raises float l1 l2 l3 l4 rest q (Tier.mk name 0 0 [])
                H1 H2 H3 H4 Hf) as [P I].
    { cbn. destruct (Qlt_le_dec q 0) as [L|L]; [left; exact L|].
      right. destruct (Qlt_le_dec 0 q) as [L'|L']; [exact L'|].
      exfalso. apply Hq. lra. }
    unfold PointTierCodec.from_file, IntervalTierCodec.from_file.
    change (PointTier.new name 0 0) with (Ok (Tier.mk name 0 0 ([] : list Interval.t))).
    change (IntervalTier.new name 0 0) with (Ok (Tier.mk name 0 0 ([] : list Interval.t))).
    cbv beta iota. fold source in P, I. rewrite P, I. split; reflexivity.
Qed.

Lemma tier_file_xmin_must_fit_witness :
  PointTierCodec.from_file Str.decimal
    ("File type = x" ++ Str.nl ++ "Object class = y" ++ Str.nl ++ "" ++ Str.nl
     ++ "xmin = 1.5" ++ Str.nl ++ "xmax = 2" ++ Str.nl) "t"
  = Err ValueError
  /\ IntervalTierCodec.from_file Str.decimal
       ("File type = x" ++ Str.nl ++ "Object class = y" ++ Str.nl ++ "" ++ Str.nl
        ++ "xmin = 1.5" ++ Str.nl ++ "xmax = 2" ++ Str.nl) "t"
     = Err ValueError.
Proof.
  apply (tier_file_xmin_must_fit Str.decimal "File type = x" "Object class = y" ""
           "xmin = 1.5" ("xmax = 2" ++ Str.nl) "t" (15 # 10)
           eq_refl eq_refl eq_refl eq_refl);
    [vm_compute; reflexivity | intros H; vm_compute in H; discriminate].
Defined.

(** *** Writing an interval tier and reading it back *)

Lemma tiles_le (l : list Interval.t) :
  forall lo hi : Q, tiles lo hi l -> lo <= hi.
Proof.
  induction l as [|i r IH]; cbn; intros lo hi T; [lra|].
  destruct T as [A [B C]]. specialize (IH _ _ C). lra.
Qed.

Lemma block_shape (float_str : Q -> string) (i : nat) (o : Interval.t)
  (r : list Interval.t) :
  IntervalTierCodec.write_intervals float_str i (o :: r)
  = (("intervals [" ++ Str.str_of_nat i ++ "]:") ++ Str.nl
     ++ ((Str.tab ++ "xmin") ++ " = " ++ float_str (Interval.start_time o))
     ++ Str.nl
     ++ ((Str.tab ++ "xmax") ++ " = " ++ float_str (Interval.end_time o))
     ++ Str.nl
     ++ ((Str.tab ++ "text") ++ " = " ++ Interval.text o) ++ Str.nl
     ++ IntervalTierCodec.write_intervals float_str (S i) r)%string.
Proof.
  cbn [IntervalTierCodec.write_intervals]. rewrite !str_app_assoc.
  reflexivity.
Qed.

(** One block of four lines is read as one call of [add]. *)
Lemma read_block (float : string -> result Q) (float_str : Q -> string)
  (i n : nat) (o : Interval.t)
  (r : list Interval.t) (self : IntervalTier.t) :
  writable float float_str o ->
  IntervalTierCodec.read_intervals float (S n)
    (IntervalTierCodec.write_intervals float_str i (o :: r)) self
  = (IntervalTier.add (Interval.start_time o) (Interval.end_time o)
                      (Interval.text o) false
     ;;; IntervalTierCodec.read_intervals float n
           (IntervalTierCodec.write_intervals float_str (S i) r)) self.
Proof.
  intros [_ [[P1 F1] [[P2 F2] [P3 Q3]]]].
  rewrite block_shape. cbn [IntervalTierCodec.read_intervals].
  rewrite readline_line.
  2:{ rewrite !no_newline_app.
      destruct (str_of_nat_plain i) as [_ [-> _]]. reflexivity. }
  cbv beta iota.
  destruct (read_key_line (Str.tab ++ "xmin")
              (float_str (Interval.start_time o))
              (((Str.tab ++ "xmax") ++ " = " ++ float_str (Interval.end_time o))
               ++ Str.nl
               ++ ((Str.tab ++ "text") ++ " = " ++ Interval.text o) ++ Str.nl
               ++ IntervalTierCodec.write_intervals float_str (S i) r)
              eq_refl eq_refl P1) as [R1 E1].
  rewrite R1. cbv beta iota. rewrite E1, F1.
  unfold bind at 1. unfold lift at 1.
  destruct (read_key_line (Str.tab ++ "xmax")
              (float_str (Interval.end_time o))
              (((Str.tab ++ "text") ++ " = " ++ Interval.text o) ++ Str.nl
               ++ IntervalTierCodec.write_intervals float_str (S i) r)
              eq_refl eq_refl P2) as [R2 E2].
  rewrite R2. cbv beta iota. rewrite E2, F2.
  unfold bind at 1. unfold lift at 1.
  destruct (read_key_line (Str.tab ++ "text") (Interval.text o)
              (IntervalTierCodec.write_intervals float_str (S i) r)
              eq_refl eq_refl P3) as [R3 E3].
  rewrite R3. cbv beta iota. rewrite E3, Q3. reflexivity.
Qed.

(** The blocks of a list that tiles the rest of the tier are read back
    one after the other, each appended to what is stored. *)
Lemma read_written (float : string -> result Q) (float_str : Q -> string)
  (out : list Interval.t) :
  forall (i : nat) (self : IntervalTier.t) (lo : Q),
    tier_wf self -> Tier.start_time self <= lo ->
    tiles lo (Tier.end_time self) out ->
    Forall (writable float float_str) out ->
    (forall d, In d (Tier._objects self) ->
               Interval.cls d = Interval_cls /\ Interval.start_time d < lo) ->
    IntervalTierCodec.read_intervals float (length out)
      (IntervalTierCodec.write_intervals float_str i out) self
    = Return (with_objects self (Tier._objects self ++ map as_interval out)) tt.
Proof.
  induction out as [|o r IH]; intros i self lo Hw Hlo T W Hd.
  - cbn. rewrite app_nil_r. destruct self; reflexivity.
  - inversion W as [|? ? Wo Wr]; subst.
    destruct T as [T1 [T2 T3]]. pose proof (tiles_le _ _ _ T3) as T4.
    pose proof Wo as [Wpos _].
    cbn [length]. rewrite read_block by exact Wo. unfold bind.
    destruct Hw as [Hw0 Hw1].
    rewrite interval_appended.
    + replace (py_min (Tier.start_time self) (Interval.start_time o))
        with (Tier.start_time self)
        by (unfold py_min;
            qcase (Qltb (Interval.start_time o) (Tier.start_time self));
            [lra | reflexivity]).
      replace (py_max (Tier.end_time self) (Interval.end_time o))
        with (Tier.end_time self)
        by (unfold py_max;
            qcase (Qltb (Tier.end_time self) (Interval.end_time o));
            [lra | reflexivity]).
      rewrite (IH (S i) _ (Interval.end_time o)).
      * unfold with_objects. cbn [Tier._name Tier._start_time Tier._end_time
                                  Tier._objects map].
        rewrite <- app_assoc. reflexivity.
      * split; cbn; assumption.
      * cbn. lra.
      * exact T3.
      * exact Wr.
      * cbn [Tier._objects]. intros d Hin. apply in_app_or in Hin.
        destruct Hin as [Hin|[<-|[]]].
        -- destruct (Hd d Hin) as [C L]. split; [exact C | lra].
        -- split; [reflexivity | exact Wpos].
    + split; assumption.
    + lra.
    + exact T2.
    + intros d Hin. destruct (Hd d Hin) as [C L].
      split; [exact C|]. split; [lra|]. intros [E _]. lra.
Qed.

Section Filling.

(** What holds of the stored intervals and of the bounds, and of every
    interval made between two such bounds. *)
Variable ok_time : Q -> Prop.
Variable ok : Interval.t -> Prop.
Hypothesis ok_bounds :
  forall o, ok o -> ok_time (Interval.start_time o)
                    /\ ok_time (Interval.end_time o).
Hypothesis ok_gap :
  forall a b, ok_time a -> ok_time b -> a < b ->
              ok (Interval.mk Interval_cls a b "").

(** The loop of [_fill_in_the_gaps] keeps such a property. *)
Lemma fill_loop_keeps (objs : list Interval.t) :
  forall (prev : Q) (out res : list Interval.t),
    ok_time prev ->
    Forall ok objs ->
    Forall ok out ->
    IntervalTier.fill_loop objs prev out = Ok res ->
    Forall ok res.
Proof.
  induction objs as [|i r IH]; intros prev out res Hp Wo Wout E.
  - cbn in E. injection E as <-. exact Wout.
  - inversion Wo as [|? ? Wi Wr]; subst.
    destruct (ok_bounds i Wi) as [Ps Pe].
    cbn [IntervalTier.fill_loop] in E.
    qcase (Qltb prev (Interval.start_time i)).
    + unfold Interval.new, Interval.__init__ in E.
      destruct (Qltb prev 0); [discriminate|].
      destruct (Qltb (Interval.start_time i) 0); [discriminate|].
      qcase (Qltb (Interval.start_time i) prev); [lra|].
      apply (IH _ _ _ Pe Wr) in E; [exact E|].
      apply Forall_app. split; [|constructor; [exact Wi | constructor]].
      apply Forall_app. split; [exact Wout|].
      constructor; [|constructor].
      apply ok_gap; assumption.
    + apply (IH _ _ _ Pe Wr) in E; [exact E|].
      apply Forall_app. split; [exact Wout | constructor; [exact Wi | constructor]].
Qed.

(** What [write] gets from [_fill_in_the_gaps] on a tier in order: a list
    that is empty or tiles the bounds, and that has the property. *)
Lemma fill_keeps (self : IntervalTier.t) :
  0 <= Tier.start_time self ->
  in_order (Tier.start_time self) (Tier._objects self) ->
  cursor (Tier.start_time self) (Tier._objects self) <= Tier.end_time self ->
  Forall ok (Tier._objects self) ->
  ok_time (Tier.start_time self) ->
  ok_time (Tier.end_time self) ->
  exists output : list Interval.t,
    IntervalTier._fill_in_the_gaps self = Return self output
    /\ (output = []
        \/ tiles (Tier.start_time self) (Tier.end_time self) output)
    /\ Forall ok output.
Proof.
  intros Hstart Horder Hend Hobjs Hs He.
  destruct (Tier._objects self) as [|o0 r0] eqn:Eo.
  { exists []. split; [apply fill_in_the_gaps_empty; exact Eo|].
    split; [left; reflexivity | constructor]. }
  rewrite <- Eo in *.
  assert (Hne : Tier._objects self <> []) by (rewrite Eo; discriminate).
  destruct (fill_loop_in_order _ _ Hstart Horder)
    as [ext [L [T [_ [_ La]]]]].
  destruct (La Hne) as [ext0 [l [E1 E2]]]. subst ext.
  pose proof (fill_loop_keeps _ _ [] _ Hs Hobjs (Forall_nil _) (L [])) as W.
  cbn [app] in W.
  assert (Wl : ok l).
  { apply Forall_app in W. destruct W as [_ W]. inversion W; assumption. }
  unfold IntervalTier._fill_in_the_gaps, bind, get, lift.
  rewrite (L []). cbn [app]. rewrite last_item_snoc.
  replace (negb (length (ext0 ++ [l]) =? 0)%nat) with true
    by (rewrite length_app; cbn;
        destruct (Nat.eqb_spec (length ext0 + 1) 0); [lia | reflexivity]).
  cbn [andb].
  qcase (Qltb (Interval.end_time l) (Tier.end_time self)).
  - assert (Hl : 0 <= Interval.end_time l).
    { rewrite E2. apply cursor_nonneg; assumption. }
    unfold Interval.new. rewrite Interval_init_ok by lra.
    eexists. split; [reflexivity|]. split.
    + right. apply (tiles_app _ _ _ (Interval.end_time l)).
      * rewrite E2. exact T.
      * cbn. repeat split; lra.
    + apply Forall_app. split; [exact W|].
      constructor; [|constructor].
      apply ok_gap; [apply (ok_bounds l Wl) | exact He | exact E].
  - eexists. split; [reflexivity|]. split; [|exact W].
    right.
    apply (tiles_compat _ (Tier.start_time self) (Tier.start_time self)
             (cursor (Tier.start_time self) (Tier._objects self))
             (Tier.end_time self));
      [reflexivity | | exact T].
    rewrite <- E2 in *. lra.
Qed.

End Filling.

Lemma writable_bounds (float : string -> result Q) (float_str : Q -> string)
  (o : Interval.t) :
  writable float float_str o ->
  printable float float_str (Interval.start_time o)
  /\ printable float float_str (Interval.end_time o).
Proof. intros [_ [A [B _]]]. split; assumption. Qed.

Lemma writable_gap (float : string -> result Q) (float_str : Q -> string)
  (a b : Q) :
  printable float float_str a -> printable float float_str b -> a < b ->
  writable float float_str (Interval.mk Interval_cls a b "").
Proof.
  intros A B L. split; [exact L|]. split; [exact A|]. split; [exact B|].
  split; [repeat split | reflexivity].
Qed.

Lemma file_shape (float_str : Q -> string) (self : IntervalTier.t)
  (count body : string) :
  (IntervalTierCodec.header float_str self
   ++ "intervals: size = " ++ count ++ Str.nl ++ body)%string
  = (("File type = " ++ Str.dquote ++ "ooTextFile" ++ Str.dquote) ++ Str.nl
     ++ ("Object class = " ++ Str.dquote ++ "IntervalTier" ++ Str.dquote)
     ++ Str.nl ++ "" ++ Str.nl
     ++ ("xmin" ++ " = " ++ float_str (Tier.start_time self)) ++ Str.nl
     ++ ("xmax" ++ " = " ++ float_str (Tier.end_time self)) ++ Str.nl
     ++ ("intervals: size" ++ " = " ++ count) ++ Str.nl ++ body)%string.
Proof.
  unfold IntervalTierCodec.header. rewrite !str_app_assoc. reflexivity.
Qed.

(** The file of a list that is empty or tiles the bounds is read by
    [from_file] as a tier with these bounds that holds the list. *)
Lemma read_file (float : string -> result Q) (float_str : Q -> string)
  (self : IntervalTier.t)
  (output : list Interval.t) (name : string) :
  Tier.start_time self == 0 ->
  Tier.start_time self <= Tier.end_time self ->
  printable float float_str (Tier.start_time self) ->
  printable float float_str (Tier.end_time self) ->
  output = [] \/ tiles (Tier.start_time self) (Tier.end_time self) output ->
  Forall (writable float float_str) output ->
  IntervalTierCodec.from_file float
    (IntervalTierCodec.header float_str self
     ++ "intervals: size = " ++ Str.str_of_nat (length output) ++ Str.nl
     ++ IntervalTierCodec.write_intervals float_str 1 output) name
  = Ok (Tier.mk name (Tier.start_time self) (Tier.end_time self)
                (map as_interval output)).
Proof.
  intros H0 Hle [Ps Fs] [Pe Fe] Ht W.
  rewrite file_shape. unfold IntervalTierCodec.from_file.
  change (IntervalTier.new name 0 0)
    with (Ok (Tier.mk name 0 0 ([] : list Interval.t))).
  cbv beta iota. unfold IntervalTierCodec.read.
  rewrite readline_line by reflexivity.
  rewrite readline_line by reflexivity.
  rewrite (readline_line ""%string) by reflexivity.
  cbv beta iota.
  match goal with
  | |- context [Str.readline (("xmin" ++ " = " ++ ?w) ++ Str.nl ++ ?rest)] =>
      destruct (read_key_line "xmin" w rest eq_refl eq_refl Ps) as [R1 E1]
  end.
  rewrite R1. cbv beta iota. rewrite E1, Fs.
  unfold bind at 1. unfold lift at 1.
  unfold bind at 1. rewrite start_time_setter_ok by (cbn; lra).
  cbn [Tier._name Tier._end_time Tier._objects].
  match goal with
  | |- context [Str.readline (("xmax" ++ " = " ++ ?w) ++ Str.nl ++ ?rest)] =>
      destruct (read_key_line "xmax" w rest eq_refl eq_refl Pe) as [R2 E2]
  end.
  rewrite R2. cbv beta iota. rewrite E2, Fe.
  unfold bind at 1. unfold lift at 1.
  unfold bind at 1. rewrite end_time_setter_ok by (cbn; lra).
  cbn [Tier._name Tier._start_time Tier._objects].
  match goal with
  | |- context [Str.readline (("intervals: size" ++ " = " ++ ?w) ++ Str.nl
                              ++ ?rest)] =>
      destruct (read_key_line "intervals: size" w rest eq_refl eq_refl
                  (str_of_nat_plain (length output))) as [R3 E3]
  end.
  rewrite R3. cbv beta iota. rewrite E3, int_str_of_nat.
  unfold bind at 1. unfold lift at 1. rewrite Nat2Z.id.
  destruct Ht as [->|T].
  - reflexivity.
  - rewrite (read_written float float_str output 1 _ (Tier.start_time self)).
    + reflexivity.
    + split; cbn; lra.
    + cbn. lra.
    + exact T.
    + exact W.
    + intros d [].
Qed.

(** X25. Call a time printable when it is printed as an ASCII text without
    line break (line feed or carriage return), without [" = "] and
    without white space at its ends, that [float] reads back as that
    time; and a text plain when it is ASCII, without line break,
    without [" = "] and without white space at its ends.  An interval
    tier that starts at 0 and ends no earlier, with printable bounds,
    whose intervals are stored in order without overlap inside its
    bounds (the first starts no earlier than the tier, each starts no
    earlier than the one before ends, the last ends by the end of the
    tier), each with [start_time < end_time], printable bounds and a
    plain text without double quotes at its ends, is written to a file
    that [from_file] reads back as a tier with the same bounds holding
    exactly the gap-filled list that was written. *)
Theorem interval_tier_file_round_trip (float : string -> result Q)
  (float_str : Q -> string)
  (self : IntervalTier.t) (name : string)
  (H0 : Tier.start_time self == 0)
  (Horder : in_order (Tier.start_time self) (Tier._objects self))
  (Hend : cursor (Tier.start_time self) (Tier._objects self)
          <= Tier.end_time self)
  (Hobjs : Forall (writable float float_str) (Tier._objects self))
  (Hs : printable float float_str (Tier.start_time self))
  (He : printable float float_str (Tier.end_time self)) :
  exists (output : list Interval.t) (text : string),
    IntervalTier._fill_in_the_gaps self = Return self output
    /\ IntervalTierCodec.write float_str self = Return text tt
    /\ IntervalTierCodec.from_file float text name
       = Ok (Tier.mk name (Tier.start_time self) (Tier.end_time self)
                     (map as_interval output)).
Proof.
  assert (Hstart : 0 <= Tier.start_time self) by lra.
  destruct (fill_keeps (printable float float_str) (writable float float_str)
              (writable_bounds float float_str) (writable_gap float float_str)
              self Hstart Horder Hend Hobjs Hs He)
    as [output [F [T W]]].
  exists output. eexists. split; [exact F|].
  unfold IntervalTierCodec.write. rewrite F. split; [reflexivity|].
  apply read_file; try assumption.
  pose proof (cursor_nonneg _ _ Hstart Horder). lra.
Qed.

Lemma interval_tier_file_round_trip_witness :
  exists (output : list Interval.t) (text : string),
    IntervalTier._fill_in_the_gaps
      (Tier.mk "t" 0 5 [Interval.mk Interval_cls 1 2 "a";
                        Interval.mk Interval_cls 3 4 "b"])
    = Return (Tier.mk "t" 0 5 [Interval.mk Interval_cls 1 2 "a";
                               Interval.mk Interval_cls 3 4 "b"]) output
    /\ IntervalTierCodec.write
         (fun q => Str.str_of_nat (Z.to_nat (Qnum q)))
         (Tier.mk "t" 0 5 [Interval.mk Interval_cls 1 2 "a";
                           Interval.mk Interval_cls 3 4 "b"])
       = Return text tt
    /\ IntervalTierCodec.from_file Str.decimal text "u"
       = Ok (Tier.mk "u" 0 5 (map as_interval output)).
Proof.
  apply (interval_tier_file_round_trip Str.decimal
           (fun q => Str.str_of_nat (Z.to_nat (Qnum q)))
           (Tier.mk "t" 0 5 [Interval.mk Interval_cls 1 2 "a";
                             Interval.mk Interval_cls 3 4 "b"]) "u").
  - reflexivity.
  - cbn. repeat split; lra.
  - cbn. lra.
  - repeat constructor; cbn; lra.
  - repeat constructor.
  - repeat constructor.
Defined.

(* ================================================================== *)
(** ** More of the code: document files                                *)
(* ================================================================== *)

(** *** Quoted texts *)

Lemma prefix_snoc (c : ascii) (w : string) :
  c <> " "%char -> c <> "="%char ->
  prefix " = " (w ++ String c "") = prefix " = " w.
Proof.
  intros H1 H2.
  destruct w as [|a [|b [|d w]]]; cbn -[ascii_dec].
  - destruct (ascii_dec " " c); [congruence | reflexivity].
  - destruct (ascii_dec " " a); [|reflexivity].
    destruct (ascii_dec "=" c); [congruence | reflexivity].
  - destruct (ascii_dec " " a); [|reflexivity].
    destruct (ascii_dec "=" b); [|reflexivity].
    destruct (ascii_dec " " c); [congruence | reflexivity].
  - rewrite !prefix_empty. reflexivity.
Qed.

Lemma occurs_snoc (c : ascii) (w : string) :
  c <> " "%char -> c <> "="%char ->
  occurs " = " (w ++ String c "") = occurs " = " w.
Proof.
  intros H1 H2. induction w as [|a w IH].
  - cbn -[ascii_dec]. destruct (ascii_dec " " c); [congruence | reflexivity].
  - change (String a w ++ String c "")%string
      with (String a (w ++ String c "")).
    cbn [occurs]. rewrite IH. f_equal.
    apply (prefix_snoc c (String a w) H1 H2).
Qed.

Lemma seven_bit_app (a b : string) :
  seven_bit (a ++ b) = seven_bit a && seven_bit b.
Proof.
  induction a as [|x a IH]; cbn [append seven_bit]; [reflexivity|].
  rewrite IH. apply andb_assoc.
Qed.

Lemma rstrip_snoc_keep (p : ascii -> bool) (c : ascii) (s : string) :
  p c = false ->
  Str.rstrip_by p (s ++ String c "") = (s ++ String c "")%string.
Proof.
  intros H. induction s as [|a s IH]; cbn [append Str.rstrip_by].
  - rewrite H. reflexivity.
  - rewrite IH. destruct s; reflexivity.
Qed.

Lemma rstrip_snoc_drop (p : ascii -> bool) (c : ascii) (s : string) :
  p c = true ->
  Str.rstrip_by p (s ++ String c "") = Str.rstrip_by p s.
Proof.
  intros H. induction s as [|a s IH]; cbn [append Str.rstrip_by].
  - rewrite H. reflexivity.
  - rewrite IH. reflexivity.
Qed.

Lemma strip_by_snoc (p : ascii -> bool) (c : ascii) (w : string) :
  p c = true ->
  Str.rstrip_by p (Str.lstrip_by p w) = w ->
  Str.rstrip_by p (Str.lstrip_by p (w ++ String c "")) = w.
Proof.
  intros Hc H. destruct w as [|a w].
  - cbn. rewrite Hc. reflexivity.
  - change (String a w ++ String c "")%string
      with (String a (w ++ String c "")).
    cbn [Str.lstrip_by] in *.
    destruct (p a) eqn:E.
    + exfalso.
      pose proof (rstrip_length p (Str.lstrip_by p w)) as L1.
      pose proof (lstrip_length p w) as L2.
      rewrite H in L1. cbn in L1. lia.
    + etransitivity; [apply (rstrip_snoc_drop p c (String a w) Hc) | exact H].
Qed.

(** A text that can be quoted, between its quotes, is a plain field, and
    taking the quotes off gives it back. *)
Lemma quoted_plain (t : string) :
  quotable t ->
  plain (Str.dquote ++ t ++ Str.dquote)
  /\ Str.strip_char "034" (Str.dquote ++ t ++ Str.dquote) = t.
Proof.
  intros [Q1 [Q2 [Q3 Q4]]]. split; [split; [|split; [|split]]|].
  - rewrite !seven_bit_app, Q1. reflexivity.
  - rewrite !no_newline_app, Q2. reflexivity.
  - change (Str.dquote ++ t ++ Str.dquote)%string
      with (String "034" (t ++ String "034" "")).
    cbn [occurs]. rewrite occurs_snoc by discriminate. rewrite Q3.
    reflexivity.
  - unfold Str.strip.
    change (Str.dquote ++ t ++ Str.dquote)%string
      with (String "034" (t ++ String "034" "")).
    cbn [Str.lstrip_by].
    change (Str.is_space "034") with false. cbv iota.
    apply (rstrip_snoc_keep Str.is_space "034" (String "034" t)).
    reflexivity.
  - unfold Str.strip_char in *.
    change (Str.dquote ++ t ++ Str.dquote)%string
      with (String "034" (t ++ String "034" "")).
    cbn [Str.lstrip_by]. rewrite Ascii.eqb_refl.
    apply strip_by_snoc; [apply Ascii.eqb_refl | exact Q4].
Qed.

(** A line [key = "t"] is read whole, and its field without the quotes
    is [t]. *)
Lemma read_quoted_line (key t rest : string) :
  Str.no_newline key = true -> occurs "=" key = false -> quotable t ->
  Str.readline ((key ++ " = " ++ Str.dquote ++ t ++ Str.dquote)
                ++ Str.nl ++ rest)
  = (((key ++ " = " ++ Str.dquote ++ t ++ Str.dquote) ++ Str.nl)%string,
     rest)
  /\ Str.strip_char "034"
       (PointTierCodec.field
          ((key ++ " = " ++ Str.dquote ++ t ++ Str.dquote) ++ Str.nl))
     = t.
Proof.
  intros Hk He Hq. destruct (quoted_plain t Hq) as [P S].
  destruct (read_key_line key (Str.dquote ++ t ++ Str.dquote) rest Hk He P)
    as [R F].
  split; [exact R|]. rewrite F. exact S.
Qed.

(** *** The count of tiers *)

Lemma words_digits (w : string) :
  all_digits w = true ->
  forall cur : string,
    (cur ++ w)%string <> ""%string ->
    Str.words_from w cur = [(cur ++ w)%string].
Proof.
  induction w as [|c w IH]; intros H cur Hne.
  - assert (E : (cur ++ "")%string = cur)
      by (clear; induction cur as [|x cur IH]; cbn; [|rewrite IH]; reflexivity).
    rewrite E in *. cbn. destruct cur; [congruence | reflexivity].
  - cbn [all_digits] in H.
    destruct (Str.digit_of c) as [d|] eqn:D; [|discriminate].
    cbn [Str.words_from]. destruct (digit_not_space c d D) as [-> _].
    rewrite (IH H).
    + rewrite str_app_assoc. reflexivity.
    + rewrite str_app_assoc. cbn. destruct cur; discriminate.
Qed.

Lemma rstrip_app_digits (w : string) :
  all_digits w = true -> w <> ""%string ->
  forall pre : string,
    Str.rstrip_by Str.is_space (pre ++ w) = (pre ++ w)%string.
Proof.
  intros H Hne pre. induction pre as [|a pre IH].
  - apply rstrip_no_space. exact H.
  - cbn [append Str.rstrip_by]. rewrite IH.
    destruct (pre ++ w)%string eqn:E; [|reflexivity].
    destruct pre; cbn in E; [congruence | discriminate].
Qed.

Lemma str_of_nat_digits (n : nat) :
  all_digits (Str.str_of_nat n) = true /\ Str.str_of_nat n <> ""%string.
Proof.
  split; [apply decimal_all_digits; reflexivity|].
  unfold Str.str_of_nat. cbn [Str.decimal_digits].
  destruct (N.of_nat n <? 10)%N; [discriminate|].
  destruct (decimal_nonempty n (N.of_nat n / 10)
              (ascii_of_N (48 + N.of_nat n mod 10)) "") as [c [r ->]].
  discriminate.
Qed.

(** The line [size = n] is read whole, and its last word is read as
    [n]. *)
Lemma read_size_line (n : nat) (rest : string) :
  Str.readline (("size = " ++ Str.str_of_nat n) ++ Str.nl ++ rest)
  = ((("size = " ++ Str.str_of_nat n) ++ Str.nl)%string, rest)
  /\ rbind (Str.last_of
              (Str.split_ws
                 (Str.strip (("size = " ++ Str.str_of_nat n) ++ Str.nl))))
           Str.int
     = Ok (Z.of_nat n).
Proof.
  destruct (str_of_nat_digits n) as [D NE].
  destruct (str_of_nat_plain n) as [_ [NL _]].
  split.
  - apply readline_line. rewrite no_newline_app, NL. reflexivity.
  - rewrite strip_line.
    + unfold Str.split_ws.
      change (Str.words_from ("size = " ++ Str.str_of_nat n) "")
        with ("size"%string :: "="%string
              :: Str.words_from (Str.str_of_nat n) "").
      rewrite (words_digits _ D "") by exact NE.
      cbn [append]. unfold Str.last_of. cbn [length Nat.sub nth_error rbind].
      apply int_str_of_nat.
    + unfold Str.strip.
      change (Str.lstrip_by Str.is_space ("size = " ++ Str.str_of_nat n))
        with ("size = " ++ Str.str_of_nat n)%string.
      apply rstrip_app_digits; assumption.
Qed.

(** *** The tiers of a document file *)

Lemma grid_interval_bounds (float : string -> result Q)
  (float_str : Q -> string)
  (o : Interval.t) :
  grid_interval float float_str o ->
  printable float float_str (Interval.start_time o)
  /\ printable float float_str (Interval.end_time o).
Proof. intros [_ [A [B _]]]. split; assumption. Qed.

Lemma grid_interval_gap (float : string -> result Q) (float_str : Q -> string)
  (a b : Q) :
  printable float float_str a -> printable float float_str b -> a < b ->
  grid_interval float float_str (Interval.mk Interval_cls a b "").
Proof.
  intros A B L. split; [exact L|]. split; [exact A|]. split; [exact B|].
  repeat split.
Qed.

Lemma tier_init_ok {E} (name : string) (s e : Q) :
  0 <= s -> 0 <= e ->
  @Tier.__init__ E name s e = Ok (Tier.mk name s e []).
Proof.
  intros Hs He. unfold Tier.__init__.
  qcase (Qltb s 0); [lra|]. qcase (Qltb e 0); [lra|]. reflexivity.
Qed.

Lemma grid_interval_shape (float_str : Q -> string) (j : nat)
  (o : Interval.t) (r : list Interval.t) (rest : string) :
  (TextGridCodec.write_intervals float_str j (o :: r) ++ rest)%string
  = ((Str.tab ++ Str.tab ++ Str.tab ++ "intervals [" ++ Str.str_of_nat j
      ++ "]:") ++ Str.nl
     ++ ((Str.tab ++ Str.tab ++ Str.tab ++ Str.tab ++ "xmin") ++ " = "
         ++ float_str (Interval.start_time o)) ++ Str.nl
     ++ ((Str.tab ++ Str.tab ++ Str.tab ++ Str.tab ++ "xmax") ++ " = "
         ++ float_str (Interval.end_time o)) ++ Str.nl
     ++ ((Str.tab ++ Str.tab ++ Str.tab ++ Str.tab ++ "text") ++ " = "
         ++ Str.dquote ++ Interval.text o ++ Str.dquote) ++ Str.nl
     ++ TextGridCodec.write_intervals float_str (S j) r ++ rest)%string.
Proof.
  cbn [TextGridCodec.write_intervals]. rewrite !str_app_assoc. reflexivity.
Qed.

Lemma read_grid_interval (float : string -> result Q) (float_str : Q -> string)
  (j n : nat)
  (o : Interval.t) (r : list Interval.t) (rest : string)
  (self : IntervalTier.t) :
  grid_interval float float_str o ->
  TextGridCodec.read_intervals float (S n)
    (TextGridCodec.write_intervals float_str j (o :: r) ++ rest) self
  = (IntervalTier.add (Interval.start_time o) (Interval.end_time o)
                      (Interval.text o) false
     ;;; TextGridCodec.read_intervals float n
           (TextGridCodec.write_intervals float_str (S j) r ++ rest)) self.
Proof.
  intros [_ [[P1 F1] [[P2 F2] Qt]]].
  rewrite grid_interval_shape. cbn [TextGridCodec.read_intervals].
  rewrite readline_line.
  2:{ rewrite !no_newline_app.
      destruct (str_of_nat_plain j) as [_ [-> _]]. reflexivity. }
  cbv beta iota.
  match goal with
  | |- context [Str.readline ((?k ++ " = " ++ ?w) ++ Str.nl ++ ?rst)] =>
      destruct (read_key_line k w rst eq_refl eq_refl P1) as [R1 E1]
  end.
  rewrite R1. cbv beta iota. rewrite E1, F1.
  unfold bind at 1. unfold lift at 1.
  match goal with
  | |- context [Str.readline ((?k ++ " = " ++ ?w) ++ Str.nl ++ ?rst)] =>
      destruct (read_key_line k w rst eq_refl eq_refl P2) as [R2 E2]
  end.
  rewrite R2. cbv beta iota. rewrite E2, F2.
  unfold bind at 1. unfold lift at 1.
  match goal with
  | |- context [Str.readline ((?k ++ " = " ++ Str.dquote ++ ?w ++ Str.dquote)
                              ++ Str.nl ++ ?rst)] =>
      destruct (read_quoted_line k w rst eq_refl eq_refl Qt) as [R3 E3]
  end.
  rewrite R3. cbv beta iota. rewrite E3. reflexivity.
Qed.

Lemma read_grid_intervals (float : string -> result Q) (float_str : Q -> string)
  (rest : string)
  (out : list Interval.t) :
  forall (j : nat) (self : IntervalTier.t) (lo : Q),
    tier_wf self -> Tier.start_time self <= lo ->
    tiles lo (Tier.end_time self) out ->
    Forall (grid_interval float float_str) out ->
    (forall d, In d (Tier._objects self) ->
               Interval.cls d = Interval_cls /\ Interval.start_time d < lo) ->
    TextGridCodec.read_intervals float (length out)
      (TextGridCodec.write_intervals float_str j out ++ rest) self
    = Return (with_objects self (Tier._objects self ++ map as_interval out))
             rest.
Proof.
  induction out as [|o r IH]; intros j self lo Hw Hlo T W Hd.
  - cbn. rewrite app_nil_r. destruct self; reflexivity.
  - inversion W as [|? ? Wo Wr]; subst.
    destruct T as [T1 [T2 T3]]. pose proof (tiles_le _ _ _ T3) as T4.
    pose proof Wo as [Wpos _].
    cbn [length]. rewrite read_grid_interval by exact Wo. unfold bind.
    destruct Hw as [Hw0 Hw1].
    rewrite interval_appended.
    + replace (py_min (Tier.start_time self) (Interval.start_time o))
        with (Tier.start_time self)
        by (unfold py_min;
            qcase (Qltb (Interval.start_time o) (Tier.start_time self));
            [lra | reflexivity]).
      replace (py_max (Tier.end_time self) (Interval.end_time o))
        with (Tier.end_time self)
        by (unfold py_max;
            qcase (Qltb (Tier.end_time self) (Interval.end_time o));
            [lra | reflexivity]).
      rewrite (IH (S j) _ (Interval.end_time o)).
      * unfold with_objects. cbn [Tier._name Tier._start_time Tier._end_time
                                  Tier._objects map].
        rewrite <- app_assoc. reflexivity.
      * split; cbn; assumption.
      * cbn. lra.
      * exact T3.
      * exact Wr.
      * cbn [Tier._objects]. intros d Hin. apply in_app_or in Hin.
        destruct Hin as [Hin|[<-|[]]].
        -- destruct (Hd d Hin) as [C L]. split; [exact C | lra].
        -- split; [reflexivity | exact Wpos].
    + split; assumption.
    + lra.
    + exact T2.
    + intros d Hin. destruct (Hd d Hin) as [C L].
      split; [exact C|]. split; [lra|]. intros [E _]. lra.
Qed.

(** A point later than everything stored is appended. *)
Lemma point_appended (self : PointTier.t) (t : Q) (text : string) :
  tier_wf self -> 0 <= t ->
  (forall d, In d (Tier._objects self) -> Interval.start_time d < t) ->
  PointTier.add t text false self
  = Return (Tier.mk (Tier._name self) (py_min (Tier.start_time self) t)
                    (py_max (Tier.end_time self) t)
                    (Tier._objects self ++ [Interval.mk Point_cls t t text]))
           tt.
Proof.
  intros Hw H0 Hlt.
  unfold PointTier.add, bind, lift, Point.new.
  rewrite Interval_init_ok by lra.
  rewrite add_point_place by (cbn; assumption).
  rewrite place_append; [reflexivity | |].
  - apply Forall_forall. intros d Hd.
    rewrite op_lt_point by reflexivity. cbn. qprop.
    specialize (Hlt d Hd). lra.
  - apply Forall_forall. intros d Hd. unfold same_time. cbn. qprop.
    specialize (Hlt d Hd). unfold Point.time. lra.
Qed.

Lemma grid_point_shape (float_str : Q -> string) (j : nat)
  (o : Interval.t) (r : list Interval.t) (rest : string) :
  (TextGridCodec.write_points float_str j (o :: r) ++ rest)%string
  = ((Str.tab ++ Str.tab ++ Str.tab ++ "points [" ++ Str.str_of_nat j
      ++ "]:") ++ Str.nl
     ++ ((Str.tab ++ Str.tab ++ Str.tab ++ Str.tab ++ "time") ++ " = "
         ++ float_str (Point.time o)) ++ Str.nl
     ++ ((Str.tab ++ Str.tab ++ Str.tab ++ Str.tab ++ "text") ++ " = "
         ++ Str.dquote ++ Interval.text o ++ Str.dquote) ++ Str.nl
     ++ TextGridCodec.write_points float_str (S j) r ++ rest)%string.
Proof.
  cbn [TextGridCodec.write_points]. rewrite !str_app_assoc. reflexivity.
Qed.

Lemma read_grid_point (float : string -> result Q) (float_str : Q -> string)
  (lo hi : Q) (j n : nat)
  (o : Interval.t) (r : list Interval.t) (rest : string)
  (self : PointTier.t) :
  grid_point float float_str lo hi o ->
  TextGridCodec.read_points float (S n)
    (TextGridCodec.write_points float_str j (o :: r) ++ rest) self
  = (PointTier.add (Point.time o) (Interval.text o) false
     ;;; TextGridCodec.read_points float n
           (TextGridCodec.write_points float_str (S j) r ++ rest)) self.
Proof.
  intros [_ [_ [[P1 F1] Qt]]].
  rewrite grid_point_shape. cbn [TextGridCodec.read_points].
  rewrite readline_line.
  2:{ rewrite !no_newline_app.
      destruct (str_of_nat_plain j) as [_ [-> _]]. reflexivity. }
  cbv beta iota.
  match goal with
  | |- context [Str.readline ((?k ++ " = " ++ ?w) ++ Str.nl ++ ?rst)] =>
      destruct (read_key_line k w rst eq_refl eq_refl P1) as [R1 E1]
  end.
  rewrite R1. cbv beta iota. rewrite E1, F1.
  unfold bind at 1. unfold lift at 1.
  match goal with
  | |- context [Str.readline ((?k ++ " = " ++ Str.dquote ++ ?w ++ Str.dquote)
                              ++ Str.nl ++ ?rst)] =>
      destruct (read_quoted_line k w rst eq_refl eq_refl Qt) as [R3 E3]
  end.
  rewrite R3. cbv beta iota. rewrite E3. reflexivity.
Qed.

Lemma read_grid_points (float : string -> result Q) (float_str : Q -> string)
  (rest : string)
  (pts : list Interval.t) :
  forall (j : nat) (self : PointTier.t),
    tier_wf self ->
    StronglySorted time_lt pts ->
    Forall (grid_point float float_str (Tier.start_time self) (Tier.end_time self))
           pts ->
    (forall d p, In d (Tier._objects self) -> In p pts ->
                 Interval.start_time d < Point.time p) ->
    TextGridCodec.read_points float (length pts)
      (TextGridCodec.write_points float_str j pts ++ rest) self
    = Return (with_objects self (Tier._objects self ++ map as_point pts))
             rest.
Proof.
  induction pts as [|o r IH]; intros j self Hw Hs W Hd.
  - cbn. rewrite app_nil_r. destruct self; reflexivity.
  - inversion W as [|? ? Wo Wr]; subst.
    inversion Hs as [|? ? Hs' Ho]; subst.
    pose proof Wo as [Wlo [Whi _]].
    destruct Hw as [Hw0 Hw1].
    cbn [length].
    rewrite (read_grid_point _ _ _ _ _ _ _ _ _ _ Wo). unfold bind.
    rewrite point_appended.
    + replace (py_min (Tier.start_time self) (Point.time o))
        with (Tier.start_time self)
        by (unfold py_min;
            qcase (Qltb (Point.time o) (Tier.start_time self));
            [lra | reflexivity]).
      replace (py_max (Tier.end_time self) (Point.time o))
        with (Tier.end_time self)
        by (unfold py_max;
            qcase (Qltb (Tier.end_time self) (Point.time o));
            [lra | reflexivity]).
      rewrite (IH (S j)).
      * unfold with_objects. cbn [Tier._name Tier._start_time Tier._end_time
                                  Tier._objects map].
        rewrite <- app_assoc. reflexivity.
      * split; cbn; assumption.
      * exact Hs'.
      * exact Wr.
      * cbn [Tier._objects]. intros d p Hin Hp. apply in_app_or in Hin.
        destruct Hin as [Hin|[<-|[]]].
        -- apply Hd; [exact Hin | right; exact Hp].
        -- rewrite Forall_forall in Ho. exact (Ho p Hp).
    + split; assumption.
    + lra.
    + intros d Hin. apply Hd; [exact Hin | left; reflexivity].
Qed.

Lemma quotable_class (c : string) :
  c = "IntervalTier"%string \/ c = "TextTier"%string -> quotable c.
Proof. intros [->| ->]; repeat split. Qed.

Lemma interval_tier_shape (float_str : Q -> string) (i : nat)
  (t : IntervalTier.t) (count body rest : string) :
  ((Str.tab ++ "item [" ++ Str.str_of_nat i ++ "]:" ++ Str.nl
    ++ Str.tab ++ Str.tab ++ "class = " ++ Str.dquote ++ "IntervalTier"
    ++ Str.dquote ++ Str.nl
    ++ Str.tab ++ Str.tab ++ "name = " ++ Str.dquote ++ Tier.name t
    ++ Str.dquote ++ Str.nl
    ++ Str.tab ++ Str.tab ++ "xmin = " ++ float_str (Tier.start_time t)
    ++ Str.nl
    ++ Str.tab ++ Str.tab ++ "xmax = " ++ float_str (Tier.end_time t)
    ++ Str.nl)
   ++ Str.tab ++ Str.tab ++ "intervals: size = " ++ count ++ Str.nl
   ++ body ++ rest)%string
  = ((Str.tab ++ "item [" ++ Str.str_of_nat i ++ "]:") ++ Str.nl
     ++ ((Str.tab ++ Str.tab ++ "class") ++ " = "
         ++ Str.dquote ++ "IntervalTier" ++ Str.dquote) ++ Str.nl
     ++ ((Str.tab ++ Str.tab ++ "name") ++ " = "
         ++ Str.dquote ++ Tier.name t ++ Str.dquote) ++ Str.nl
     ++ ((Str.tab ++ Str.tab ++ "xmin") ++ " = "
         ++ float_str (Tier.start_time t)) ++ Str.nl
     ++ ((Str.tab ++ Str.tab ++ "xmax") ++ " = "
         ++ float_str (Tier.end_time t)) ++ Str.nl
     ++ ((Str.tab ++ Str.tab ++ "intervals: size") ++ " = " ++ count)
     ++ Str.nl
     ++ body ++ rest)%string.
Proof. rewrite !str_app_assoc. reflexivity. Qed.

Lemma point_tier_shape (float_str : Q -> string) (i : nat)
  (t : PointTier.t) (count body rest : string) :
  (Str.tab ++ "item [" ++ Str.str_of_nat i ++ "]:" ++ Str.nl
   ++ Str.tab ++ Str.tab ++ "class = " ++ Str.dquote ++ "TextTier"
   ++ Str.dquote ++ Str.nl
   ++ Str.tab ++ Str.tab ++ "name = " ++ Str.dquote ++ Tier.name t
   ++ Str.dquote ++ Str.nl
   ++ Str.tab ++ Str.tab ++ "xmin = " ++ float_str (Tier.start_time t)
   ++ Str.nl
   ++ Str.tab ++ Str.tab ++ "xmax = " ++ float_str (Tier.end_time t)
   ++ Str.nl
   ++ Str.tab ++ Str.tab ++ "points: size = " ++ count ++ Str.nl
   ++ body ++ rest)%string
  = ((Str.tab ++ "item [" ++ Str.str_of_nat i ++ "]:") ++ Str.nl
     ++ ((Str.tab ++ Str.tab ++ "class") ++ " = "
         ++ Str.dquote ++ "TextTier" ++ Str.dquote) ++ Str.nl
     ++ ((Str.tab ++ Str.tab ++ "name") ++ " = "
         ++ Str.dquote ++ Tier.name t ++ Str.dquote) ++ Str.nl
     ++ ((Str.tab ++ Str.tab ++ "xmin") ++ " = "
         ++ float_str (Tier.start_time t)) ++ Str.nl
     ++ ((Str.tab ++ Str.tab ++ "xmax") ++ " = "
         ++ float_str (Tier.end_time t)) ++ Str.nl
     ++ ((Str.tab ++ Str.tab ++ "points: size") ++ " = " ++ count)
     ++ Str.nl
     ++ body ++ rest)%string.
Proof. rewrite !str_app_assoc. reflexivity. Qed.

Ltac read_plain_line H :=
  match goal with
  | |- context [Str.readline ((?k ++ " = " ++ ?w) ++ Str.nl ++ ?rst)] =>
      let R := fresh "R" in
      let E := fresh "E" in
      destruct (read_key_line k w rst eq_refl eq_refl H) as [R E];
      rewrite R; cbv beta iota; rewrite E; clear R E
  end.

Ltac read_quoted H :=
  match goal with
  | |- context [Str.readline ((?k ++ " = " ++ Str.dquote ++ ?w ++ Str.dquote)
                              ++ Str.nl ++ ?rst)] =>
      let R := fresh "R" in
      let E := fresh "E" in
      destruct (read_quoted_line k w rst eq_refl eq_refl H) as [R E];
      rewrite R; cbv beta iota; rewrite E; clear R E
  end.

(** One tier of a document file is read back as it was written, with
    the gaps of an interval tier filled. *)
Lemma read_written_tier (float : string -> result Q) (float_str : Q -> string)
  (lo hi : Q) (i : nat)
  (x : tier) (rest : string) :
  grid_tier float float_str lo hi x ->
  exists (a : string) (y : tier),
    TextGridCodec.write_tier float_str i x = Return a tt
    /\ reread x y
    /\ Tier.start_time (tier_state y) = Tier.start_time (tier_state x)
    /\ Tier.end_time (tier_state y) = Tier.end_time (tier_state x)
    /\ TextGridCodec.read_tier float (a ++ rest) = Ok (y, rest).
Proof.
  intros [Qn [H0 [Hle [_ [_ [[Ps Fs] [[Pe Fe] Hx]]]]]]].
  assert (NL : Str.no_newline (Str.tab ++ "item [" ++ Str.str_of_nat i ++ "]:")
               = true).
  { rewrite !no_newline_app. destruct (str_of_nat_plain i) as [_ [-> _]].
    reflexivity. }
  destruct x as [t|t]; cbn [tier_state] in *.
  - destruct Hx as [Hs Hp].
    eexists. exists (PointTier_obj (with_objects t (map as_point (Tier._objects t)))).
    split; [reflexivity|]. split; [reflexivity|].
    split; [reflexivity|]. split; [reflexivity|].
    rewrite !str_app_assoc.
    rewrite (point_tier_shape float_str i t).
    unfold TextGridCodec.read_tier.
    rewrite (readline_line _ _ NL). cbv beta iota.
    read_quoted (quotable_class "TextTier" (or_intror eq_refl)).
    change (String.eqb "TextTier" "IntervalTier") with false. cbv iota.
    read_quoted Qn.
    read_plain_line Ps. rewrite Fs. cbn [rbind].
    read_plain_line Pe. rewrite Fe. cbn [rbind].
    unfold PointTier.new. rewrite tier_init_ok by lra. cbn [rbind].
    read_plain_line (str_of_nat_plain (Tier.__len__ t)).
    rewrite int_str_of_nat. cbn [rbind]. rewrite Nat2Z.id.
    unfold Tier.__len__.
    rewrite (read_grid_points float float_str rest (Tier._objects t) 1
               (Tier.mk (Tier.name t) (Tier.start_time t) (Tier.end_time t) [])).
    + reflexivity.
    + split; cbn; lra.
    + exact Hs.
    + exact Hp.
    + intros d p [].
  - destruct Hx as [Ho [Hc Hi]].
    destruct (fill_keeps (printable float float_str) (grid_interval float float_str)
                (grid_interval_bounds float float_str) (grid_interval_gap float float_str)
                t H0 Ho Hc Hi (conj Ps Fs) (conj Pe Fe))
      as [output [F [T W]]].
    eexists.
    exists (IntervalTier_obj (with_objects t (map as_interval output))).
    split; [unfold TextGridCodec.write_tier; rewrite F; reflexivity|].
    split; [exists output; split; [exact F | reflexivity]|].
    split; [reflexivity|]. split; [reflexivity|].
    rewrite !(str_app_assoc _ _ rest).
    rewrite (interval_tier_shape float_str i t).
    unfold TextGridCodec.read_tier.
    rewrite (readline_line _ _ NL). cbv beta iota.
    read_quoted (quotable_class "IntervalTier" (or_introl eq_refl)).
    change (String.eqb "IntervalTier" "IntervalTier") with true. cbv iota.
    read_quoted Qn.
    read_plain_line Ps. rewrite Fs. cbn [rbind].
    read_plain_line Pe. rewrite Fe. cbn [rbind].
    unfold IntervalTier.new. rewrite tier_init_ok by lra. cbn [rbind].
    read_plain_line (str_of_nat_plain (length output)).
    rewrite int_str_of_nat. cbn [rbind]. rewrite Nat2Z.id.
    destruct T as [->|T].
    + destruct t; reflexivity.
    + rewrite (read_grid_intervals float float_str rest output 1
                 (Tier.mk (Tier.name t) (Tier.start_time t) (Tier.end_time t) [])
                 (Tier.start_time t)).
      * reflexivity.
      * split; cbn; lra.
      * cbn. lra.
      * exact T.
      * exact W.
      * intros d [].
Qed.

(** The tiers of a document file are read back one after the other and
    appended; the bounds of the document, which cover theirs, stay. *)
Lemma read_written_tiers (float : string -> result Q) (float_str : Q -> string)
  (tiers : list tier) :
  forall (i : nat) (tg : TextGrid.t),
    tier_wf tg ->
    Forall (grid_tier float float_str (Tier.start_time tg) (Tier.end_time tg))
           tiers ->
    exists (b : string) (ys : list tier),
      TextGridCodec.write_tiers float_str i tiers = Return b tt
      /\ Forall2 reread tiers ys
      /\ TextGridCodec.read_tiers float (length tiers) b tg
         = Return (with_objects tg (Tier._objects tg ++ ys)) tt.
Proof.
  induction tiers as [|x r IH]; intros i tg Hw Hg.
  - exists ""%string, []. split; [reflexivity|]. split; [constructor|].
    cbn. rewrite app_nil_r. destruct tg; reflexivity.
  - inversion Hg as [|? ? Hx Hr]; subst.
    set (tg1 := Tier.mk (Tier._name tg) (Tier.start_time tg) (Tier.end_time tg)
                        (Tier._objects tg)).
    destruct (IH (S i) tg Hw Hr) as [b _].
    clear b.
    assert (Hb : exists b, forall tg' : TextGrid.t,
               tier_wf tg' ->
               Tier.start_time tg' = Tier.start_time tg ->
               Tier.end_time tg' = Tier.end_time tg ->
               exists ys,
                 TextGridCodec.write_tiers float_str (S i) r = Return b tt
                 /\ Forall2 reread r ys
                 /\ TextGridCodec.read_tiers float (length r) b tg'
                    = Return (with_objects tg' (Tier._objects tg' ++ ys)) tt).
    { destruct (IH (S i) tg Hw Hr) as [b [ys0 [Wb _]]].
      exists b. intros tg' Hw' S' E'.
      destruct (IH (S i) tg' Hw') as [b' [ys [Wb' [Ry Rd]]]].
      { rewrite S', E'. exact Hr. }
      rewrite Wb in Wb'. injection Wb' as <-.
      exists ys. repeat split; assumption. }
    destruct Hb as [b Hb].
    destruct (read_written_tier float float_str _ _ i x b Hx)
      as [a [y [Wa [Rxy [Sy [Ey Rt]]]]]].
    pose proof Hx as [_ [X0 [Xle [Xlo [Xhi _]]]]].
    destruct Hw as [Hw0 Hw1].
    assert (Ap : TextGrid.append y None tg
                 = Return (with_objects tg (Tier._objects tg ++ [y])) tt).
    { rewrite append_widens by (try split; try rewrite Sy; assumption).
      rewrite Sy, Ey.
      replace (py_min (Tier.start_time tg) (Tier.start_time (tier_state x)))
        with (Tier.start_time tg)
        by (unfold py_min;
            qcase (Qltb (Tier.start_time (tier_state x)) (Tier.start_time tg));
            [lra | reflexivity]).
      replace (py_max (Tier.end_time tg) (Tier.end_time (tier_state x)))
        with (Tier.end_time tg)
        by (unfold py_max;
            qcase (Qltb (Tier.end_time tg) (Tier.end_time (tier_state x)));
            [lra | reflexivity]).
      reflexivity. }
    destruct (Hb (with_objects tg (Tier._objects tg ++ [y])))
      as [ys [Wb [Ry Rd]]]; [split; cbn; assumption | reflexivity
                             | reflexivity |].
    exists (a ++ b)%string, (y :: ys).
    split; [cbn [TextGridCodec.write_tiers]; rewrite Wa, Wb; reflexivity|].
    split; [constructor; assumption|].
    cbn [length TextGridCodec.read_tiers]. rewrite Rt. unfold bind.
    rewrite Ap, Rd. unfold with_objects. cbn [Tier._name Tier._start_time
                                                Tier._end_time Tier._objects].
    rewrite <- app_assoc. reflexivity.
Qed.

Lemma grid_file_shape (float_str : Q -> string) (tg : TextGrid.t)
  (body : string) :
  (TextGridCodec.header float_str tg ++ body)%string
  = (("File type = " ++ Str.dquote ++ "ooTextFile" ++ Str.dquote) ++ Str.nl
     ++ ("Object class = " ++ Str.dquote ++ "TextGrid" ++ Str.dquote)
     ++ Str.nl ++ "" ++ Str.nl
     ++ ("xmin" ++ " = " ++ float_str (Tier.start_time tg)) ++ Str.nl
     ++ ("xmax" ++ " = " ++ float_str (Tier.end_time tg)) ++ Str.nl
     ++ "tiers? <exists>" ++ Str.nl
     ++ ("size = " ++ Str.str_of_nat (Tier.__len__ tg)) ++ Str.nl
     ++ "item []:" ++ Str.nl ++ body)%string.
Proof.
  unfold TextGridCodec.header. rewrite !str_app_assoc. reflexivity.
Qed.

(** [read] names the document after the file when it has no name. *)
Lemma read_names (name stem : string) (k : M TextGrid.t unit) :
  ((self <- get ;;
    if String.eqb (Tier.name self) "" then Tier.name_setter stem else ret tt)
   ;;; k) (Tier.mk name 0 0 [])
  = k (Tier.mk (derived_name name stem) 0 0 []).
Proof.
  unfold bind, get, derived_name. cbn [Tier.name Tier._name].
  destruct (String.eqb name ""); reflexivity.
Qed.

(** X26. Call a time printable when it is printed as an ASCII text without
    line break (line feed or carriage return), without [" = "] and
    without white space at its ends, that [float] reads back as that
    time; and a text quotable when it is ASCII, without line break,
    without [" = "] and without double quotes at its ends.  A document
    that starts at 0 and ends no earlier, with printable bounds, whose
    tiers each have a quotable name and printable bounds, in order
    ([0 <= start_time <= end_time]) and inside those of the document,
    and hold either intervals in order without overlap inside the
    bounds of the tier, each with [start_time < end_time], printable
    bounds and a quotable text, or points at strictly increasing
    printable times inside the bounds of the tier, each with a quotable
    text, is written by [write] to a file that [from_file] reads back
    as a document with the same bounds and the same tiers in the same
    order: each with its class, name and bounds, the points as they
    were and the intervals with their gaps filled.  The document is
    named as asked, or after the file when no name is given. *)
Theorem textgrid_file_round_trip (float : string -> result Q)
  (float_str : Q -> string)
  (tg : TextGrid.t) (stem name : string)
  (H0 : Tier.start_time tg == 0)
  (Hle : Tier.start_time tg <= Tier.end_time tg)
  (Hs : printable float float_str (Tier.start_time tg))
  (He : printable float float_str (Tier.end_time tg))
  (Htiers : Forall (grid_tier float float_str (Tier.start_time tg)
                              (Tier.end_time tg))
                   (Tier._objects tg)) :
  exists (text : string) (tiers : list tier),
    TextGridCodec.write float_str tg = Return text tt
    /\ TextGridCodec.from_file float text stem name
       = Ok (Tier.mk (derived_name name stem) (Tier.start_time tg)
                     (Tier.end_time tg) tiers)
    /\ Forall2 reread (Tier._objects tg) tiers.
Proof.
  destruct Hs as [Ps Fs]. destruct He as [Pe Fe].
  destruct (read_written_tiers float float_str (Tier._objects tg) 1
              (Tier.mk (derived_name name stem) (Tier.start_time tg)
                       (Tier.end_time tg) []))
    as [b [ys [Wb [Ry Rd]]]]; [split; cbn; lra | exact Htiers |].
  exists (TextGridCodec.header float_str tg ++ b)%string, ys.
  split; [unfold TextGridCodec.write; rewrite Wb; reflexivity|].
  split; [|exact Ry].
  rewrite grid_file_shape. unfold TextGridCodec.from_file.
  change (TextGrid.new name 0 0)
    with (Ok (Tier.mk name 0 0 ([] : list tier))).
  cbv beta iota. unfold TextGridCodec.read. rewrite read_names.
  rewrite readline_line by reflexivity.
  rewrite readline_line by reflexivity.
  rewrite (readline_line ""%string) by reflexivity.
  cbv beta iota.
  read_plain_line Ps. rewrite Fs.
  unfold bind at 1. unfold lift at 1.
  unfold bind at 1. rewrite start_time_setter_ok by (cbn; lra).
  cbn [Tier._name Tier._end_time Tier._objects].
  read_plain_line Pe. rewrite Fe.
  unfold bind at 1. unfold lift at 1.
  unfold bind at 1. rewrite end_time_setter_ok by (cbn; lra).
  cbn [Tier._name Tier._start_time Tier._objects].
  rewrite (readline_line "tiers? <exists>"%string) by reflexivity.
  cbv beta iota.
  destruct (read_size_line (Tier.__len__ tg)
              ("item []:" ++ Str.nl ++ b)) as [R E].
  rewrite R. cbv beta iota. rewrite E. clear R E.
  unfold bind at 1. unfold lift at 1.
  rewrite (readline_line "item []:"%string) by reflexivity.
  cbv beta iota. rewrite Nat2Z.id. unfold Tier.__len__.
  rewrite Rd. reflexivity.
Qed.

Lemma textgrid_file_round_trip_witness :
  exists (text : string) (tiers : list tier),
    TextGridCodec.write
      (fun q => Str.str_of_nat (Z.to_nat (Qnum q)))
      (Tier.mk "doc" 0 9
         [IntervalTier_obj
            (Tier.mk "words" 1 5 [Interval.mk Interval_cls 2 3 "a"]);
          PointTier_obj
            (Tier.mk "tones" 0 9 [Interval.mk Point_cls 4 4 "H";
                                  Interval.mk Point_cls 7 7 "L"])])
    = Return text tt
    /\ TextGridCodec.from_file Str.decimal text "file" ""
       = Ok (Tier.mk (derived_name "" "file") 0 9 tiers)
    /\ Forall2 reread
         [IntervalTier_obj
            (Tier.mk "words" 1 5 [Interval.mk Interval_cls 2 3 "a"]);
          PointTier_obj
            (Tier.mk "tones" 0 9 [Interval.mk Point_cls 4 4 "H";
                                  Interval.mk Point_cls 7 7 "L"])]
         tiers.
Proof.
  apply (textgrid_file_round_trip Str.decimal
           (fun q => Str.str_of_nat (Z.to_nat (Qnum q)))
           (Tier.mk "doc" 0 9
              [IntervalTier_obj
                 (Tier.mk "words" 1 5 [Interval.mk Interval_cls 2 3 "a"]);
               PointTier_obj
                 (Tier.mk "tones" 0 9 [Interval.mk Point_cls 4 4 "H";
                                       Interval.mk Point_cls 7 7 "L"])])
           "file" "").
  - reflexivity.
  - cbn. lra.
  - repeat constructor.
  - repeat constructor.
  - repeat constructor; cbn; lra.
Defined.

(** X27. [TextGrid.from_file] reads into a new document, whose bounds are
    [0 .. 0], and [read] sets [start_time] before [end_time]: a file
    that begins with four lines without a line break inside them
    (neither a line feed nor a carriage return), each ended by a line
    feed, and from the field of whose fourth line (what follows its
    last [" = "], stripped) [float] reads a number that is not 0,
    raises [ValueError], whatever follows, although a tier inside a
    document may start later than 0. *)
Theorem textgrid_file_xmin_must_be_zero (float : string -> result Q)
  (l1 l2 l3 l4 rest stem name : string)
  (q : Q)
  (H1 : Str.no_newline l1 = true) (H2 : Str.no_newline l2 = true)
  (H3 : Str.no_newline l3 = true) (H4 : Str.no_newline l4 = true)
  (Hf : float (PointTierCodec.field (l4 ++ Str.nl)) = Ok q)
  (Hq : ~ q == 0) :
  TextGridCodec.from_file float
    (l1 ++ Str.nl ++ l2 ++ Str.nl ++ l3 ++ Str.nl ++ l4 ++ Str.nl ++ rest)
    stem name
  = Err ValueError.
Proof.
  unfold TextGridCodec.from_file.
  change (TextGrid.new name 0 0)
    with (Ok (Tier.mk name 0 0 ([] : list tier))).
  cbv beta iota. unfold TextGridCodec.read. rewrite read_names.
  rewrite (readline_line l1 _ H1), (readline_line l2 _ H2),
    (readline_line l3 _ H3), (readline_line l4 _ H4).
  cbv beta iota. unfold bind at 1. unfold lift at 1. rewrite Hf.
  unfold bind at 1. unfold Tier.start_time_setter.
  cbn [Tier._end_time].
  qcase (Qltb q 0); [reflexivity|].
  qcase (Qltb 0 q); [reflexivity|].
  exfalso. apply Hq. lra.
Qed.

Lemma textgrid_file_xmin_must_be_zero_witness :
  TextGridCodec.from_file Str.decimal
    ("File type = x" ++ Str.nl ++ "Object class = y" ++ Str.nl ++ "" ++ Str.nl
     ++ "xmin = 2" ++ Str.nl ++ "xmax = 3" ++ Str.nl) "file" ""
  = Err ValueError.
Proof.
  apply (textgrid_file_xmin_must_be_zero Str.decimal "File type = x" "Object class = y" ""
           "xmin = 2" ("xmax = 3" ++ Str.nl) "file" "" 2
           eq_refl eq_refl eq_refl eq_refl);
    [vm_compute; reflexivity | intros H; vm_compute in H; discriminate].
Defined.

(** *** The file of a point tier, without its second header *)

Lemma point_block_shape (float_str : Q -> string) (i : nat) (o : Interval.t)
  (r : list Interval.t) :
  PointTierCodec.write_points float_str i (o :: r)
  = (("points [" ++ Str.str_of_nat i ++ "]:") ++ Str.nl
     ++ ((Str.tab ++ "time") ++ " = " ++ float_str (Point.time o)) ++ Str.nl
     ++ ((Str.tab ++ "text") ++ " = " ++ Interval.text o) ++ Str.nl
     ++ PointTierCodec.write_points float_str (S i) r)%string.
Proof.
  cbn [PointTierCodec.write_points]. rewrite !str_app_assoc. reflexivity.
Qed.

Lemma read_point_block (float : string -> result Q) (float_str : Q -> string)
  (lo hi : Q) (i n : nat)
  (o : Interval.t) (r : list Interval.t) (self : PointTier.t) :
  tier_point float float_str lo hi o ->
  PointTierCodec.read_points float (S n)
    (PointTierCodec.write_points float_str i (o :: r)) self
  = (PointTier.add (Point.time o) (Interval.text o) false
     ;;; PointTierCodec.read_points float n
           (PointTierCodec.write_points float_str (S i) r)) self.
Proof.
  intros [_ [_ [[P1 F1] [P3 Q3]]]].
  rewrite point_block_shape. cbn [PointTierCodec.read_points].
  rewrite readline_line.
  2:{ rewrite !no_newline_app.
      destruct (str_of_nat_plain i) as [_ [-> _]]. reflexivity. }
  cbv beta iota.
  read_plain_line P1. rewrite F1.
  unfold bind at 1. unfold lift at 1.
  read_plain_line P3. rewrite Q3. reflexivity.
Qed.

Lemma read_written_points (float : string -> result Q) (float_str : Q -> string)
  (pts : list Interval.t) :
  forall (i : nat) (self : PointTier.t),
    tier_wf self ->
    StronglySorted time_lt pts ->
    Forall (tier_point float float_str (Tier.start_time self) (Tier.end_time self))
           pts ->
    (forall d p, In d (Tier._objects self) -> In p pts ->
                 Interval.start_time d < Point.time p) ->
    PointTierCodec.read_points float (length pts)
      (PointTierCodec.write_points float_str i pts) self
    = Return (with_objects self (Tier._objects self ++ map as_point pts)) tt.
Proof.
  induction pts as [|o r IH]; intros i self Hw Hs W Hd.
  - cbn. rewrite app_nil_r. destruct self; reflexivity.
  - inversion W as [|? ? Wo Wr]; subst.
    inversion Hs as [|? ? Hs' Ho]; subst.
    pose proof Wo as [Wlo [Whi _]].
    destruct Hw as [Hw0 Hw1].
    cbn [length].
    rewrite (read_point_block _ _ _ _ _ _ _ _ _ Wo). unfold bind.
    rewrite point_appended.
    + replace (py_min (Tier.start_time self) (Point.time o))
        with (Tier.start_time self)
        by (unfold py_min;
            qcase (Qltb (Point.time o) (Tier.start_time self));
            [lra | reflexivity]).
      replace (py_max (Tier.end_time self) (Point.time o))
        with (Tier.end_time self)
        by (unfold py_max;
            qcase (Qltb (Tier.end_time self) (Point.time o));
            [lra | reflexivity]).
      rewrite (IH (S i)).
      * unfold with_objects. cbn [Tier._name Tier._start_time Tier._end_time
                                  Tier._objects map].
        rewrite <- app_assoc. reflexivity.
      * split; cbn; assumption.
      * exact Hs'.
      * exact Wr.
      * cbn [Tier._objects]. intros d p Hin Hp. apply in_app_or in Hin.
        destruct Hin as [Hin|[<-|[]]].
        -- apply Hd; [exact Hin | right; exact Hp].
        -- rewrite Forall_forall in Ho. exact (Ho p Hp).
    + split; assumption.
    + lra.
    + intros d Hin. apply Hd; [exact Hin | left; reflexivity].
Qed.

(** X28. What [PointTier.write] produces is one header line too long for
    [PointTier.read], and only that.  Call a time printable when it is
    printed as an ASCII text without line break (line feed or carriage
    return), without [" = "] and without white space at its ends, that
    [float] reads back as that time.  For an [object_class] without
    line break and a point tier that starts at 0 and ends no earlier,
    with printable bounds and points at strictly increasing printable
    times inside the bounds, each with an ASCII text without line
    break, without [" = "] and without white space or double quotes at
    its ends: without the second [Object class] line and the empty line
    after it, the file is read by [from_file] as a tier with the same
    bounds and the same points. *)
Theorem point_tier_file_without_second_header (float : string -> result Q)
  (float_str : Q -> string)
  (self : PointTier.t) (object_class name : string)
  (Hoc : Str.no_newline object_class = true)
  (H0 : Tier.start_time self == 0)
  (Hle : Tier.start_time self <= Tier.end_time self)
  (Hs : printable float float_str (Tier.start_time self))
  (He : printable float float_str (Tier.end_time self))
  (Hsorted : StronglySorted time_lt (Tier._objects self))
  (Hpts : Forall (tier_point float float_str (Tier.start_time self)
                             (Tier.end_time self))
                 (Tier._objects self)) :
  exists first rest : string,
    PointTierCodec.write float_str self object_class
    = (first
       ++ ("Object class = " ++ Str.dquote ++ "TextTier" ++ Str.dquote
           ++ Str.nl ++ Str.nl)
       ++ rest)%string
    /\ PointTierCodec.from_file float (first ++ rest) name
       = Ok (Tier.mk name (Tier.start_time self) (Tier.end_time self)
                     (map as_point (Tier._objects self))).
Proof.
  destruct Hs as [Ps Fs]. destruct He as [Pe Fe].
  exists ("File type = " ++ Str.dquote ++ "ooTextFile" ++ Str.dquote ++ Str.nl
          ++ "Object class = " ++ Str.dquote ++ object_class ++ Str.dquote
          ++ Str.nl ++ Str.nl)%string,
         ("xmin = " ++ float_str (Tier.start_time self) ++ Str.nl
          ++ "xmax = " ++ float_str (Tier.end_time self) ++ Str.nl
          ++ "points: size = " ++ Str.str_of_nat (Tier.__len__ self) ++ Str.nl
          ++ PointTierCodec.write_points float_str 1 (Tier._objects self))%string.
  split.
  - unfold PointTierCodec.write. rewrite !str_app_assoc. reflexivity.
  - replace (("File type = " ++ Str.dquote ++ "ooTextFile" ++ Str.dquote
              ++ Str.nl
              ++ "Object class = " ++ Str.dquote ++ object_class ++ Str.dquote
              ++ Str.nl ++ Str.nl)
             ++ "xmin = " ++ float_str (Tier.start_time self) ++ Str.nl
             ++ "xmax = " ++ float_str (Tier.end_time self) ++ Str.nl
             ++ "points: size = " ++ Str.str_of_nat (Tier.__len__ self)
             ++ Str.nl
             ++ PointTierCodec.write_points float_str 1 (Tier._objects self))%string
      with (("File type = " ++ Str.dquote ++ "ooTextFile" ++ Str.dquote)
            ++ Str.nl
            ++ ("Object class = " ++ Str.dquote ++ object_class ++ Str.dquote)
            ++ Str.nl ++ "" ++ Str.nl
            ++ ("xmin" ++ " = " ++ float_str (Tier.start_time self)) ++ Str.nl
            ++ ("xmax" ++ " = " ++ float_str (Tier.end_time self)) ++ Str.nl
            ++ ("points: size" ++ " = " ++ Str.str_of_nat (Tier.__len__ self))
            ++ Str.nl
            ++ PointTierCodec.write_points float_str 1 (Tier._objects self))%string
      by (rewrite !str_app_assoc; reflexivity).
    unfold PointTierCodec.from_file.
    change (PointTier.new name 0 0)
      with (Ok (Tier.mk name 0 0 ([] : list Interval.t))).
    cbv beta iota. unfold PointTierCodec.read.
    rewrite readline_line by reflexivity.
    rewrite readline_line
      by (rewrite !no_newline_app, Hoc; reflexivity).
    rewrite (readline_line ""%string) by reflexivity.
    cbv beta iota.
    read_plain_line Ps. rewrite Fs.
    unfold bind at 1. unfold lift at 1.
    unfold bind at 1. rewrite start_time_setter_ok by (cbn; lra).
    cbn [Tier._name Tier._end_time Tier._objects].
    read_plain_line Pe. rewrite Fe.
    unfold bind at 1. unfold lift at 1.
    unfold bind at 1. rewrite end_time_setter_ok by (cbn; lra).
    cbn [Tier._name Tier._start_time Tier._objects].
    read_plain_line (str_of_nat_plain (Tier.__len__ self)).
    rewrite int_str_of_nat.
    unfold bind at 1. unfold lift at 1. rewrite Nat2Z.id.
    unfold Tier.__len__.
    rewrite (read_written_points float float_str (Tier._objects self) 1
               (Tier.mk name (Tier.start_time self) (Tier.end_time self) [])).
    + reflexivity.
    + split; cbn; lra.
    + exact Hsorted.
    + exact Hpts.
    + intros d p [].
Qed.

Lemma point_tier_file_without_second_header_witness :
  exists first rest : string,
    PointTierCodec.write (fun q => Str.str_of_nat (Z.to_nat (Qnum q)))
      (Tier.mk "t" 0 9 [Interval.mk Point_cls 4 4 "H";
                        Interval.mk Point_cls 7 7 "L"]) "TextTier"
    = (first
       ++ ("Object class = " ++ Str.dquote ++ "TextTier" ++ Str.dquote
           ++ Str.nl ++ Str.nl)
       ++ rest)%string
    /\ PointTierCodec.from_file Str.decimal (first ++ rest) "u"
       = Ok (Tier.mk "u" 0 9
               (map as_point [Interval.mk Point_cls 4 4 "H";
                              Interval.mk Point_cls 7 7 "L"])).
Proof.
  apply (point_tier_file_without_second_header Str.decimal
           (fun q => Str.str_of_nat (Z.to_nat (Qnum q)))
           (Tier.mk "t" 0 9 [Interval.mk Point_cls 4 4 "H";
                             Interval.mk Point_cls 7 7 "L"]) "TextTier" "u").
  - reflexivity.
  - reflexivity.
  - cbn. lra.
  - repeat constructor.
  - repeat constructor.
  - repeat constructor; cbn; lra.
  - repeat constructor; cbn; lra.
Defined.

(* ================================================================== *)
(** ** More of the code: the order of an interval tier                 *)
(* ================================================================== *)

Lemma precedes_split (s e : Q) (l : list Interval.t) :
  s < e ->
  Forall (fun d => Interval.start_time d <= Interval.end_time d) l ->
  StronglySorted precedes l ->
  Forall (fun d => Interval.end_time d <= s \/ e <= Interval.start_time d) l ->
  exists l1 l2,
    l = l1 ++ l2
    /\ Forall (fun d => Interval.end_time d <= s) l1
    /\ Forall (fun d => e <= Interval.start_time d) l2.
Proof.
  intros Hse Hwf Hs Hf. induction l as [|d l IH].
  - exists [], []. repeat split; constructor.
  - inversion Hwf as [|? ? Wd Wl]; subst.
    inversion Hs as [|? ? Hs' Hd]; subst.
    inversion Hf as [|? ? Fd Fl]; subst.
    destruct Fd as [Fd|Fd].
    + destruct (IH Wl Hs' Fl) as [l1 [l2 [E [F1 F2]]]].
      exists (d :: l1), l2. split; [cbn; rewrite E; reflexivity|].
      split; [constructor; assumption | exact F2].
    + exists [], (d :: l). split; [reflexivity|]. split; [constructor|].
      constructor; [exact Fd|].
      rewrite Forall_forall in *. intros d' Hin.
      specialize (Hd d' Hin). unfold precedes in Hd. lra.
Qed.

Lemma precedes_insert (x : Interval.t) (l1 l2 : list Interval.t) :
  Interval.start_time x <= Interval.end_time x ->
  StronglySorted precedes (l1 ++ l2) ->
  Forall (fun d => Interval.end_time d <= Interval.start_time x) l1 ->
  Forall (fun d => Interval.end_time x <= Interval.start_time d) l2 ->
  StronglySorted precedes (l1 ++ x :: l2).
Proof.
  intros Hx Hs F1 F2. induction l1 as [|d l1 IH]; cbn in *.
  - constructor; [exact Hs|]. exact F2.
  - inversion Hs as [|? ? Hs' Hd]; subst.
    inversion F1 as [|? ? Fd Fl]; subst.
    constructor; [apply IH; assumption|].
    apply Forall_app in Hd. destruct Hd as [Hd1 Hd2].
    apply Forall_app. split; [exact Hd1|].
    constructor; [exact Fd | exact Hd2].
Qed.

(** X29. [IntervalTier.add] keeps a tier of intervals that do not overlap in
    order: on a tier whose bounds are in order
    ([0 <= start_time <= end_time]) and whose intervals, all of class
    [Interval] and each with [start_time <= end_time], are stored each
    ending no later than the next starts, adding an interval [s .. e]
    with [0 <= s < e] that overlaps none of them (each of them ends by
    [s] or starts from [e]) returns, widens the bounds to cover it, puts
    it between the intervals that end by its start and those that start
    from its end, and the tier is again in that order. *)
Theorem add_interval_keeps_order (self : IntervalTier.t) (s e : Q)
  (text : string) (overwrite : bool)
  (Hwf : tier_wf self) (Hs : 0 <= s) (Hse : s < e)
  (Hobjs : Forall (fun d => Interval.cls d = Interval_cls
                            /\ Interval.start_time d <= Interval.end_time d)
                  (Tier._objects self))
  (Hsorted : StronglySorted precedes (Tier._objects self))
  (Hfree : Forall (fun d => Interval.end_time d <= s
                            \/ e <= Interval.start_time d)
                  (Tier._objects self)) :
  exists l1 l2 : list Interval.t,
    Tier._objects self = l1 ++ l2
    /\ Forall (fun d => Interval.end_time d <= s) l1
    /\ Forall (fun d => e <= Interval.start_time d) l2
    /\ IntervalTier.add s e text overwrite self
       = Return (with_objects (widened self s e)
                   (l1 ++ Interval.mk Interval_cls s e text :: l2)) tt
    /\ StronglySorted precedes
         (l1 ++ Interval.mk Interval_cls s e text :: l2).
Proof.
  assert (Hw : Forall (fun d => Interval.start_time d <= Interval.end_time d)
                      (Tier._objects self)).
  { revert Hobjs. apply Forall_impl. intros d [_ H]. exact H. }
  destruct (precedes_split s e _ Hse Hw Hsorted Hfree)
    as [l1 [l2 [E [F1 F2]]]].
  exists l1, l2. split; [exact E|]. split; [exact F1|]. split; [exact F2|].
  rewrite E in Hobjs, Hsorted.
  apply Forall_app in Hobjs. destruct Hobjs as [O1 O2].
  split.
  - unfold IntervalTier.add, bind, lift, Interval.new.
    rewrite Interval_init_ok by lra.
    rewrite add_interval_place by (cbn; try assumption; lra).
    cbn [Interval.start_time Interval.end_time Interval._start_time
         Interval._end_time].
    rewrite (place_insert op_eq _ overwrite _ l1 l2).
    + reflexivity.
    + exact E.
    + rewrite Forall_forall in *. intros d Hin.
      destruct (O1 d Hin) as [C W]. specialize (F1 d Hin).
      unfold op_lt, reflected_first, method_lt. cbn. rewrite C. cbn.
      qprop. lra.
    + rewrite Forall_forall in *. intros d Hin.
      destruct (O2 d Hin) as [C W]. specialize (F2 d Hin).
      unfold op_lt, reflected_first, method_lt. cbn. rewrite C. cbn.
      qprop. exact F2.
    + apply Forall_app. split; rewrite Forall_forall in *; intros d Hin;
        apply op_eq_false_bounds; intros [B1 B2]; cbn in B1, B2.
      * destruct (O1 d Hin) as [C W]. specialize (F1 d Hin). lra.
      * destruct (O2 d Hin) as [C W]. specialize (F2 d Hin). lra.
  - apply precedes_insert; cbn; try assumption. lra.
Qed.

Lemma add_interval_keeps_order_witness :
  exists l1 l2 : list Interval.t,
    [Interval.mk Interval_cls 0 1 "a"; Interval.mk Interval_cls 3 4 "c"]
    = l1 ++ l2
    /\ Forall (fun d => Interval.end_time d <= 1) l1
    /\ Forall (fun d => 2 <= Interval.start_time d) l2
    /\ IntervalTier.add 1 2 "b" false
         (Tier.mk "t" 0 4 [Interval.mk Interval_cls 0 1 "a";
                           Interval.mk Interval_cls 3 4 "c"])
       = Return (with_objects
                   (widened (Tier.mk "t" 0 4
                               [Interval.mk Interval_cls 0 1 "a";
                                Interval.mk Interval_cls 3 4 "c"]) 1 2)
                   (l1 ++ Interval.mk Interval_cls 1 2 "b" :: l2)) tt
    /\ StronglySorted precedes
         (l1 ++ Interval.mk Interval_cls 1 2 "b" :: l2).
Proof.
  apply (add_interval_keeps_order
           (Tier.mk "t" 0 4 [Interval.mk Interval_cls 0 1 "a";
                             Interval.mk Interval_cls 3 4 "c"])
           1 2 "b" false).
  - split; cbn; lra.
  - lra.
  - lra.
  - repeat constructor; cbn; lra.
  - repeat constructor; unfold precedes; cbn; lra.
  - constructor; [left; cbn; lra|].
    constructor; [right; cbn; lra | constructor].
Defined.
